(** * SQL safety and schema-conformance validator (Sql_final_metrics.py)

    A shallow embedding of [generate_table_mapping_from_create_statements],
    [SQLQueryInspector.inspect_query], [check_and_clean_columns],
    [validate_columns] and [query_validator], together with the regular
    expressions they are written with.

    Modelling conventions.
    - A Python [str] is a [string]. The character classes, [lower] and the
      matching under IGNORECASE are those of Python on ASCII text, that is on
      code points below 128; a character from 128 on is taken to be neither a
      word character, a space, a digit nor a cased letter, which is narrower
      than Python's classes. A property that depends on how such characters
      are classed is stated for ASCII text only, with the hypothesis
      [isascii].
    - A Python [dict] from table names to column lists is a [gmap string
      (list string)]; a Python [set] of names is a [gset string].
    - [sql_metadata.Parser] is a third-party library: a parser is a record of
      the four properties the validator reads, each of which either yields
      its value or raises. *)

From Stdlib Require Import ZArith Ascii String List Bool Lia.
From stdpp Require Import base decidable option list strings gmap sorting.

Local Open Scope char_scope.

(** ** Python string primitives *)

Module Py.

Definition in_range (lo hi : N) (c : ascii) : bool :=
  ((lo <=? N_of_ascii c) && (N_of_ascii c <=? hi))%N.

(** [str.isspace] and the class [\s] on one ASCII character: TAB..CR, FS..US
    and the blank. *)
Definition isspace (c : ascii) : bool := in_range 9 13 c || in_range 28 32 c.
Definition isupper (c : ascii) : bool := in_range 65 90 c.
Definition islower (c : ascii) : bool := in_range 97 122 c.
Definition isdigit_char (c : ascii) : bool := in_range 48 57 c.

(** The class [\w] on ASCII characters. *)
Definition isword (c : ascii) : bool :=
  isupper c || islower c || isdigit_char c || Ascii.eqb c "_".

Definition lower_char (c : ascii) : ascii :=
  if isupper c then ascii_of_N (N_of_ascii c + 32) else c.

(** [s.lower()] on ASCII text: only A..Z change. *)
Fixpoint lower (s : string) : string :=
  match s with
  | EmptyString => EmptyString
  | String c s' => String (lower_char c) (lower s')
  end.

Fixpoint lstrip (s : string) : string :=
  match s with
  | EmptyString => EmptyString
  | String c s' => if isspace c then lstrip s' else s
  end.

Fixpoint rstrip (s : string) : string :=
  match s with
  | EmptyString => EmptyString
  | String c s' =>
      match rstrip s' with
      | EmptyString => if isspace c then EmptyString else String c EmptyString
      | r => String c r
      end
  end.

(** [s.strip()] *)
Definition strip (s : string) : string := rstrip (lstrip s).

(** [s.split(sep)] for a one-character separator. *)
Fixpoint split (sep : ascii) (s : string) : list string :=
  match s with
  | EmptyString => [EmptyString]
  | String c s' =>
      if Ascii.eqb c sep then EmptyString :: split sep s'
      else match split sep s' with
           | h :: t => String c h :: t
           | [] => [String c EmptyString]
           end
  end.

(** [s.split(sep, 1)]: the text before the first separator and the text
    after it, when there is one. *)
Fixpoint split1 (sep : ascii) (s : string) : option (string * string) :=
  match s with
  | EmptyString => None
  | String c s' =>
      if Ascii.eqb c sep then Some (EmptyString, s')
      else match split1 sep s' with
           | Some (a, b) => Some (String c a, b)
           | None => None
           end
  end.

(** [c in s] for a character. *)
Fixpoint has_char (c : ascii) (s : string) : bool :=
  match s with
  | EmptyString => false
  | String d s' => Ascii.eqb d c || has_char c s'
  end.

(** [hay.startswith(needle)] *)
Fixpoint startswith (needle hay : string) : bool :=
  match needle, hay with
  | EmptyString, _ => true
  | String a needle', String b hay' => Ascii.eqb a b && startswith needle' hay'
  | String _ _, EmptyString => false
  end.

(** [needle in hay] *)
Fixpoint contains (needle hay : string) : bool :=
  startswith needle hay ||
  match hay with
  | EmptyString => false
  | String _ hay' => contains needle hay'
  end.

Fixpoint all_chars (p : ascii -> bool) (s : string) : bool :=
  match s with
  | EmptyString => true
  | String c s' => p c && all_chars p s'
  end.

(** [s.isdigit()] on ASCII text *)
Definition isdigit (s : string) : bool :=
  match s with
  | EmptyString => false
  | _ => all_chars isdigit_char s
  end.

(** [sep.join(l)] *)
Definition join (sep : string) (l : list string) : string := String.concat sep l.

(** [l[-1]] *)
Definition last_item (l : list string) : string := List.last l EmptyString.

(** [sorted(l)] on strings: ascending code-point order. *)
Definition sorted (l : list string) : list string := merge_sort String.le l.

(** The first [n] characters of [s]. *)
Fixpoint take (n : nat) (s : string) : string :=
  match n, s with
  | S n', String c s' => String c (take n' s')
  | _, _ => EmptyString
  end.

End Py.

(** ** Regular expressions: a backtracking matcher in the order of Python's [re] *)

Module Re.

(** Every starred sub-pattern of the program is a single character class. *)
Inductive regex : Type :=
| Eps
| Chr (p : ascii -> bool)
| Seq (r1 r2 : regex)
| Alt (r1 r2 : regex)
| Star (greedy : bool) (p : ascii -> bool)
| Grp (n : nat) (r : regex)
| WordB
| Bos
| Eos
| NotAhead (r : regex).

Definition caps : Type := list (nat * string).

(** A position is the character before it (if any) and the text after it. *)
Definition result : Type := option ascii * string * caps.
Definition cont : Type := option ascii -> string -> caps -> option result.

Definition orelse {A} (x y : option A) : option A :=
  match x with Some _ => x | None => y end.

Fixpoint star_greedy (p : ascii -> bool) (prev : option ascii) (s : string)
    (k : option ascii -> string -> option result) : option result :=
  match s with
  | String c s' =>
      if p c then orelse (star_greedy p (Some c) s' k) (k prev s) else k prev s
  | EmptyString => k prev s
  end.

Fixpoint star_lazy (p : ascii -> bool) (prev : option ascii) (s : string)
    (k : option ascii -> string -> option result) : option result :=
  match k prev s with
  | Some r => Some r
  | None =>
      match s with
      | String c s' => if p c then star_lazy p (Some c) s' k else None
      | EmptyString => None
      end
  end.

Definition word_before (prev : option ascii) : bool :=
  match prev with Some c => Py.isword c | None => false end.
Definition word_after (s : string) : bool :=
  match s with String c _ => Py.isword c | EmptyString => false end.

(** [$] without MULTILINE: the end, or just before a final newline. *)
Definition at_end (s : string) : bool :=
  match s with
  | EmptyString => true
  | String c EmptyString => Ascii.eqb c "010"
  | _ => false
  end.

Fixpoint m (r : regex) (prev : option ascii) (s : string) (cs : caps) (k : cont)
    : option result :=
  match r with
  | Eps => k prev s cs
  | Chr p =>
      match s with
      | String c s' => if p c then k (Some c) s' cs else None
      | EmptyString => None
      end
  | Seq r1 r2 => m r1 prev s cs (fun prev' s' cs' => m r2 prev' s' cs' k)
  | Alt r1 r2 => orelse (m r1 prev s cs k) (m r2 prev s cs k)
  | Star true p => star_greedy p prev s (fun prev' s' => k prev' s' cs)
  | Star false p => star_lazy p prev s (fun prev' s' => k prev' s' cs)
  | Grp n r1 =>
      m r1 prev s cs (fun prev' s' cs' =>
        k prev' s' ((n, Py.take (String.length s - String.length s') s) :: cs'))
  | WordB => if xorb (word_before prev) (word_after s) then k prev s cs else None
  | Bos => match prev with None => k prev s cs | Some _ => None end
  | Eos => if at_end s then k prev s cs else None
  | NotAhead r1 =>
      match m r1 prev s cs (fun prev' s' cs' => Some (prev', s', cs')) with
      | Some _ => None
      | None => k prev s cs
      end
  end.

(** A match object: the text before the match, [group(0)], the text from
    [end()] on, and the numbered groups. *)
Record match_obj : Type := MatchObj {
  before : string;
  group0 : string;
  after : string;
  groups : caps
}.

Definition group (n : nat) (mo : match_obj) : option string :=
  match List.find (fun e => Nat.eqb (fst e) n) (groups mo) with
  | Some (_, t) => Some t
  | None => None
  end.

(** An attempt at one position; [must_advance] refuses the empty match. *)
Definition attempt (r : regex) (must_advance : bool) (prev : option ascii) (s : string)
    : option result :=
  m r prev s [] (fun prev' s' cs' =>
    if must_advance && Nat.eqb (String.length s') (String.length s) then None
    else Some (prev', s', cs')).

Definition obj_of (pre s : string) (res : result) : match_obj :=
  let '(_, rest, cs) := res in
  MatchObj pre (Py.take (String.length s - String.length rest) s) rest cs.

(** [re.match(r, s)] *)
Definition re_match (r : regex) (s : string) : option match_obj :=
  match attempt r false None s with
  | Some res => Some (obj_of EmptyString s res)
  | None => None
  end.

Fixpoint search_from (r : regex) (prev : option ascii) (s : string) : option match_obj :=
  match attempt r false prev s with
  | Some res => Some (obj_of EmptyString s res)
  | None =>
      match s with
      | EmptyString => None
      | String c s' =>
          match search_from r (Some c) s' with
          | Some mo => Some (MatchObj (String c (before mo)) (group0 mo) (after mo) (groups mo))
          | None => None
          end
      end
  end.

(** [re.search(r, s)] *)
Definition re_search (r : regex) (s : string) : option match_obj := search_from r None s.

Definition found (o : option match_obj) : bool :=
  match o with Some _ => true | None => false end.

(** [re.sub(r, repl, s)] for a replacement without group references: after
    an empty match the next attempt at the same position must advance. *)
Fixpoint sub_loop (fuel : nat) (r : regex) (repl : string) (adv : bool)
    (prev : option ascii) (s : string) : string :=
  match fuel with
  | O => s
  | S fuel' =>
      match attempt r adv prev s with
      | Some (prev', rest, _) =>
          (repl ++ sub_loop fuel' r repl
                     (Nat.eqb (String.length rest) (String.length s)) prev' rest)%string
      | None =>
          match s with
          | EmptyString => EmptyString
          | String c s' => String c (sub_loop fuel' r repl false (Some c) s')
          end
      end
  end.

Definition re_sub (r : regex) (repl s : string) : string :=
  sub_loop (2 * String.length s + 2) r repl false None s.

(** [re.split(r, s)] for a pattern without groups. *)
Fixpoint split_loop (fuel : nat) (r : regex) (adv : bool)
    (prev : option ascii) (s : string) : list string :=
  match fuel with
  | O => [s]
  | S fuel' =>
      match attempt r adv prev s with
      | Some (prev', rest, _) =>
          EmptyString :: split_loop fuel' r
                           (Nat.eqb (String.length rest) (String.length s)) prev' rest
      | None =>
          match s with
          | EmptyString => [EmptyString]
          | String c s' =>
              match split_loop fuel' r false (Some c) s' with
              | h :: t => String c h :: t
              | [] => [String c EmptyString]
              end
          end
      end
  end.

Definition re_split (r : regex) (s : string) : list string :=
  split_loop (2 * String.length s + 2) r false None s.

(** *** Pattern combinators *)

Definition eqc (c : ascii) : ascii -> bool := Ascii.eqb c.
Definition is_not (c : ascii) : ascii -> bool := fun d => negb (Ascii.eqb c d).
(** One ASCII character under IGNORECASE. *)
Definition is_ci (c : ascii) : ascii -> bool :=
  fun d => Ascii.eqb (Py.lower_char c) (Py.lower_char d).
Definition any_char : ascii -> bool := fun _ => true.
(** [.] without DOTALL *)
Definition not_newline : ascii -> bool := is_not "010".

Definition ch (c : ascii) : regex := Chr (eqc c).
Definition plus (p : ascii -> bool) : regex := Seq (Chr p) (Star true p).
Definition opt (r : regex) : regex := Alt r Eps.
Definition sp_star : regex := Star true Py.isspace.
Definition sp_plus : regex := plus Py.isspace.

(** A literal text, and a literal text under IGNORECASE. *)
Fixpoint lit (s : string) : regex :=
  match s with
  | EmptyString => Eps
  | String c EmptyString => Chr (eqc c)
  | String c s' => Seq (Chr (eqc c)) (lit s')
  end.
Fixpoint lit_ci (s : string) : regex :=
  match s with
  | EmptyString => Eps
  | String c EmptyString => Chr (is_ci c)
  | String c s' => Seq (Chr (is_ci c)) (lit_ci s')
  end.

Fixpoint seq (l : list regex) : regex :=
  match l with
  | [] => Eps
  | [r] => r
  | r :: l' => Seq r (seq l')
  end.
Fixpoint alt (l : list regex) : regex :=
  match l with
  | [] => NotAhead Eps
  | [r] => r
  | r :: l' => Alt r (alt l')
  end.

End Re.

Local Open Scope string_scope.
Local Open Scope list_scope.
Local Open Scope stdpp_scope.

Import Re.

Definition nl : string := String "010" EmptyString.
Definition dquote : ascii := "034".

(** [match.group(n)] of a group that took part in the match. *)
Definition group_str (n : nat) (mo : match_obj) : string :=
  match group n mo with Some t => t | None => EmptyString end.

Fixpoint fold_chars {A : Type} (f : A -> ascii -> A) (s : string) (a : A) : A :=
  match s with
  | EmptyString => a
  | String c s' => fold_chars f s' (f a c)
  end.

Definition str_in (x : string) (l : list string) : bool := bool_decide (x ∈ l).
Definition is_empty_str (s : string) : bool := String.eqb s EmptyString.

(** ** The patterns of the schema extractor *)

(** The class of line 16: backquote, double quote, [\[], [\w], [\.] *)
Definition name_char (c : ascii) : bool :=
  eqc "`" c || eqc dquote c || eqc "[" c || Py.isword c || eqc "." c.
(** The class of lines 37 and 74: backquote, double quote, [\[], [\w] *)
Definition ident_char (c : ascii) : bool :=
  eqc "`" c || eqc dquote c || eqc "[" c || Py.isword c.
(** The class of lines 25, 45 and 77: backquote, double quote, [\[], [\]] *)
Definition quote_char (c : ascii) : bool :=
  eqc "`" c || eqc dquote c || eqc "[" c || eqc "]" c.

(** Line 16, with IGNORECASE, NAME standing for the class [name_char]:
    [\s*CREATE\s+(?:OR\s+REPLACE\s+)?(?:TABLE|VIEW)\s+(?:IF\s+NOT\s+EXISTS\s+)?(NAME+)(?:\s+AS\b)?] *)
Definition re_create : regex :=
  seq [ sp_star; lit_ci "CREATE"; sp_plus;
        opt (seq [lit_ci "OR"; sp_plus; lit_ci "REPLACE"; sp_plus]);
        alt [lit_ci "TABLE"; lit_ci "VIEW"]; sp_plus;
        opt (seq [lit_ci "IF"; sp_plus; lit_ci "NOT"; sp_plus; lit_ci "EXISTS"; sp_plus]);
        Grp 1 (plus name_char);
        opt (seq [sp_plus; lit_ci "AS"; WordB]) ].

(** Lines 25, 45 and 77: one character of the class [quote_char] *)
Definition re_quotes : regex := Chr quote_char.

(** Line 29, with IGNORECASE and DOTALL:
    [\bAS\b\s*\(\s*SELECT\s+(.*?)(?:\bFROM\b|\);?|$)] *)
Definition re_view_select : regex :=
  seq [ WordB; lit_ci "AS"; WordB; sp_star; ch "("; sp_star; lit_ci "SELECT"; sp_plus;
        Grp 1 (Star false any_char);
        alt [ seq [WordB; lit_ci "FROM"; WordB];
              seq [ch ")"; opt (ch ";")];
              Eos ] ].

(** [,\s*] *)
Definition re_comma : regex := seq [ch ","; sp_star].

(** Line 37, with IGNORECASE, IDENT standing for the class [ident_char]:
    [\bAS\b\s+(IDENT+)] *)
Definition re_alias : regex :=
  seq [WordB; lit_ci "AS"; WordB; sp_plus; Grp 1 (plus ident_char)].

(** [\.] *)
Definition re_dot : regex := ch ".".

(** [.*\(|\).*] *)
Definition re_call_wrapper : regex :=
  alt [ seq [Star true not_newline; ch "("]; seq [ch ")"; Star true not_newline] ].

(** [\(\s*(.*?)\s*\)[^)]*$] with DOTALL *)
Definition re_column_list : regex :=
  seq [ ch "("; sp_star; Grp 1 (Star false any_char); sp_star; ch ")";
        Star true (is_not ")"); Eos ].

(** [\s*(CONSTRAINT|PRIMARY\s+KEY|FOREIGN\s+KEY|UNIQUE|CHECK|INDEX)] with IGNORECASE *)
Definition re_constraint : regex :=
  seq [ sp_star;
        Grp 1 (alt [ lit_ci "CONSTRAINT";
                     seq [lit_ci "PRIMARY"; sp_plus; lit_ci "KEY"];
                     seq [lit_ci "FOREIGN"; sp_plus; lit_ci "KEY"];
                     lit_ci "UNIQUE"; lit_ci "CHECK"; lit_ci "INDEX" ]) ].

(** Line 74, IDENT standing for the class [ident_char]: [\s*(IDENT+)] *)
Definition re_first_ident : regex := seq [sp_star; Grp 1 (plus ident_char)].

(** ** generate_table_mapping_from_create_statements *)

(** Lines 22-25: the key of a statement, from group 1 of the header. *)
Definition table_name_of (g : string) : string :=
  let table_name := if Py.has_char "." g then Py.last_item (Py.split "." g) else g in
  Py.lower (re_sub re_quotes "" table_name).

(** Lines 36-45: the output name of one expression of a view's select list. *)
Definition view_column_name (col : string) : string :=
  let col := Py.strip col in
  let col_name :=
    match re_search re_alias col with
    | Some alias_match => group_str 1 alias_match
    | None =>
        let parts := re_split re_dot col in
        let col_name := match parts with
                        | [] => Py.strip col
                        | _ => Py.strip (Py.last_item parts)
                        end in
        Py.strip (re_sub re_call_wrapper "" col_name)
    end in
  Py.lower (re_sub re_quotes "" col_name).

(** Lines 35-47: one turn of the loop over the select list. *)
Definition add_view_column (columns : list string) (col : string) : list string :=
  let col_name := view_column_name col in
  if negb (is_empty_str col_name) && negb (str_in col_name columns)
     && negb (String.eqb col_name "*")
  then columns ++ [col_name] else columns.

Record split_state : Type := SplitState {
  col_defs : list string;
  current_def : string;
  paren_level : Z
}.

(** Lines 56-64: one character of the column-definition list. *)
Definition split_step (st : split_state) (char : ascii) : split_state :=
  let lvl := if Ascii.eqb char "(" then (paren_level st + 1)%Z
             else if Ascii.eqb char ")" then (paren_level st - 1)%Z
             else paren_level st in
  if Ascii.eqb char "," && (lvl =? 0)%Z
  then SplitState (col_defs st ++ [Py.strip (current_def st)]) "" lvl
  else SplitState (col_defs st) (current_def st +:+ String char "") lvl.

(** Lines 52-67 *)
Definition split_columns (columns_def : string) : list string :=
  let st := fold_chars split_step columns_def (SplitState [] "" 0%Z) in
  if negb (is_empty_str (Py.strip (current_def st)))
  then col_defs st ++ [Py.strip (current_def st)]
  else col_defs st.

(** Lines 69-79: one turn of the loop over the column definitions. *)
Definition add_table_column (columns : list string) (col_def : string) : list string :=
  if found (re_match re_constraint col_def) then columns
  else match re_match re_first_ident col_def with
       | Some col_match =>
           let col_name := Py.lower (re_sub re_quotes "" (group_str 1 col_match)) in
           if str_in col_name columns then columns else columns ++ [col_name]
       | None => columns
       end.

(** Lines 27-79: the column list of one statement. *)
Definition columns_of_statement (statement : string) : list string :=
  let columns := ["*"] in
  match re_search re_view_select statement with
  | Some view_select_match =>
      let select_columns := Py.strip (group_str 1 view_select_match) in
      fold_left add_view_column (re_split re_comma select_columns) columns
  | None =>
      match re_search re_column_list statement with
      | Some columns_match =>
          let columns_def := Py.strip (group_str 1 columns_match) in
          fold_left add_table_column (split_columns columns_def) columns
      | None => columns
      end
  end.

(** Lines 11-82: one turn of the loop over the statements. *)
Definition process_statement (result_mapping : gmap string (list string))
    (statement : string) : gmap string (list string) :=
  let statement := Py.strip statement in
  if is_empty_str statement then result_mapping
  else match re_match re_create statement with
       | None => result_mapping
       | Some create_match =>
           let table_name := table_name_of (group_str 1 create_match) in
           let columns := columns_of_statement statement in
           if (1 <? length columns)%nat
           then <[table_name := columns]> result_mapping
           else result_mapping
       end.

Definition generate_table_mapping_from_create_statements (create_statements : string)
    : gmap string (list string) :=
  fold_left process_statement (Py.split ";" create_statements) ∅.

(** ** The patterns of the inspector *)

(** Line 91, with IGNORECASE and DOTALL: [\s*SELECT] *)
Definition re_select : regex := seq [sp_star; lit_ci "SELECT"].

(** Line 92, with IGNORECASE and DOTALL: [\s*WITH\s+.*?\s+AS\s*\(.*?\)\s*SELECT] *)
Definition re_with : regex :=
  seq [ sp_star; lit_ci "WITH"; sp_plus; Star false any_char; sp_plus; lit_ci "AS";
        sp_star; ch "("; Star false any_char; ch ")"; sp_star; lit_ci "SELECT" ].

(** Line 97, with IGNORECASE: [\bKEYWORD\b] *)
Definition re_keyword (keyword : string) : regex := seq [WordB; lit_ci keyword; WordB].

Definition disallowed_keywords : list string :=
  ["DROP"; "DELETE"; "TRUNCATE"; "UPDATE"; "INSERT"; "ALTER"; "CREATE"; "GRANT"; "REVOKE"].

(** Line 100, with IGNORECASE: [xp_cmdshell], [exec(\s|\()], [sp_], [xp_], [;\s*--] *)
Definition unsafe_keywords : list regex :=
  [ lit_ci "xp_cmdshell";
    seq [lit_ci "exec"; Grp 1 (alt [Chr Py.isspace; ch "("])];
    lit_ci "sp_";
    lit_ci "xp_";
    seq [ch ";"; sp_star; lit "--"] ].

(** Line 107, with IGNORECASE: [\b(LIMIT|OFFSET)\b] and [\bORDER\s+BY\b] *)
Definition re_limit : regex :=
  seq [WordB; Grp 1 (alt [lit_ci "LIMIT"; lit_ci "OFFSET"]); WordB].
Definition re_order_by : regex :=
  seq [WordB; lit_ci "ORDER"; sp_plus; lit_ci "BY"; WordB].

(** Line 111: a semicolon under a negative lookahead for optional blanks, an
    optional group made of two dashes and the rest of the line, and [$]:
    [;(?!\s*(--.* )?$)], written without the blank. *)
Definition re_semicolon : regex :=
  seq [ ch ";";
        NotAhead (seq [ sp_star;
                        opt (Grp 1 (seq [lit "--"; Star true not_newline]));
                        Eos ]) ].

(** Line 120, with IGNORECASE: [\bJOIN\s+([\w.]+)(\s+\w+)?(?!\s+(ON|USING)\b)] *)
Definition re_join_pattern : regex :=
  seq [ WordB; lit_ci "JOIN"; sp_plus;
        Grp 1 (plus (fun c => Py.isword c || eqc "." c));
        opt (Grp 2 (seq [sp_plus; plus Py.isword]));
        NotAhead (seq [sp_plus; Grp 3 (alt [lit_ci "ON"; lit_ci "USING"]); WordB]) ].

(** Line 123, with IGNORECASE: [\bCROSS\s+JOIN\b] *)
Definition re_cross_join : regex :=
  seq [WordB; lit_ci "CROSS"; sp_plus; lit_ci "JOIN"; WordB].

(** Line 127, with IGNORECASE: [\bJOIN\b] *)
Definition re_join : regex := seq [WordB; lit_ci "JOIN"; WordB].

(** Line 129, with IGNORECASE and DOTALL: [\b(ON|USING)\b] *)
Definition re_on_using : regex :=
  seq [WordB; Grp 1 (alt [lit_ci "ON"; lit_ci "USING"]); WordB].

(** Line 132, with IGNORECASE: [\bUNION\b] *)
Definition re_union : regex := seq [WordB; lit_ci "UNION"; WordB].

(** ** SQLQueryInspector.inspect_query *)

Definition msg_only_select : string :=
  "Only SELECT statements or CTEs (WITH...SELECT) are allowed.".
Definition msg_disallowed (keyword : string) : string :=
  "Potential disallowed operation detected: '" +:+ keyword +:+ "'.".
Definition msg_unsafe (actual_keyword : string) : string :=
  "Potentially unsafe SQL pattern '" +:+ actual_keyword +:+ "' detected.".
Definition msg_limit : string :=
  "Use of LIMIT/OFFSET without ORDER BY may result in unpredictable results.".
Definition msg_semicolon : string :=
  "Avoid the use of semicolons (;) except possibly at the very end of the query.".
Definition msg_join : string :=
  "Use of JOIN without an ON/USING clause may result in a Cartesian product. Specify join conditions or use CROSS JOIN.".
Definition msg_union : string :=
  "UNION queries detected. Ensure column counts and types match in each SELECT.".

(** Lines 91-93 *)
Definition rule_select (query : string) : bool :=
  negb (found (re_match re_select query) || found (re_match re_with query)).

(** Lines 96-98 *)
Definition step_disallowed (query : string) (issues : list string) (keyword : string)
    : list string :=
  if found (re_search (re_keyword keyword) query)
  then issues ++ [msg_disallowed keyword] else issues.

(** Lines 101-105 *)
Definition step_unsafe (query : string) (issues : list string) (keyword_pattern : regex)
    : list string :=
  match re_search keyword_pattern query with
  | Some mo => issues ++ [msg_unsafe (Py.strip (group0 mo))]
  | None => issues
  end.

(** Lines 107-108 *)
Definition rule_limit (query : string) : bool :=
  found (re_search re_limit query) && negb (found (re_search re_order_by query)).

(** Line 111 *)
Definition rule_semicolon (query : string) : bool :=
  found (re_search re_semicolon (Py.strip query)).

(** Line 114: the test made on each earlier issue; the first operand is the
    six characters semicolon, backslash, s, star, dash, dash. *)
Definition flags_semicolon_comment (issue : string) : bool :=
  Py.contains ";\s*--" issue && Py.contains "Potentially unsafe SQL pattern" issue.

(** Lines 120-129: [findall] is used for its truth value only, which is that
    of [search]. *)
Definition rule_join (query : string) : bool :=
  if found (re_search re_join_pattern query) then
    if negb (found (re_search re_cross_join query)) then
      match re_search re_join_pattern query with
      | Some join_match =>
          let substring_after_join := after join_match in
          let search_area :=
            match re_search re_join substring_after_join with
            | None => substring_after_join
            | Some next_join_match => before next_join_match
            end in
          negb (found (re_search re_on_using search_area))
      | None => false
      end
    else false
  else false.

(** Line 132 *)
Definition rule_union (query : string) : bool := found (re_search re_union query).

Definition add_if (b : bool) (issue : string) (issues : list string) : list string :=
  if b then issues ++ [issue] else issues.

(** Lines 91-133: [self.issues] after the seven checks. *)
Definition inspect_issues (query : string) : list string :=
  let issues := [] in
  let issues := add_if (rule_select query) msg_only_select issues in
  let issues := fold_left (step_disallowed query) disallowed_keywords issues in
  let issues := fold_left (step_unsafe query) unsafe_keywords issues in
  let issues := add_if (rule_limit query) msg_limit issues in
  let issues :=
    if rule_semicolon query then
      let is_already_flagged_as_unsafe_semicolon_comment :=
        existsb flags_semicolon_comment issues in
      add_if (negb is_already_flagged_as_unsafe_semicolon_comment) msg_semicolon issues
    else issues in
  let issues := add_if (rule_join query) msg_join issues in
  let issues := add_if (rule_union query) msg_union issues in
  issues.

(** Lines 135-139 *)
Definition issues_str (issues : list string) : string :=
  "Detected issues while validating SQL query:" +:+ nl
  +:+ Py.join nl (map (fun issue => "- " +:+ issue) issues).

Definition inspect_query (query : string) : string :=
  match inspect_issues query with
  | [] => query
  | issues => issues_str issues
  end.

(** ** check_and_clean_columns, validate_columns *)

(** Line 141, with IGNORECASE:
    [^(COUNT|SUM|AVG|MIN|MAX)\s*\(\s*(?:\*|\w+|\bDISTINCT\b\s+\w+)\s*\)] *)
Definition agg_pattern : regex :=
  seq [ Bos;
        Grp 1 (alt [lit_ci "COUNT"; lit_ci "SUM"; lit_ci "AVG"; lit_ci "MIN"; lit_ci "MAX"]);
        sp_star; ch "("; sp_star;
        alt [ ch "*"; plus Py.isword;
              seq [WordB; lit_ci "DISTINCT"; WordB; sp_plus; plus Py.isword] ];
        sp_star; ch ")" ].

(** Line 214: [^\w+\(\s*\)$] *)
Definition re_call0 : regex :=
  seq [Bos; plus Py.isword; ch "("; sp_star; ch ")"; Eos].

(** Lines 147-163: one turn of the loop over the raw columns. *)
Definition clean_step (ctes_present : bool) (known_prefixes : gset string)
    (cleaned : list string) (col_raw : string) : list string :=
  if found (re_match agg_pattern col_raw) then cleaned
  else if ctes_present then
    if Py.has_char "." col_raw then
      match Py.split1 "." col_raw with
      | Some (part0, part1) =>
          let prefix := Py.lower part0 in
          let col_name := part1 in
          if bool_decide (prefix ∈ known_prefixes)
          then cleaned ++ [Py.lower col_name] else cleaned
      | None => cleaned
      end
    else cleaned
  else
    if Py.has_char "." col_raw
    then cleaned ++ [Py.lower (Py.last_item (Py.split "." col_raw))]
    else if negb (String.eqb col_raw "*") then cleaned ++ [Py.lower col_raw]
    else cleaned.

(** [list(set(l))]: the distinct items of [l], in the order of the set. *)
Definition list_set (l : list string) : list string :=
  elements (list_to_set l : gset string).

Definition check_and_clean_columns (columns_raw : list string) (ctes_present : bool)
    (known_base_table_aliases known_base_table_names : gset string) : list string :=
  let known_prefixes := known_base_table_aliases ∪ known_base_table_names in
  list_set (fold_left (clean_step ctes_present known_prefixes) columns_raw []).

(** Lines 171-176: one turn of the loop over the lowercased tables. *)
Definition table_step (table_column_mapping : gmap string (list string))
    (acc : gset string * list string) (table_name_lower : string)
    : gset string * list string :=
  let '(valid_columns_for_query, unknown_tables) := acc in
  match table_column_mapping !! table_name_lower with
  | Some cols =>
      (valid_columns_for_query ∪ list_to_set (map Py.lower cols), unknown_tables)
  | None =>
      (valid_columns_for_query,
       if str_in table_name_lower unknown_tables then unknown_tables
       else unknown_tables ++ [table_name_lower])
  end.

Definition msg_unknown_tables (unknown_tables : list string) : string :=
  "Query references undefined tables: " +:+ Py.join ", " (Py.sorted unknown_tables).

Definition msg_invalid_columns (invalid_columns extracted_tables_lower : list string)
    : string :=
  "Columns [" +:+ Py.join ", " (Py.sorted (list_set invalid_columns))
  +:+ "] are not defined for the referenced tables ["
  +:+ Py.join ", " (Py.sorted (list_set extracted_tables_lower)) +:+ "]".

Definition validate_columns (extracted_tables cleaned_columns_for_validation : list string)
    (table_column_mapping : gmap string (list string)) : bool * list string :=
  let extracted_tables_lower := map Py.lower extracted_tables in
  let '(valid_columns_for_query, unknown_tables) :=
    fold_left (table_step table_column_mapping) extracted_tables_lower ({["*"]}, []) in
  match unknown_tables with
  | _ :: _ => (false, [msg_unknown_tables unknown_tables])
  | [] =>
      let invalid_columns :=
        List.filter (fun col => negb (bool_decide (col ∈ valid_columns_for_query))
                                && negb (String.eqb col "*"))
                    cleaned_columns_for_validation in
      match invalid_columns with
      | _ :: _ => (false, [msg_invalid_columns invalid_columns extracted_tables_lower])
      | [] => (true, [])
      end
  end.

(** ** query_validator *)

(** What reading a property of the third-party parser does. *)
Inductive outcome (A : Type) : Type :=
| Returns (a : A)
| Raises (e : string).
Arguments Returns {A} a.
Arguments Raises {A} e.

#[global] Instance outcome_bind : MBind outcome :=
  fun A B (f : A -> outcome B) (x : outcome A) =>
    match x with
    | Returns a => f a
    | Raises e => Raises e
    end.

(** The properties of [sql_metadata.Parser(query)] read by the validator;
    [tables_aliases] is given by its items. *)
Record parser : Type := MkParser {
  tables : outcome (list string);
  columns : outcome (list string);
  with_names : outcome (list string);
  tables_aliases : outcome (list (string * string))
}.

(** Lines 213-214 *)
Definition simple_column_ok (c : string) : bool :=
  Py.isdigit c || String.eqb c "*" || found (re_match agg_pattern c)
  || found (re_match re_call0 c).

Definition msg_no_table : string :=
  "Validation Error: Columns specified without a valid table or CTE reference.".

(** Lines 251-255 *)
Definition handler (r : outcome string) : string :=
  match r with
  | Returns v => v
  | Raises e =>
      if Py.contains "Unknown token" e || Py.contains "Parse" e
         || Py.contains "Syntax error" e
      then "Validation Error: Failed to parse the query structure. Check syntax. (Details: "
           +:+ e +:+ ")"
      else "Validation Error: An unexpected issue occurred during validation. (Details: "
           +:+ e +:+ ")"
  end.

(** Lines 224-229: the lowercased aliases of the tables the schema defines. *)
Definition known_aliases (schema_defined_base_tables : gset string)
    (items : list (string * string)) : gset string :=
  list_to_set
    (map (fun item => Py.lower (fst item))
       (List.filter (fun item => bool_decide (Py.lower (snd item) ∈ schema_defined_base_tables))
          items)).

Section Validator.

(** The constructor [Parser] of the third-party library. *)
Variable Parser : string -> parser.

(** Lines 203-249: the body of the [try]. *)
Definition validate_body (query : string) (current_schema_mapping : gmap string (list string))
    : outcome string :=
  let parser := Parser query in
  parser_tables ← tables parser;
  let tables_from_parser_for_simple_check := map Py.lower parser_tables in
  columns_raw ← columns parser;
  parser_with_names ← with_names parser;
  let ctes_present := negb (bool_decide (parser_with_names = [])) in
  if bool_decide (tables_from_parser_for_simple_check = []) && negb ctes_present then
    if forallb simple_column_ok columns_raw then Returns query
    else Returns msg_no_table
  else
    let schema_defined_base_tables : gset string := dom current_schema_mapping in
    items ← tables_aliases parser;
    let known_base_table_aliases_set := known_aliases schema_defined_base_tables items in
    let columns_cleaned_for_validation :=
      check_and_clean_columns columns_raw ctes_present
        known_base_table_aliases_set schema_defined_base_tables in
    let actual_base_tables_to_validate :=
      List.filter (fun t_parser => bool_decide (t_parser ∈ schema_defined_base_tables))
        tables_from_parser_for_simple_check in
    let '(is_valid, validation_issues) :=
      validate_columns actual_base_tables_to_validate columns_cleaned_for_validation
        current_schema_mapping in
    if is_valid then Returns query
    else Returns ("Validation Error: " +:+ Py.join ", " validation_issues).

Definition query_validator (query : string) (current_schema_mapping : gmap string (list string))
    : string :=
  let output_query_or_error := inspect_query query in
  if negb (String.eqb output_query_or_error query) then output_query_or_error
  else handler (validate_body query current_schema_mapping).

End Validator.

(** A parser whose four properties return the given values. *)
Definition parsed (ts cs ws : list string) (al : list (string * string)) : parser :=
  MkParser (Returns ts) (Returns cs) (Returns ws) (Returns al).

(** ** Inputs of the scenarios *)

Definition ddl1 : string :=
  "CREATE TABLE customers(customer_id INT, first_name VARCHAR(50), email VARCHAR(100));".
Definition schema1 : gmap string (list string) :=
  generate_table_mapping_from_create_statements ddl1.

(** ** Predicates used in the statements *)

Definition not_upper (c : ascii) : bool := negb (Py.isupper c).
Definition lowercase (s : string) : Prop := Py.all_chars not_upper s = true.
Definition quote_free (s : string) : Prop :=
  Py.all_chars (fun c => negb (quote_char c)) s = true.
Definition unqualified (s : string) : Prop := Py.has_char "." s = false.

(** What the extractor promises of one entry of its result. *)
Definition columns_ok (v : list string) : Prop :=
  (exists rest, v = "*" :: rest) /\ Forall lowercase v /\ NoDup v.
Definition entry_ok (k : string) (v : list string) : Prop :=
  lowercase k /\ quote_free k /\ unqualified k /\
  columns_ok v /\ (2 <= length v)%nat.

(** The valid columns of lines 168-173, for the lowercased tables [l]. *)
Definition valid_columns (schema : gmap string (list string)) (l : list string)
    : gset string :=
  fst (fold_left (table_step schema) l ({["*"]}, [])).

(** The test of lines 184-185. *)
Definition is_invalid (valid : gset string) (col : string) : bool :=
  negb (bool_decide (col ∈ valid)) && negb (String.eqb col "*").

(** The tables handed to [validate_columns] at lines 235-238. *)
Definition base_tables (schema : gmap string (list string)) (ts : list string)
    : list string :=
  List.filter (fun t_parser => bool_decide (t_parser ∈ (dom schema : gset string)))
    (map Py.lower ts).

(** The four tests of lines 213-214 on a projected column, as the code makes
    them; [let_through] below gives the columns that pass by their text. *)
Definition numeric_literal (c : string) : Prop := Py.isdigit c = true.
Definition aggregate_call (c : string) : Prop := is_Some (re_match agg_pattern c).
Definition zero_argument_call (c : string) : Prop := is_Some (re_match re_call0 c).
Definition simple_column (c : string) : Prop :=
  numeric_literal c \/ c = "*" \/ aggregate_call c \/ zero_argument_call c.

(** The conditions on a query named by the round-trip property. *)
Definition no_disallowed_keyword (query : string) : Prop :=
  Forall (fun keyword => re_search (re_keyword keyword) query = None) disallowed_keywords.
Definition no_unsafe_pattern (query : string) : Prop :=
  Forall (fun keyword_pattern => re_search keyword_pattern query = None) unsafe_keywords.



(** A parser whose four properties raise [e]. *)
Definition raising (e : string) : parser :=
  MkParser (Raises e) (Raises e) (Raises e) (Raises e).

(** The text of the unknown-table message of line 179. *)
Definition undefined_tables_text : string := "Query references undefined tables".

(** No capital Q of [s] is followed by a small u, and [s] does not end in a
    capital Q. *)
Fixpoint no_Qu (s : string) : bool :=
  match s with
  | EmptyString => true
  | String c s' =>
      (if Ascii.eqb c "Q"
       then match s' with
            | String d _ => negb (Ascii.eqb d "u")
            | EmptyString => false
            end
       else true) && no_Qu s'
  end.

(** Neither a capital Q nor a backslash. *)
Definition tame_char (c : ascii) : bool := negb (Ascii.eqb c "Q") && negb (Ascii.eqb c "\").

(** [s] has no backslash and passes [no_Qu]. *)
Definition tame (s : string) : bool :=
  no_Qu s && Py.all_chars (fun c => negb (Ascii.eqb c "\")) s.

(** [self.issues] when the semicolon check of line 111 begins. *)
Definition issues_before_semicolon (query : string) : list string :=
  add_if (rule_limit query) msg_limit
    (fold_left (step_unsafe query) unsafe_keywords
       (fold_left (step_disallowed query) disallowed_keywords
          (add_if (rule_select query) msg_only_select []))).

(** [s] without the characters of the class [p]. *)
Fixpoint remove_chars (p : ascii -> bool) (s : string) : string :=
  match s with
  | EmptyString => EmptyString
  | String c s' => if p c then remove_chars p s' else String c (remove_chars p s')
  end.

Definition all_ascii : list ascii := map ascii_of_nat (List.seq 0 256).

(** Every character of the class [p] is in the class [q]. *)
Definition subclass (p q : ascii -> bool) : bool :=
  forallb (fun c => implb (p c) (q c)) all_ascii.

(** The characters a pattern can consume all lie in the class [q]. *)
Fixpoint chars_within (q : ascii -> bool) (r : regex) : bool :=
  match r with
  | Chr p | Star _ p => subclass p q
  | Seq r1 r2 | Alt r1 r2 => chars_within q r1 && chars_within q r2
  | Grp _ r1 => chars_within q r1
  | Eps | WordB | Bos | Eos | NotAhead _ => true
  end.

(** ** txt2sql_metrics: the two programmatic scores *)

(** Lines 350-358 *)
Definition safety_issue_markers : list string :=
  [ "Only SELECT statements or CTEs are allowed";
    "Potential disallowed operation detected";
    "Potentially unsafe SQL pattern";
    "Avoid the use of semicolons (;)";
    "Use of LIMIT/OFFSET without ORDER BY";
    "Use of JOIN without an ON/USING clause";
    "UNION queries detected" ].

(** The two entries that [txt2sql_metrics] derives from the validator. *)
Record sql_scores : Type := SqlScores {
  sql_safety_score : Z;
  sql_safety_score_reasoning : string;
  sql_column_hallucination : Z;
  sql_column_hallucination_reasoning : string
}.

(** Lines 344-369: the loop over the markers stops at the first one found. *)
Definition score_validation (validation_result_str predicted_sql : string) : sql_scores :=
  if negb (String.eqb validation_result_str predicted_sql) then
    if existsb (fun marker => Py.contains marker validation_result_str)
         safety_issue_markers
    then SqlScores 1 validation_result_str 0 "not hallucinated"
    else SqlScores 0 "it is safe" 1 validation_result_str
  else SqlScores 0 "it is safe" 0 "not hallucinated".

(** Lines 332-369 of [txt2sql_metrics], without the printing: the schema is
    extracted, the query validated and the verdict scored. *)
Definition sql_checks (Parser : string -> parser) (predicted_sql db_schema : string)
    : sql_scores :=
  let table_definitions_from_ddl :=
    generate_table_mapping_from_create_statements db_schema in
  let validation_result_str :=
    query_validator Parser predicted_sql table_definitions_from_ddl in
  score_validation validation_result_str predicted_sql.

(** The issue holds one of the markers of lines 350-358. *)
Definition marked (issue : string) : Prop :=
  existsb (fun marker => Py.contains marker issue) safety_issue_markers = true.

(** None of the capitals O, P, A and U, with which the markers start. *)
Definition no_OPAU (c : ascii) : bool :=
  negb (Ascii.eqb c "O") && negb (Ascii.eqb c "P") && negb (Ascii.eqb c "A")
  && negb (Ascii.eqb c "U").

(** No [a] of [s] is followed by [b], and [s] does not end in [a]. *)
Fixpoint no_pair (a b : ascii) (s : string) : bool :=
  match s with
  | EmptyString => true
  | String c s' =>
      (if Ascii.eqb c a
       then match s' with
            | String d _ => negb (Ascii.eqb d b)
            | EmptyString => false
            end
       else true) && no_pair a b s'
  end.

(** None of the capitals O, P and U. *)
Definition no_OPU (c : ascii) : bool :=
  negb (Ascii.eqb c "O") && negb (Ascii.eqb c "P") && negb (Ascii.eqb c "U").

(** [p] holds of a character and of its lowercase form alike. *)
Definition case_blind_class (p : ascii -> bool) : bool :=
  forallb (fun c => Bool.eqb (p (Py.lower_char c)) (p c)) all_ascii.

(** Every character class of the pattern is blind to the case of letters,
    as under IGNORECASE. *)
Fixpoint case_blind (r : regex) : bool :=
  match r with
  | Chr p | Star _ p => case_blind_class p
  | Seq r1 r2 | Alt r1 r2 => case_blind r1 && case_blind r2
  | Grp _ r1 | NotAhead r1 => case_blind r1
  | Eps | WordB | Bos | Eos => true
  end.

(** ** Relations between a text and its lowercase form *)

Definition low_prev (prev : option ascii) : option ascii := option_map Py.lower_char prev.

(** Two attempts fail together or end at the same place. *)
Definition res_low (r' r : option result) : Prop :=
  match r', r with
  | None, None => True
  | Some (p', s', _), Some (p, s, _) => p' = low_prev p /\ s' = Py.lower s
  | _, _ => False
  end.

(** Two searches fail together or find the same span. *)
Definition match_low (o' o : option match_obj) : Prop :=
  match o', o with
  | None, None => True
  | Some mo', Some mo =>
      before mo' = Py.lower (before mo) /\ group0 mo' = Py.lower (group0 mo)
      /\ after mo' = Py.lower (after mo)
  | _, _ => False
  end.

(** The same issue, up to the case of the text quoted by an unsafe-pattern
    issue. *)
Definition same_issue (issue' issue : string) : Prop :=
  issue' = issue
  \/ exists matched,
       issue = msg_unsafe (Py.strip matched)
       /\ issue' = msg_unsafe (Py.strip (Py.lower matched)).

(** The last character of a text, if any. *)
Fixpoint last_char (s : string) : option ascii :=
  match s with
  | EmptyString => None
  | String c s' => match last_char s' with Some d => Some d | None => Some c end
  end.

(** ** What a pattern matches *)

(** The character before the position reached by reading [w]. *)
Definition last_or (prev : option ascii) (w : string) : option ascii :=
  match last_char w with Some c => Some c | None => prev end.

(** [matches r prev s prev' s']: at the position with [prev] before it and
    [s] after it, the pattern [r] has a match that leaves [prev'] before
    and [s'] after the position it ends at. *)
Fixpoint matches (r : regex) (prev : option ascii) (s : string)
    (prev' : option ascii) (s' : string) : Prop :=
  match r with
  | Eps => prev' = prev /\ s' = s
  | Chr p => exists c, s = String c s' /\ p c = true /\ prev' = Some c
  | Seq r1 r2 => exists p1 s1, matches r1 prev s p1 s1 /\ matches r2 p1 s1 prev' s'
  | Alt r1 r2 => matches r1 prev s prev' s' \/ matches r2 prev s prev' s'
  | Star _ p =>
      exists w, s = w +:+ s' /\ Py.all_chars p w = true /\ prev' = last_or prev w
  | Grp _ r1 => matches r1 prev s prev' s'
  | WordB => xorb (word_before prev) (word_after s) = true /\ prev' = prev /\ s' = s
  | Bos => prev = None /\ prev' = prev /\ s' = s
  | Eos => at_end s = true /\ prev' = prev /\ s' = s
  | NotAhead r1 => ~ (exists p1 s1, matches r1 prev s p1 s1) /\ prev' = prev /\ s' = s
  end.

(** A pattern without assertions reads exactly the texts of [L]. *)
Definition reads (r : regex) (L : string -> Prop) : Prop :=
  forall prev s prev' s',
    matches r prev s prev' s' <-> exists w, L w /\ s = w +:+ s' /\ prev' = last_or prev w.

(** [s.isascii()] *)
Definition isascii (s : string) : bool :=
  Py.all_chars (fun c => (N_of_ascii c <? 128)%N) s.

(** ** The projected columns that lines 213-214 let through, by their text *)

(** A non-empty run of word characters, a run of white space, and a keyword
    in any mix of upper and lower case. *)
Definition identifier (w : string) : Prop := w <> "" /\ Py.all_chars Py.isword w = true.
Definition blanks (w : string) : Prop := Py.all_chars Py.isspace w = true.
Definition spelt (keyword w : string) : Prop := Py.lower w = Py.lower keyword.

Definition digit_run (c : string) : Prop :=
  c <> "" /\ Py.all_chars Py.isdigit_char c = true.

Definition aggregate_name (f : string) : Prop :=
  exists keyword, keyword ∈ ["COUNT"; "SUM"; "AVG"; "MIN"; "MAX"] /\ spelt keyword f.

(** The star, an identifier, or DISTINCT, white space and an identifier. *)
Definition aggregate_argument (a : string) : Prop :=
  a = "*" \/ identifier a
  \/ exists d b x, a = d +:+ b +:+ x
       /\ spelt "DISTINCT" d /\ b <> "" /\ blanks b /\ identifier x.

(** An aggregate call, from its name to its closing parenthesis. *)
Definition aggregate_call_text (t : string) : Prop :=
  exists f b1 b2 a b3,
    t = f +:+ b1 +:+ "(" +:+ b2 +:+ a +:+ b3 +:+ ")"
    /\ aggregate_name f /\ blanks b1 /\ blanks b2 /\ aggregate_argument a /\ blanks b3.

(** The column begins with an aggregate call; anything may follow it. *)
Definition begins_with_aggregate_call (c : string) : Prop :=
  exists t rest, c = t +:+ rest /\ aggregate_call_text t.

(** A call without argument, from its name to its closing parenthesis. *)
Definition bare_call_text (t : string) : Prop :=
  exists f b, t = f +:+ "(" +:+ b +:+ ")" /\ identifier f /\ blanks b.

(** The column is a call without argument, possibly followed by one newline. *)
Definition bare_call (c : string) : Prop :=
  bare_call_text c \/ exists t, c = t +:+ nl /\ bare_call_text t.

Definition let_through (c : string) : Prop :=
  digit_run c \/ c = "*" \/ begins_with_aggregate_call c \/ bare_call c.

(** The kinds of column of the no-table rule as the specification words
    them: a numeric literal (an optional sign, digits and an optional
    fraction), the star, an aggregate call and a call without argument. *)
Definition numeric_literal_text (c : string) : Prop :=
  exists sign whole fraction,
    c = sign +:+ whole +:+ fraction
    /\ (sign = "" \/ sign = "-" \/ sign = "+")
    /\ digit_run whole
    /\ (fraction = "" \/ exists d, fraction = "." +:+ d /\ digit_run d).

Definition specified_simple_column (c : string) : Prop :=
  numeric_literal_text c \/ c = "*" \/ aggregate_call_text c \/ bare_call_text c.

(** Each item of an explicit list passes a test that evaluates to an equation. *)
Ltac forall_by_computation :=
  repeat (apply List.Forall_cons; [vm_compute; reflexivity|]); apply List.Forall_nil.

(** ** Lemmas on the string primitives *)

Lemma forall_ascii (p : ascii -> bool) :
  forallb p all_ascii = true -> forall c, p c = true.
Proof.
  intros H c. rewrite forallb_forall in H. apply H.
  unfold all_ascii. rewrite <- (ascii_nat_embedding c).
  apply in_map, in_seq. pose proof (nat_ascii_bounded c). lia.
Qed.

Lemma subclass_spec p q : subclass p q = true -> forall c, p c = true -> q c = true.
Proof.
  intros H c Hp. pose proof (forall_ascii _ H c) as Hc. simpl in Hc.
  rewrite Hp in Hc. exact Hc.
Qed.

Lemma append_cons c (a b : string) : String c a +:+ b = String c (a +:+ b).
Proof. reflexivity. Qed.

Lemma append_nil_l (s : string) : "" +:+ s = s.
Proof. reflexivity. Qed.

Lemma append_nil_r (s : string) : s +:+ "" = s.
Proof.
  induction s as [|c s IH]; [reflexivity|]. rewrite append_cons. now f_equal.
Qed.

Lemma append_assoc (a b c : string) : (a +:+ b) +:+ c = a +:+ (b +:+ c).
Proof.
  induction a as [|d a IH]; [reflexivity|]. rewrite !append_cons. now f_equal.
Qed.

Lemma length_append (a b : string) :
  String.length (a +:+ b) = (String.length a + String.length b)%nat.
Proof.
  induction a as [|d a IH]; [reflexivity|]. rewrite append_cons. simpl. now f_equal.
Qed.

Lemma all_chars_app p a b :
  Py.all_chars p (a +:+ b) = Py.all_chars p a && Py.all_chars p b.
Proof.
  induction a as [|c a IH]; [reflexivity|]. rewrite append_cons. simpl.
  rewrite IH. now rewrite andb_assoc.
Qed.

Lemma all_chars_mono (p q : ascii -> bool) s :
  (forall c, p c = true -> q c = true) ->
  Py.all_chars p s = true -> Py.all_chars q s = true.
Proof.
  intros Hpq. induction s as [|c s IH]; simpl; [reflexivity|].
  intros [Hc Hs]%andb_true_iff. rewrite (Hpq _ Hc). now apply IH.
Qed.

Lemma take_length_app (w rest : string) :
  Py.take (String.length w) (w +:+ rest) = w.
Proof.
  induction w as [|c w IH]; [now destruct rest|].
  rewrite append_cons. simpl. now f_equal.
Qed.

Lemma take_app (w rest : string) :
  Py.take (String.length (w +:+ rest) - String.length rest) (w +:+ rest) = w.
Proof.
  rewrite length_append.
  replace (String.length w + String.length rest - String.length rest)%nat
    with (String.length w) by lia.
  apply take_length_app.
Qed.

Lemma lower_char_not_upper c : not_upper (Py.lower_char c) = true.
Proof. revert c. apply forall_ascii. vm_compute. reflexivity. Qed.

Lemma lower_lowercase s : lowercase (Py.lower s).
Proof.
  unfold lowercase. induction s as [|c s IH]; simpl; [reflexivity|].
  now rewrite lower_char_not_upper, IH.
Qed.

Lemma lower_char_id c : not_upper c = true -> Py.lower_char c = c.
Proof.
  unfold not_upper, Py.lower_char. now destruct (Py.isupper c).
Qed.

Lemma lower_id s : lowercase s -> Py.lower s = s.
Proof.
  unfold lowercase. induction s as [|c s IH]; simpl; [reflexivity|].
  intros [Hc Hs]%andb_true_iff. now rewrite lower_char_id, IH.
Qed.

Lemma lower_idem s : Py.lower (Py.lower s) = Py.lower s.
Proof. apply lower_id, lower_lowercase. Qed.

Lemma lstrip_chars p s : Py.all_chars p s = true -> Py.all_chars p (Py.lstrip s) = true.
Proof.
  induction s as [|c s IH]; simpl; [reflexivity|].
  intros H. destruct (Py.isspace c); [|exact H].
  apply andb_true_iff in H as [_ H]. now apply IH.
Qed.

Lemma rstrip_chars p s : Py.all_chars p s = true -> Py.all_chars p (Py.rstrip s) = true.
Proof.
  induction s as [|c s IH]; simpl; [reflexivity|].
  intros [Hc Hs]%andb_true_iff. specialize (IH Hs).
  destruct (Py.rstrip s) as [|d r].
  - destruct (Py.isspace c); simpl; [reflexivity | now rewrite Hc].
  - simpl in *. now rewrite Hc, IH.
Qed.

Lemma strip_chars p s : Py.all_chars p s = true -> Py.all_chars p (Py.strip s) = true.
Proof. intros H. apply rstrip_chars, lstrip_chars, H. Qed.

(** ** Lemmas on the matcher *)

Lemma star_greedy_chars (q p : ascii -> bool) :
  (forall c, p c = true -> q c = true) ->
  forall s prev k res, star_greedy p prev s k = Some res ->
  exists prev' w s', s = w +:+ s' /\ Py.all_chars q w = true /\ k prev' s' = Some res.
Proof.
  intros Hpq. induction s as [|c s IH]; intros prev k res H; simpl in H.
  - exists prev, "", "". auto.
  - destruct (p c) eqn:Hp.
    + destruct (star_greedy p (Some c) s k) as [r0|] eqn:E; simpl in H.
      * apply IH in E as (prev' & w & s' & -> & Hw & Hk).
        exists prev', (String c w), s'. repeat split.
        -- simpl. now rewrite (Hpq _ Hp), Hw.
        -- congruence.
      * exists prev, "", (String c s). auto.
    + exists prev, "", (String c s). auto.
Qed.

Lemma star_lazy_chars (q p : ascii -> bool) :
  (forall c, p c = true -> q c = true) ->
  forall s prev k res, star_lazy p prev s k = Some res ->
  exists prev' w s', s = w +:+ s' /\ Py.all_chars q w = true /\ k prev' s' = Some res.
Proof.
  intros Hpq. induction s as [|c s IH]; intros prev k res H; simpl in H.
  - destruct (k prev "") eqn:E; [|discriminate].
    exists prev, "", "". repeat split; congruence.
  - destruct (k prev (String c s)) eqn:E.
    + exists prev, "", (String c s). repeat split; congruence.
    + destruct (p c) eqn:Hp; [|discriminate].
      apply IH in H as (prev' & w & s' & -> & Hw & Hk).
      exists prev', (String c w), s'. repeat split; [|exact Hk].
      simpl. now rewrite (Hpq _ Hp), Hw.
Qed.

Lemma m_chars (q : ascii -> bool) (r : regex) :
  chars_within q r = true ->
  forall prev s cs k res, m r prev s cs k = Some res ->
  exists prev' w s' cs',
    s = w +:+ s' /\ Py.all_chars q w = true /\ k prev' s' cs' = Some res.
Proof.
  induction r as [|p|r1 IH1 r2 IH2|r1 IH1 r2 IH2|g p|n r1 IH1| | | |r1 IH1];
    simpl; intros Hq prev s cs k res H.
  - exists prev, "", s, cs. auto.
  - destruct s as [|c s]; [discriminate|].
    destruct (p c) eqn:Hp; [|discriminate].
    exists (Some c), (String c ""), s, cs. repeat split; [|exact H].
    simpl. now rewrite (subclass_spec _ _ Hq _ Hp).
  - apply andb_true_iff in Hq as [Hq1 Hq2].
    apply (IH1 Hq1) in H as (p1 & w1 & s1 & cs1 & -> & Hw1 & H).
    apply (IH2 Hq2) in H as (p2 & w2 & s2 & cs2 & -> & Hw2 & H).
    exists p2, (w1 +:+ w2), s2, cs2. split; [|split; [|exact H]].
    + now rewrite append_assoc.
    + now rewrite all_chars_app, Hw1, Hw2.
  - apply andb_true_iff in Hq as [Hq1 Hq2].
    destruct (m r1 prev s cs k) eqn:E; simpl in H.
    + rewrite H in E. now apply (IH1 Hq1) in E.
    + now apply (IH2 Hq2) in H.
  - destruct g.
    + apply (star_greedy_chars q p (subclass_spec _ _ Hq)) in H
        as (prev' & w & s' & -> & Hw & H).
      now exists prev', w, s', cs.
    + apply (star_lazy_chars q p (subclass_spec _ _ Hq)) in H
        as (prev' & w & s' & -> & Hw & H).
      now exists prev', w, s', cs.
  - apply (IH1 Hq) in H as (p1 & w1 & s1 & cs1 & Hs & Hw1 & H).
    eexists p1, w1, s1, _. split; [exact Hs|]. split; [exact Hw1|exact H].
  - destruct (xorb _ _); [|discriminate]. exists prev, "", s, cs. auto.
  - destruct prev; [discriminate|]. exists None, "", s, cs. auto.
  - destruct (at_end s); [|discriminate]. exists prev, "", s, cs. auto.
  - destruct (m r1 prev s cs _); [discriminate|]. exists prev, "", s, cs. auto.
Qed.

Lemma attempt_chars (q : ascii -> bool) (r : regex) adv prev s prev' rest cs :
  chars_within q r = true ->
  attempt r adv prev s = Some (prev', rest, cs) ->
  exists w, s = w +:+ rest /\ Py.all_chars q w = true.
Proof.
  intros Hq H. unfold attempt in H.
  apply (m_chars q r Hq) in H as (p1 & w & s1 & cs1 & -> & Hw & H).
  destruct (adv && _); [discriminate|]. injection H as -> -> ->.
  now exists w.
Qed.

Lemma obj_of_chars (q : ascii -> bool) (r : regex) adv prev pre s res :
  chars_within q r = true ->
  attempt r adv prev s = Some res ->
  Py.all_chars q (group0 (obj_of pre s res)) = true.
Proof.
  intros Hq H. destruct res as [[p1 rest] cs].
  apply (attempt_chars q) in H as (w & -> & Hw); [|exact Hq].
  simpl. now rewrite take_app.
Qed.

Lemma search_from_chars (q : ascii -> bool) (r : regex) :
  chars_within q r = true ->
  forall s prev mo, search_from r prev s = Some mo ->
  Py.all_chars q (group0 mo) = true.
Proof.
  intros Hq. induction s as [|c s IH]; intros prev mo H; simpl in H.
  - destruct (attempt r false prev "") as [res|] eqn:E; [|discriminate].
    injection H as <-. now apply (obj_of_chars q r false prev).
  - destruct (attempt r false prev (String c s)) as [res|] eqn:E.
    + injection H as <-. now apply (obj_of_chars q r false prev).
    + destruct (search_from r (Some c) s) as [mo'|] eqn:E'; [|discriminate].
      injection H as <-. simpl. now apply (IH (Some c)).
Qed.

Lemma re_search_chars (q : ascii -> bool) (r : regex) s mo :
  chars_within q r = true -> re_search r s = Some mo ->
  Py.all_chars q (group0 mo) = true.
Proof. intros Hq H. now apply (search_from_chars q r Hq s None). Qed.

(** Substituting the empty text for one character class removes the class. *)
Lemma sub_loop_class (p : ascii -> bool) :
  forall s fuel adv prev, (String.length s < fuel)%nat ->
  sub_loop fuel (Chr p) "" adv prev s = remove_chars p s.
Proof.
  induction s as [|c s IH]; intros fuel adv prev Hf;
    (destruct fuel as [|fuel]; [simpl in Hf; lia|]).
  - reflexivity.
  - simpl in Hf. cbn [sub_loop attempt m remove_chars].
    destruct (p c).
    + replace (String.length s =? String.length (String c s))%nat with false
        by (symmetry; apply Nat.eqb_neq; simpl; lia).
      rewrite andb_false_r. rewrite append_nil_l. apply IH. lia.
    + f_equal. apply IH. lia.
Qed.

Lemma re_sub_class (p : ascii -> bool) s : re_sub (Chr p) "" s = remove_chars p s.
Proof. unfold re_sub. apply sub_loop_class. lia. Qed.

Lemma remove_chars_none (p : ascii -> bool) s :
  Py.all_chars (fun c => negb (p c)) (remove_chars p s) = true.
Proof.
  induction s as [|c s IH]; simpl; [reflexivity|].
  destruct (p c) eqn:Hp; [exact IH|]. simpl. now rewrite Hp, IH.
Qed.

Lemma remove_chars_keeps (q p : ascii -> bool) s :
  Py.all_chars q s = true -> Py.all_chars q (remove_chars p s) = true.
Proof.
  induction s as [|c s IH]; simpl; [reflexivity|].
  intros [Hc Hs]%andb_true_iff. destruct (p c); [now apply IH|].
  simpl. now rewrite Hc, IH.
Qed.

Lemma lower_chars (q : ascii -> bool) s :
  (forall c, q c = true -> q (Py.lower_char c) = true) ->
  Py.all_chars q s = true -> Py.all_chars q (Py.lower s) = true.
Proof.
  intros Hq. induction s as [|c s IH]; simpl; [reflexivity|].
  intros [Hc Hs]%andb_true_iff. now rewrite (Hq _ Hc), IH.
Qed.

Lemma has_char_all_chars c s :
  Py.has_char c s = false <-> Py.all_chars (fun d => negb (Ascii.eqb d c)) s = true.
Proof.
  induction s as [|d s IH]; simpl; [tauto|].
  rewrite orb_false_iff, andb_true_iff, IH, negb_true_iff. tauto.
Qed.

Lemma last_cons_cons (x y : string) l d : List.last (x :: y :: l) d = List.last (y :: l) d.
Proof. reflexivity. Qed.

(** The last piece of a split holds no separator. *)
Lemma split_last_no_sep sep s :
  Py.has_char sep (Py.last_item (Py.split sep s)) = false.
Proof.
  unfold Py.last_item. induction s as [|c s IH]; [reflexivity|].
  simpl. destruct (Ascii.eqb c sep) eqn:Hc.
  - destruct (Py.split sep s) as [|h t] eqn:E; [reflexivity|]. exact IH.
  - destruct (Py.split sep s) as [|h t] eqn:E.
    + simpl. now rewrite Hc.
    + destruct t as [|h' t'].
      * simpl in *. now rewrite Hc, IH.
      * exact IH.
Qed.

(** ** The matcher on texts of the program *)

Example join_pattern_takes_on_for_alias :
  option_map (fun mo => (group0 mo, after mo))
    (re_search re_join_pattern "SELECT a.id FROM t1 JOIN t2 ON t1.id = t2.id")
  = Some ("JOIN t2 ON", " t1.id = t2.id").
Proof. vm_compute. reflexivity. Qed.

Example join_pattern_gives_alias_back :
  option_map (fun mo => (group0 mo, after mo))
    (re_search re_join_pattern "SELECT a.id FROM t1 a JOIN t2 b ON a.id = b.id")
  = Some ("JOIN t2", " b ON a.id = b.id").
Proof. vm_compute. reflexivity. Qed.

Example semicolon_pattern_examples :
  map rule_semicolon ["SELECT 1;"; "SELECT 1; "; "SELECT 1; -- c; d"; "a;b"]
  = [false; false; true; true].
Proof. vm_compute. reflexivity. Qed.

Example sub_split_examples :
  re_sub re_call_wrapper "" "UPPER(name)" = "name"
  /\ re_split re_comma "a,  b,c" = ["a"; "b"; "c"]
  /\ re_split re_dot "c.id" = ["c"; "id"].
Proof. repeat split; vm_compute; reflexivity. Qed.

Example view_select_group :
  option_map (group_str 1)
    (re_search re_view_select "CREATE VIEW v AS (SELECT c.id, c.name AS full_name FROM c)")
  = Some "c.id, c.name AS full_name ".
Proof. vm_compute. reflexivity. Qed.

Example column_list_group :
  option_map (group_str 1)
    (re_search re_column_list
       "CREATE TABLE customers(customer_id INT, first_name VARCHAR(50), email VARCHAR(100))")
  = Some "customer_id INT, first_name VARCHAR(50), email VARCHAR(100)".
Proof. vm_compute. reflexivity. Qed.

Example simple_column_examples :
  map simple_column_ok
    ["12"; "*"; "COUNT(*)"; "count( DISTINCT x )"; "now()"; "foo"; "SUM(a) + b"; "1.5"; ""]
  = [true; true; true; true; true; false; true; false; false].
Proof. vm_compute. reflexivity. Qed.

Example split_columns_example :
  split_columns "a INT, b DECIMAL(10, 2), PRIMARY KEY (a, b)"
  = ["a INT"; "b DECIMAL(10, 2)"; "PRIMARY KEY (a, b)"].
Proof. vm_compute. reflexivity. Qed.

(** ** Lemmas on the schema extractor *)

Lemma table_name_of_lowercase g : lowercase (table_name_of g).
Proof. apply lower_lowercase. Qed.

Lemma table_name_of_quote_free g : quote_free (table_name_of g).
Proof.
  unfold quote_free, table_name_of, re_quotes. rewrite re_sub_class.
  apply lower_chars; [|apply remove_chars_none].
  apply (subclass_spec _ (fun c => negb (quote_char (Py.lower_char c)))).
  vm_compute. reflexivity.
Qed.

Lemma table_name_of_unqualified g : unqualified (table_name_of g).
Proof.
  unfold unqualified, table_name_of, re_quotes. rewrite re_sub_class.
  apply has_char_all_chars. apply lower_chars.
  - apply (subclass_spec _ (fun c => negb (Ascii.eqb (Py.lower_char c) "."))).
    vm_compute. reflexivity.
  - apply remove_chars_keeps. apply has_char_all_chars.
    destruct (Py.has_char "." g) eqn:E; [apply split_last_no_sep | exact E].
Qed.

Lemma columns_ok_start : columns_ok ["*"].
Proof.
  split; [now exists []|]. split.
  - repeat constructor.
  - apply NoDup_singleton.
Qed.

Lemma columns_ok_snoc v x :
  columns_ok v -> lowercase x -> x ∉ v -> columns_ok (v ++ [x]).
Proof.
  intros ([rest ->] & Hl & Hd) Hx Hnin. split; [now exists (rest ++ [x])|]. split.
  - apply Forall_app. split; [exact Hl|]. now constructor.
  - apply NoDup_app. split; [exact Hd|]. split; [|apply NoDup_singleton].
    intros y Hy ->%list_elem_of_singleton. now apply Hnin.
Qed.

Lemma add_view_column_ok v col : columns_ok v -> columns_ok (add_view_column v col).
Proof.
  intros Hv. unfold add_view_column, str_in.
  destruct (negb (is_empty_str (view_column_name col))); [|exact Hv].
  destruct (bool_decide _) eqn:E; [exact Hv|]. simpl.
  destruct (negb (String.eqb _ "*")); [|exact Hv].
  apply columns_ok_snoc; [exact Hv|apply lower_lowercase|].
  now apply bool_decide_eq_false in E.
Qed.

Lemma add_table_column_ok v col_def : columns_ok v -> columns_ok (add_table_column v col_def).
Proof.
  intros Hv. unfold add_table_column, str_in.
  destruct (found _); [exact Hv|].
  destruct (re_match re_first_ident col_def) as [mo|]; [|exact Hv].
  destruct (bool_decide _) eqn:E; [exact Hv|].
  apply columns_ok_snoc; [exact Hv|apply lower_lowercase|].
  now apply bool_decide_eq_false in E.
Qed.

Lemma fold_left_preserves {A B : Type} (P : A -> Prop) (f : A -> B -> A) :
  (forall a b, P a -> P (f a b)) ->
  forall l a, P a -> P (fold_left f l a).
Proof.
  intros Hf. induction l as [|b l IH]; intros a Ha; simpl; [exact Ha|].
  apply IH, Hf, Ha.
Qed.

Lemma columns_of_statement_ok statement : columns_ok (columns_of_statement statement).
Proof.
  unfold columns_of_statement.
  destruct (re_search re_view_select statement) as [mo|].
  - apply fold_left_preserves; [apply add_view_column_ok|apply columns_ok_start].
  - destruct (re_search re_column_list statement) as [mo|]; [|apply columns_ok_start].
    apply fold_left_preserves; [apply add_table_column_ok|apply columns_ok_start].
Qed.

Lemma process_statement_ok (mapping : gmap string (list string)) statement :
  map_Forall entry_ok mapping -> map_Forall entry_ok (process_statement mapping statement).
Proof.
  intros Hm. unfold process_statement.
  destruct (is_empty_str _); [exact Hm|].
  destruct (re_match re_create _) as [mo|]; [|exact Hm].
  destruct (1 <? _)%nat eqn:Hlen; [|exact Hm].
  apply map_Forall_insert_2; [|exact Hm].
  apply Nat.ltb_lt in Hlen.
  repeat split.
  - apply table_name_of_lowercase.
  - apply table_name_of_quote_free.
  - apply table_name_of_unqualified.
  - apply columns_of_statement_ok.
  - apply columns_of_statement_ok.
  - apply columns_of_statement_ok.
  - lia.
Qed.

(** ** The schema extractor: claims C6 and C10 *)

(** C6: on [CREATE VIEW v AS (SELECT c.id, c.name AS full_name FROM c);] the
    extractor returns exactly the mapping with the one entry
    [v -> ['*', 'id', 'full_name']]: the expression [c.id] gives its last
    dot-qualified segment, the expression [c.name AS full_name] gives its
    alias, a quoted mixed-case alias is stripped of its quotes and lowercased,
    and a name met twice is kept once, at its first place after ['*']. *)
Theorem C6_view_mapping :
  generate_table_mapping_from_create_statements
    "CREATE VIEW v AS (SELECT c.id, c.name AS full_name FROM c);"
  = {[ "v" := ["*"; "id"; "full_name"] ]}
  /\ view_column_name "c.id" = "id"
  /\ view_column_name "c.name AS full_name" = "full_name"
  /\ view_column_name "c.name AS [Full_Name]" = "full_name"
  /\ fold_left add_view_column ["c.id"; "d.name AS x"; "e.ID"; "*"] ["*"] = ["*"; "id"; "x"].
Proof. repeat split; vm_compute; reflexivity. Qed.

(** C10: every entry of the mapping returned by the extractor has a key that
    is lowercase, free of quoting characters and without a dot, and a column
    list that starts with ['*'], is lowercase, has no duplicate and has at
    least two items. *)
Theorem C10_mapping_entries (create_statements k : string) (v : list string) :
  generate_table_mapping_from_create_statements create_statements !! k = Some v ->
  lowercase k /\ quote_free k /\ unqualified k /\
  head v = Some "*" /\ Forall lowercase v /\ NoDup v /\ (2 <= length v)%nat.
Proof.
  intros H.
  assert (Hall : map_Forall entry_ok
            (generate_table_mapping_from_create_statements create_statements)).
  { unfold generate_table_mapping_from_create_statements.
    apply fold_left_preserves; [apply process_statement_ok|apply map_Forall_empty]. }
  destruct (Hall k v H) as (Hk1 & Hk2 & Hk3 & ([rest ->] & Hl & Hd) & Hlen).
  repeat split; assumption.
Qed.

Lemma C10_mapping_entries_witness :
  lowercase "customers" /\ quote_free "customers" /\ unqualified "customers" /\
  head ["*"; "customer_id"; "first_name"; "email"] = Some "*" /\
  Forall lowercase ["*"; "customer_id"; "first_name"; "email"] /\
  NoDup ["*"; "customer_id"; "first_name"; "email"] /\
  (2 <= length ["*"; "customer_id"; "first_name"; "email"])%nat.
Proof.
  apply (C10_mapping_entries
           "CREATE TABLE customers(customer_id INT, first_name VARCHAR(50), email VARCHAR(100));").
  vm_compute. reflexivity.
Defined.

(** ** Lemmas on the conformance checker *)

Lemma list_set_elem x l : x ∈ list_set l <-> x ∈ l.
Proof. unfold list_set. rewrite elem_of_elements. apply elem_of_list_to_set. Qed.

Lemma list_set_NoDup l : NoDup (list_set l).
Proof. unfold list_set. apply NoDup_elements. Qed.

Lemma list_set_nil : list_set [] = [].
Proof. unfold list_set. simpl. apply elements_empty. Qed.

Lemma sorted_elem x l : x ∈ Py.sorted l <-> x ∈ l.
Proof. unfold Py.sorted. now rewrite merge_sort_Permutation. Qed.

Lemma sorted_NoDup l : NoDup l -> NoDup (Py.sorted l).
Proof. unfold Py.sorted. now rewrite merge_sort_Permutation. Qed.

Lemma sorted_StronglySorted l : StronglySorted String.le (Py.sorted l).
Proof. apply StronglySorted_merge_sort; apply _. Qed.

Lemma fold_table_step_known schema :
  forall l valid unk,
  Forall (fun t => is_Some (schema !! t)) l ->
  snd (fold_left (table_step schema) l (valid, unk)) = unk.
Proof.
  induction l as [|t l IH]; intros valid unk Hl; [reflexivity|].
  apply Forall_cons in Hl as [[cols Ht] Hl]. simpl. rewrite Ht. now apply IH.
Qed.

Lemma base_tables_known schema ts :
  Forall (fun t => is_Some (schema !! t)) (base_tables schema ts).
Proof.
  apply Forall_forall. intros t Ht. apply list_elem_of_In in Ht.
  apply filter_In in Ht as [_ Ht]. apply bool_decide_eq_true in Ht.
  now apply elem_of_dom in Ht.
Qed.

Lemma map_lower_id l : Forall lowercase l -> map Py.lower l = l.
Proof.
  induction 1 as [|x l Hx Hl IH]; simpl; [reflexivity|].
  now rewrite (lower_id x Hx), IH.
Qed.

Lemma Forall_filter_bool {A} (P : A -> Prop) (f : A -> bool) l :
  Forall P l -> Forall P (List.filter f l).
Proof.
  induction 1 as [|x l Hx Hl IH]; simpl; [constructor|].
  destruct (f x); [now constructor|exact IH].
Qed.

Lemma map_lower_lowercase l : Forall lowercase (map Py.lower l).
Proof. induction l; simpl; constructor; [apply lower_lowercase|assumption]. Qed.

Lemma base_tables_lowercase schema ts : Forall lowercase (base_tables schema ts).
Proof. apply Forall_filter_bool, map_lower_lowercase. Qed.

(** On the tables it is handed by [query_validator], [validate_columns] never
    takes its unknown-table branch. *)
Lemma validate_columns_base schema ts cleaned :
  validate_columns (base_tables schema ts) cleaned schema =
  match List.filter (is_invalid (valid_columns schema (base_tables schema ts))) cleaned with
  | [] => (true, [])
  | invalid_columns =>
      (false, [msg_invalid_columns invalid_columns (base_tables schema ts)])
  end.
Proof.
  unfold validate_columns, valid_columns.
  rewrite (map_lower_id _ (base_tables_lowercase schema ts)).
  pose proof (fold_table_step_known schema (base_tables schema ts) {["*"]} []
                (base_tables_known schema ts)) as Hu.
  destruct (fold_left _ _ _) as [valid unk]. simpl in Hu. subst unk. simpl.
  change (fun col => negb (bool_decide (col ∈ valid)) && negb (String.eqb col "*"))
    with (is_invalid valid).
  now destruct (List.filter (is_invalid valid) cleaned).
Qed.

Lemma validate_body_parsed Parser query schema ts cs ws al :
  Parser query = parsed ts cs ws al ->
  validate_body Parser query schema =
  if bool_decide (map Py.lower ts = []) && bool_decide (ws = [])
  then Returns (if forallb simple_column_ok cs then query else msg_no_table)
  else
    let cleaned := check_and_clean_columns cs (negb (bool_decide (ws = [])))
                     (known_aliases (dom schema) al) (dom schema) in
    match List.filter (is_invalid (valid_columns schema (base_tables schema ts))) cleaned with
    | [] => Returns query
    | invalid_columns =>
        Returns ("Validation Error: "
                 +:+ msg_invalid_columns invalid_columns (base_tables schema ts))
    end.
Proof.
  intros HP. unfold validate_body. rewrite HP. unfold parsed. cbn [tables columns with_names tables_aliases mbind outcome_bind].
  rewrite negb_involutive.
  destruct (bool_decide (map Py.lower ts = []) && bool_decide (ws = [])).
  - now destruct (forallb simple_column_ok cs).
  - fold (base_tables schema ts). rewrite validate_columns_base.
    cbv zeta. destruct (List.filter _ _); [reflexivity|].
    cbn [Py.join String.concat]. reflexivity.
Qed.

(** The order in which [list(set(...))] lists its items does not matter to
    [validate_columns]: the message sorts what it shows. *)
Lemma filter_bool_Permutation {A} (f : A -> bool) (l1 l2 : list A) :
  l1 ≡ₚ l2 -> List.filter f l1 ≡ₚ List.filter f l2.
Proof.
  induction 1 as [|x l1 l2 H IH|x y l|l1 l2 l3 H1 IH1 H2 IH2]; simpl.
  - reflexivity.
  - destruct (f x); [now constructor|exact IH].
  - destruct (f x), (f y); try reflexivity. apply perm_swap.
  - now transitivity (List.filter f l2).
Qed.

Lemma sorted_set_order l1 l2 :
  l1 ≡ₚ l2 -> Py.sorted (list_set l1) = Py.sorted (list_set l2).
Proof.
  intros H. apply (Sorted_unique String.le).
  - apply Sorted_merge_sort. apply _.
  - apply Sorted_merge_sort. apply _.
  - unfold Py.sorted. rewrite !merge_sort_Permutation.
    apply NoDup_Permutation; [apply list_set_NoDup|apply list_set_NoDup|].
    intros x. rewrite !list_set_elem. now rewrite H.
Qed.

Lemma validate_columns_order ts cleaned1 cleaned2 schema :
  cleaned1 ≡ₚ cleaned2 ->
  validate_columns ts cleaned1 schema = validate_columns ts cleaned2 schema.
Proof.
  intros H. unfold validate_columns.
  destruct (fold_left _ _ _) as [valid unk]. destruct unk; [|reflexivity].
  pose proof (filter_bool_Permutation
                (fun col => negb (bool_decide (col ∈ valid)) && negb (String.eqb col "*"))
                _ _ H) as Hf.
  destruct (List.filter _ cleaned1) as [|c1 inv1] eqn:E1;
    destruct (List.filter _ cleaned2) as [|c2 inv2] eqn:E2.
  - reflexivity.
  - now apply Permutation_nil_cons in Hf.
  - symmetry in Hf. now apply Permutation_nil_cons in Hf.
  - unfold msg_invalid_columns. now rewrite (sorted_set_order _ _ Hf).
Qed.

(** ** Lemmas on the validator *)

Lemma found_is_Some (o : option match_obj) : found o = true <-> is_Some o.
Proof.
  destruct o; simpl; split; intros H; try reflexivity; try discriminate.
  - now eexists.
  - now destruct H.
Qed.

Lemma simple_column_ok_spec c : simple_column_ok c = true <-> simple_column c.
Proof.
  unfold simple_column_ok, simple_column, numeric_literal, aggregate_call,
    zero_argument_call.
  rewrite !orb_true_iff, String.eqb_eq, !found_is_Some. tauto.
Qed.


Lemma query_validator_passed Parser query schema :
  inspect_query query = query ->
  query_validator Parser query schema = handler (validate_body Parser query schema).
Proof. intros H. unfold query_validator. now rewrite H, String.eqb_refl. Qed.

Lemma query_validator_issues Parser query schema :
  inspect_query query <> query ->
  query_validator Parser query schema = inspect_query query.
Proof.
  intros H. unfold query_validator.
  destruct (String.eqb_spec (inspect_query query) query); [contradiction|reflexivity].
Qed.

(** A query that passes the inspection is not the no-table message. *)
Lemma passed_not_msg_no_table query : inspect_query query = query -> query <> msg_no_table.
Proof.
  intros H ->. revert H. vm_compute. discriminate.
Qed.

(** ** The validator: claims C1 and C8 *)

Lemma clean_step_star ctes kp cleaned : clean_step ctes kp cleaned "*" = cleaned.
Proof.
  unfold clean_step.
  replace (found (re_match agg_pattern "*")) with false by (vm_compute; reflexivity).
  now destruct ctes.
Qed.

(** C1 fails on the code: [SELECT * FROM inventory;] is returned unchanged
    whatever the schema mapping is, in particular against the schema of
    scenario 1, which has no table [inventory]. *)
Theorem C1_undefined_table_accepted :
  (forall schema : gmap string (list string),
     query_validator (fun _ => parsed ["inventory"] ["*"] [] [])
       "SELECT * FROM inventory;" schema = "SELECT * FROM inventory;")
  /\ generate_table_mapping_from_create_statements
       "CREATE TABLE customers(customer_id INT, first_name VARCHAR(50), email VARCHAR(100));"
     !! "inventory" = None.
Proof.
  split; [|vm_compute; reflexivity].
  intros schema.
  rewrite query_validator_passed by (vm_compute; reflexivity).
  rewrite (validate_body_parsed _ _ _ ["inventory"] ["*"] [] []) by reflexivity.
  cbn [map]. rewrite (bool_decide_eq_false_2 (_ = [])) by discriminate.
  cbn [andb]. cbv zeta. unfold check_and_clean_columns. cbn [fold_left].
  rewrite clean_step_star, list_set_nil. reflexivity.
Qed.

Lemma clean_step_plain kp cleaned col :
  found (re_match agg_pattern col) = false ->
  Py.has_char "." col = false -> col <> "*" ->
  clean_step false kp cleaned col = cleaned ++ [Py.lower col].
Proof.
  intros Ha Hd Hs. unfold clean_step. rewrite Ha, Hd.
  now destruct (String.eqb_spec col "*").
Qed.

Lemma valid_columns_one schema t cols :
  schema !! t = Some cols ->
  valid_columns schema [t] = {["*"]} ∪ list_to_set (map Py.lower cols).
Proof. intros H. unfold valid_columns. simpl. now rewrite H. Qed.

Lemma base_tables_one schema t cols :
  lowercase t -> schema !! t = Some cols -> base_tables schema [t] = [t].
Proof.
  intros Hl H. unfold base_tables. simpl. rewrite (lower_id t Hl).
  rewrite bool_decide_eq_true_2; [reflexivity|].
  apply elem_of_dom. now exists cols.
Qed.

(** What the message of line 191 shows, for the tables handed over by
    [query_validator]. *)
Lemma validate_columns_report schema ts cleaned :
  validate_columns (base_tables schema ts) cleaned schema = (true, [])
  \/ exists shown_columns shown_tables,
       validate_columns (base_tables schema ts) cleaned schema
       = (false, [("Columns [" +:+ Py.join ", " shown_columns
                   +:+ "] are not defined for the referenced tables ["
                   +:+ Py.join ", " shown_tables +:+ "]")])
       /\ StronglySorted String.le shown_columns /\ NoDup shown_columns
       /\ StronglySorted String.le shown_tables /\ NoDup shown_tables
       /\ (forall c, c ∈ shown_columns <->
             c ∈ cleaned /\ (c ∉ valid_columns schema (base_tables schema ts)) /\ c <> "*")
       /\ (forall t, t ∈ shown_tables <-> t ∈ base_tables schema ts).
Proof.
  rewrite validate_columns_base.
  destruct (List.filter _ cleaned) as [|c0 inv] eqn:E; [now left|right].
  exists (Py.sorted (list_set (c0 :: inv))), (Py.sorted (list_set (base_tables schema ts))).
  split; [reflexivity|].
  split; [apply sorted_StronglySorted|].
  split; [apply sorted_NoDup, list_set_NoDup|].
  split; [apply sorted_StronglySorted|].
  split; [apply sorted_NoDup, list_set_NoDup|].
  split.
  - intros c. rewrite sorted_elem, list_set_elem, <- E.
    rewrite list_elem_of_In, filter_In, <- list_elem_of_In.
    unfold is_invalid. rewrite andb_true_iff, !negb_true_iff, bool_decide_eq_false.
    rewrite String.eqb_neq. tauto.
  - intros t. now rewrite sorted_elem, list_set_elem.
Qed.

(** C8: against any schema mapping whose table [customers] has the column
    [customer_id] and not the column [discount_rate], the query
    [SELECT customer_id, discount_rate FROM customers;] is rejected with
    "Validation Error: Columns [discount_rate] are not defined for the
    referenced tables [customers]"; and in every rejection of that kind the
    two lists shown are sorted and duplicate-free: the offending columns and
    the referenced base tables. *)
Theorem C8_undefined_column (Parser : string -> parser)
    (schema : gmap string (list string)) (cols : list string)
    (al : list (string * string)) :
  Parser "SELECT customer_id, discount_rate FROM customers;"
  = parsed ["customers"] ["customer_id"; "discount_rate"] [] al ->
  schema !! "customers" = Some cols ->
  "customer_id" ∈ map Py.lower cols ->
  "discount_rate" ∉ map Py.lower cols ->
  query_validator Parser "SELECT customer_id, discount_rate FROM customers;" schema
  = "Validation Error: Columns [discount_rate] are not defined for the referenced tables [customers]"
  /\ forall ts cleaned,
       validate_columns (base_tables schema ts) cleaned schema = (true, [])
       \/ exists shown_columns shown_tables,
            validate_columns (base_tables schema ts) cleaned schema
            = (false, [("Columns [" +:+ Py.join ", " shown_columns
                        +:+ "] are not defined for the referenced tables ["
                        +:+ Py.join ", " shown_tables +:+ "]")])
            /\ StronglySorted String.le shown_columns /\ NoDup shown_columns
            /\ StronglySorted String.le shown_tables /\ NoDup shown_tables
            /\ (forall c, c ∈ shown_columns <->
                  c ∈ cleaned /\ (c ∉ valid_columns schema (base_tables schema ts))
                  /\ c <> "*")
            /\ (forall t, t ∈ shown_tables <-> t ∈ base_tables schema ts).
Proof.
  intros HP Hs Hin Hnin. split; [|intros ts cleaned; apply validate_columns_report].
  rewrite query_validator_passed by (vm_compute; reflexivity).
  rewrite (validate_body_parsed _ _ _ _ _ _ _ HP).
  cbn [map]. rewrite (bool_decide_eq_false_2 (_ = [])) by discriminate.
  cbn [andb]. cbv zeta.
  rewrite (base_tables_one schema "customers" cols) by (try exact Hs; vm_compute; reflexivity).
  rewrite (valid_columns_one _ _ _ Hs).
  unfold check_and_clean_columns. cbn [fold_left negb].
  rewrite bool_decide_eq_true_2 by reflexivity. cbn [negb].
  rewrite !clean_step_plain by (try discriminate; vm_compute; reflexivity).
  replace (list_set (([] ++ [Py.lower "customer_id"]) ++ [Py.lower "discount_rate"]))
    with ["customer_id"; "discount_rate"] by (vm_compute; reflexivity).
  cbn [List.filter]. unfold is_invalid.
  rewrite (bool_decide_eq_false_2 ("discount_rate" ∈ _)).
  2:{ rewrite elem_of_union, elem_of_singleton, elem_of_list_to_set.
      intros [H|H]; [discriminate|contradiction]. }
  rewrite (bool_decide_eq_true_2 ("customer_id" ∈ _)).
  2:{ rewrite elem_of_union, elem_of_list_to_set. now right. }
  cbn [negb andb]. 
  replace (String.eqb "discount_rate" "*") with false by reflexivity.
  cbn [negb]. vm_compute. reflexivity.
Qed.

Lemma C8_undefined_column_witness :
  query_validator (fun _ => parsed ["customers"] ["customer_id"; "discount_rate"] [] [])
    "SELECT customer_id, discount_rate FROM customers;" schema1
  = "Validation Error: Columns [discount_rate] are not defined for the referenced tables [customers]".
Proof.
  refine (proj1 (C8_undefined_column
                   (fun _ => parsed ["customers"] ["customer_id"; "discount_rate"] [] [])
                   schema1 ["*"; "customer_id"; "first_name"; "email"] [] _ _ _ _)).
  - reflexivity.
  - vm_compute. reflexivity.
  - apply (bool_decide_unpack _). vm_compute. exact I.
  - apply (bool_decide_unpack _). vm_compute. exact I.
Defined.

(** ** Columns of a query with CTEs: claim C9 *)

Lemma split1_spec sep s a b :
  Py.split1 sep s = Some (a, b) ->
  s = a +:+ String sep b /\ Py.has_char sep a = false.
Proof.
  revert a b. induction s as [|c s IH]; intros a b H; simpl in H; [discriminate|].
  destruct (Ascii.eqb_spec c sep) as [-> |Hne].
  - injection H as <- <-. now split.
  - destruct (Py.split1 sep s) as [[a' b']|]; [|discriminate].
    injection H as <- <-. destruct (IH a' b' eq_refl) as [-> Hn].
    split; [reflexivity|]. simpl. rewrite Hn.
    now destruct (Ascii.eqb_spec c sep).
Qed.

Lemma clean_step_cte_undotted kp cleaned col :
  Py.has_char "." col = false -> clean_step true kp cleaned col = cleaned.
Proof. intros H. unfold clean_step. rewrite H. now destruct (found _). Qed.

Lemma clean_fold_cte_filter kp cols :
  forall cleaned,
  fold_left (clean_step true kp) cols cleaned
  = fold_left (clean_step true kp) (List.filter (Py.has_char ".") cols) cleaned.
Proof.
  induction cols as [|col cols IH]; intros cleaned; [reflexivity|].
  simpl. destruct (Py.has_char "." col) eqn:E.
  - simpl. apply IH.
  - rewrite (clean_step_cte_undotted _ _ _ E). apply IH.
Qed.

Lemma clean_fold_cte_elem kp cols :
  forall cleaned x,
  x ∈ fold_left (clean_step true kp) cols cleaned ->
  x ∈ cleaned \/
  exists col prefix rest,
    col ∈ cols /\ col = prefix +:+ String "." rest /\ Py.has_char "." prefix = false
    /\ Py.lower prefix ∈ kp /\ x = Py.lower rest.
Proof.
  induction cols as [|col cols IH]; intros cleaned x H; [now left|].
  simpl in H. apply IH in H as [H|(c & p & r & Hc & H)].
  - unfold clean_step in H.
    destruct (found _); [now left|].
    destruct (Py.has_char "." col); [|now left].
    destruct (Py.split1 "." col) as [[p r]|] eqn:E; [|now left].
    destruct (bool_decide _) eqn:Hk; [|now left].
    apply elem_of_app in H as [H|H]; [now left|right].
    apply list_elem_of_singleton in H. apply split1_spec in E as [E1 E2].
    apply bool_decide_eq_true in Hk.
    exists col, p, r. repeat split; try assumption. apply list_elem_of_here.
  - right. exists c, p, r. split; [now apply list_elem_of_further|exact H].
Qed.

Lemma clean_fold_cte_undotted kp cols :
  Forall (fun c => Py.has_char "." c = false) cols ->
  forall cleaned, fold_left (clean_step true kp) cols cleaned = cleaned.
Proof.
  induction 1 as [|col cols Hc Hl IH]; intros cleaned; [reflexivity|].
  simpl. rewrite (clean_step_cte_undotted _ _ _ Hc). apply IH.
Qed.

(** C9: when CTEs are present, a name is in the validation set only if it is
    the lowercased remainder of a projected column written [prefix.rest]
    whose lowercased prefix is a known base-table alias or a base-table name
    of the schema; the columns without a dot play no part: the validation
    set, and with it the verdict, is the same without them, and a query that
    passed the inspection and projects only such columns is accepted. *)
Theorem C9_cte_columns (columns_raw : list string) (aliases names : gset string) :
  (forall x, x ∈ check_and_clean_columns columns_raw true aliases names ->
     exists col prefix rest,
       col ∈ columns_raw /\ col = prefix +:+ "." +:+ rest
       /\ Py.has_char "." prefix = false
       /\ (Py.lower prefix ∈ aliases \/ Py.lower prefix ∈ names)
       /\ x = Py.lower rest)
  /\ check_and_clean_columns columns_raw true aliases names
     = check_and_clean_columns (List.filter (Py.has_char ".") columns_raw) true aliases names
  /\ (forall query schema ts ws al, ws <> [] ->
        query_validator (fun _ => parsed ts columns_raw ws al) query schema
        = query_validator
            (fun _ => parsed ts (List.filter (Py.has_char ".") columns_raw) ws al)
            query schema)
  /\ (forall query schema ts ws al, ws <> [] ->
        inspect_query query = query ->
        Forall (fun c => Py.has_char "." c = false) columns_raw ->
        query_validator (fun _ => parsed ts columns_raw ws al) query schema = query).
Proof.
  split; [|split; [|split]].
  - intros x Hx. unfold check_and_clean_columns in Hx.
    apply list_set_elem, clean_fold_cte_elem in Hx
      as [Hx|(c & p & r & Hc & -> & Hp & Hk & ->)].
    + now apply elem_of_nil in Hx.
    + exists (p +:+ String "." r), p, r. repeat split; try assumption.
      now apply elem_of_union in Hk.
  - unfold check_and_clean_columns. now rewrite clean_fold_cte_filter.
  - intros query schema ts ws al Hws. unfold query_validator.
    destruct (negb _); [reflexivity|]. f_equal.
    rewrite !(validate_body_parsed _ _ _ ts _ ws al) by reflexivity.
    rewrite (bool_decide_eq_false_2 (ws = [])) by exact Hws.
    rewrite andb_false_r. cbv zeta. cbn [negb].
    unfold check_and_clean_columns. now rewrite <- clean_fold_cte_filter.
  - intros query schema ts ws al Hws Hpass Hund.
    rewrite (query_validator_passed _ _ _ Hpass).
    rewrite (validate_body_parsed _ _ _ ts columns_raw ws al) by reflexivity.
    rewrite (bool_decide_eq_false_2 (ws = [])) by exact Hws.
    rewrite andb_false_r. cbv zeta. cbn [negb].
    unfold check_and_clean_columns.
    rewrite (clean_fold_cte_undotted _ _ Hund), list_set_nil. reflexivity.
Qed.

Lemma C9_cte_columns_witness :
  query_validator (fun _ => parsed ["orders"] ["order_id"; "total"] ["recent"] [])
    "WITH recent AS (SELECT order_id, total FROM orders) SELECT order_id, total FROM recent"
    schema1
  = "WITH recent AS (SELECT order_id, total FROM orders) SELECT order_id, total FROM recent".
Proof.
  refine (proj2 (proj2 (proj2 (C9_cte_columns ["order_id"; "total"] ∅ ∅)))
            _ schema1 ["orders"] ["recent"] [] _ _ _).
  - discriminate.
  - vm_compute. reflexivity.
  - repeat constructor.
Defined.

(** ** The round trip: claim C2 *)

Lemma fold_left_unchanged {A B : Type} (f : A -> B -> A) (l : list B) (a : A) :
  Forall (fun b => f a b = a) l -> fold_left f l a = a.
Proof.
  induction 1 as [|b l Hb Hl IH]; simpl; [reflexivity|]. now rewrite Hb.
Qed.





(** ** Lemmas on the texts of the verdicts *)

Lemma no_Qu_app a b : no_Qu a = true -> no_Qu b = true -> no_Qu (a +:+ b) = true.
Proof.
  intros Ha Hb. induction a as [|c a IH]; [exact Hb|].
  rewrite append_cons. simpl in *. apply andb_true_iff in Ha as [Hc Ha].
  rewrite (IH Ha), andb_true_r.
  destruct (Ascii.eqb c "Q"); [|reflexivity].
  destruct a as [|d a]; [discriminate|]. now rewrite append_cons.
Qed.

Lemma tame_app a b : tame a = true -> tame b = true -> tame (a +:+ b) = true.
Proof.
  unfold tame. intros [H1 H2]%andb_true_iff [H3 H4]%andb_true_iff.
  now rewrite no_Qu_app, all_chars_app, H2, H4.
Qed.

Lemma tame_of_chars s : Py.all_chars tame_char s = true -> tame s = true.
Proof.
  unfold tame. induction s as [|c s IH]; [reflexivity|]. simpl.
  intros [Hc Hs]%andb_true_iff. apply IH in Hs as [H1 H2]%andb_true_iff.
  unfold tame_char in Hc. apply andb_true_iff in Hc as [Hq Hb].
  rewrite H1, H2, Hb. apply negb_true_iff in Hq. now rewrite Hq.
Qed.

Lemma tame_no_Qu s : tame s = true -> no_Qu s = true.
Proof. unfold tame. now intros [H _]%andb_true_iff. Qed.

Lemma no_Qu_of_lowercase s : lowercase s -> no_Qu s = true.
Proof.
  unfold lowercase. induction s as [|c s IH]; [reflexivity|]. simpl.
  intros [Hc Hs]%andb_true_iff. rewrite (IH Hs), andb_true_r.
  destruct (Ascii.eqb_spec c "Q") as [-> |]; [discriminate|reflexivity].
Qed.

Lemma no_Qu_join sep l :
  no_Qu sep = true -> Forall (fun x => no_Qu x = true) l -> no_Qu (Py.join sep l) = true.
Proof.
  intros Hsep. induction 1 as [|x l Hx Hl IH]; [reflexivity|].
  unfold Py.join in *. simpl. destruct l as [|y l]; [exact Hx|].
  apply no_Qu_app; [exact Hx|]. apply no_Qu_app; [exact Hsep|exact IH].
Qed.

Lemma startswith_app_char c w :
  Py.has_char c w = false ->
  forall e, Py.startswith w (e +:+ String c "") = Py.startswith w e.
Proof.
  revert c. induction w as [|a w IH]; intros c Hw e.
  - now destruct e.
  - simpl in Hw. apply orb_false_iff in Hw as [Hac Hw].
    destruct e as [|b e].
    + rewrite append_nil_l. simpl. now rewrite Hac.
    + rewrite append_cons. simpl. now rewrite (IH c Hw e).
Qed.

Lemma contains_cons w b s :
  Py.contains w (String b s) = Py.startswith w (String b s) || Py.contains w s.
Proof. reflexivity. Qed.

Lemma contains_nil w : Py.contains w "" = Py.startswith w "".
Proof. simpl. apply orb_false_r. Qed.

Lemma contains_app_char c w e :
  Py.has_char c w = false ->
  Py.contains w (e +:+ String c "") = Py.contains w e.
Proof.
  intros Hw. induction e as [|b e IH].
  - rewrite append_nil_l, contains_cons, !contains_nil.
    rewrite <- (append_nil_l (String c "")), (startswith_app_char c w Hw "").
    apply orb_diag.
  - rewrite append_cons, !contains_cons. rewrite <- append_cons.
    rewrite (startswith_app_char c w Hw (String b e)). now rewrite IH.
Qed.

Lemma contains_skip q w a s :
  Py.all_chars (fun c => negb (Ascii.eqb c q)) a = true ->
  Py.contains (String q w) (a +:+ s) = Py.contains (String q w) s.
Proof.
  induction a as [|c a IH]; [reflexivity|].
  cbn [Py.all_chars]. intros [Hc Ha]%andb_true_iff.
  rewrite append_cons, contains_cons, (IH Ha). simpl.
  apply negb_true_iff in Hc. rewrite Ascii.eqb_sym in Hc. now rewrite Hc.
Qed.

Lemma no_Qu_not_contains w s :
  no_Qu s = true -> Py.contains (String "Q" (String "u" w)) s = false.
Proof.
  induction s as [|c s IH]; [reflexivity|].
  cbn [no_Qu]. intros [Hc Hs]%andb_true_iff.
  rewrite contains_cons, (IH Hs), orb_false_r. cbn [Py.startswith].
  rewrite (Ascii.eqb_sym "Q" c).
  destruct (Ascii.eqb c "Q"); [|reflexivity].
  destruct s as [|d s]; [discriminate|]. cbn [Py.startswith andb].
  rewrite (Ascii.eqb_sym "u" d). apply negb_true_iff in Hc. now rewrite Hc.
Qed.

Lemma no_Qu_not_text s : no_Qu s = true -> Py.contains undefined_tables_text s = false.
Proof. apply no_Qu_not_contains. Qed.

(** A text holding a needle holds every character of the needle. *)
Lemma startswith_has_char c w s :
  Py.startswith w s = true -> Py.has_char c w = true -> Py.has_char c s = true.
Proof.
  revert s. induction w as [|a w IH]; intros s Hp Hc; [discriminate|].
  destruct s as [|b s]; [discriminate|]. simpl in *.
  apply andb_true_iff in Hp as [Hab Hp]. apply Ascii.eqb_eq in Hab as <-.
  destruct (Ascii.eqb a c); [reflexivity|]. simpl in *. now apply IH.
Qed.

Lemma contains_has_char c w s :
  Py.contains w s = true -> Py.has_char c w = true -> Py.has_char c s = true.
Proof.
  intros H Hc. induction s as [|b s IH].
  - rewrite contains_nil in H. now apply (startswith_has_char c w "").
  - rewrite contains_cons in H. apply orb_true_iff in H as [H|H].
    + now apply (startswith_has_char c w).
    + simpl. rewrite (IH H). apply orb_true_r.
Qed.

Lemma tame_not_flagged issue : tame issue = true -> flags_semicolon_comment issue = false.
Proof.
  unfold tame, flags_semicolon_comment. intros [_ H]%andb_true_iff.
  apply has_char_all_chars in H.
  destruct (Py.contains ";\s*--" issue) eqn:E; [|reflexivity].
  apply (contains_has_char "\") in E; [congruence|reflexivity].
Qed.

(** ** Lemmas on the issues of the inspector *)

Lemma fold_left_preserves_in {A B : Type} (P : A -> Prop) (f : A -> B -> A) (l : list B) :
  (forall a b, b ∈ l -> P a -> P (f a b)) ->
  forall a, P a -> P (fold_left f l a).
Proof.
  induction l as [|b l IH]; intros Hf a Ha; simpl; [exact Ha|].
  apply IH.
  - intros a' b' Hb'. apply Hf. now apply list_elem_of_further.
  - apply Hf; [apply list_elem_of_here|exact Ha].
Qed.

Lemma Forall_snoc_tame (l : list string) x :
  Forall (fun i => tame i = true) l -> tame x = true ->
  Forall (fun i => tame i = true) (l ++ [x]).
Proof. intros Hl Hx. apply Forall_app. split; [exact Hl|]. now constructor. Qed.

Lemma add_if_tame b x l :
  tame x = true -> Forall (fun i => tame i = true) l ->
  Forall (fun i => tame i = true) (add_if b x l).
Proof. intros Hx Hl. destruct b; simpl; [now apply Forall_snoc_tame|exact Hl]. Qed.

Lemma step_disallowed_tame query issues keyword :
  keyword ∈ disallowed_keywords ->
  Forall (fun i => tame i = true) issues ->
  Forall (fun i => tame i = true) (step_disallowed query issues keyword).
Proof.
  intros Hk Hl. unfold step_disallowed. destruct (found _); [|exact Hl].
  apply Forall_snoc_tame; [exact Hl|].
  assert (H : forallb (fun kw => tame (msg_disallowed kw)) disallowed_keywords = true)
    by (vm_compute; reflexivity).
  rewrite forallb_forall in H. apply H. now apply list_elem_of_In.
Qed.

Lemma msg_unsafe_tame x : Py.all_chars tame_char x = true -> tame (msg_unsafe x) = true.
Proof.
  intros Hx. unfold msg_unsafe.
  apply tame_app; [vm_compute; reflexivity|].
  apply tame_app; [now apply tame_of_chars|vm_compute; reflexivity].
Qed.

Lemma step_unsafe_tame query issues keyword_pattern :
  keyword_pattern ∈ unsafe_keywords ->
  Forall (fun i => tame i = true) issues ->
  Forall (fun i => tame i = true) (step_unsafe query issues keyword_pattern).
Proof.
  intros Hk Hl. unfold step_unsafe.
  destruct (re_search keyword_pattern query) as [mo|] eqn:E; [|exact Hl].
  apply Forall_snoc_tame; [exact Hl|]. apply msg_unsafe_tame, strip_chars.
  apply (re_search_chars tame_char keyword_pattern query mo); [|exact E].
  assert (H : forallb (chars_within tame_char) unsafe_keywords = true)
    by (vm_compute; reflexivity).
  rewrite forallb_forall in H. apply H. now apply list_elem_of_In.
Qed.

Lemma issues_before_semicolon_tame query :
  Forall (fun i => tame i = true) (issues_before_semicolon query).
Proof.
  unfold issues_before_semicolon.
  apply add_if_tame; [vm_compute; reflexivity|].
  apply fold_left_preserves_in; [intros a b; apply step_unsafe_tame|].
  apply fold_left_preserves_in; [intros a b; apply step_disallowed_tame|].
  apply add_if_tame; [vm_compute; reflexivity|constructor].
Qed.

Lemma inspect_issues_unfold query :
  inspect_issues query =
  add_if (rule_union query) msg_union
    (add_if (rule_join query) msg_join
       (if rule_semicolon query
        then add_if (negb (existsb flags_semicolon_comment (issues_before_semicolon query)))
               msg_semicolon (issues_before_semicolon query)
        else issues_before_semicolon query)).
Proof. reflexivity. Qed.

(** The test of line 114 fails on every issue recorded before it. *)
Lemma never_flagged query :
  existsb flags_semicolon_comment (issues_before_semicolon query) = false.
Proof.
  pose proof (issues_before_semicolon_tame query) as H.
  induction H as [|i l Hi Hl IH]; [reflexivity|].
  simpl. now rewrite (tame_not_flagged i Hi), IH.
Qed.

Lemma inspect_issues_tame query : Forall (fun i => tame i = true) (inspect_issues query).
Proof.
  rewrite inspect_issues_unfold.
  apply add_if_tame; [vm_compute; reflexivity|].
  apply add_if_tame; [vm_compute; reflexivity|].
  destruct (rule_semicolon query); [|apply issues_before_semicolon_tame].
  apply add_if_tame; [vm_compute; reflexivity|apply issues_before_semicolon_tame].
Qed.

Lemma elem_of_add_if_true x l : x ∈ add_if true x l.
Proof. simpl. apply elem_of_app. right. apply list_elem_of_here. Qed.

Lemma elem_of_add_if b x y l : x ∈ l -> x ∈ add_if b y l.
Proof. intros H. destruct b; simpl; [|exact H]. apply elem_of_app. now left. Qed.

(** ** The inspector: claims C4 and C3 *)

(** C4 fails on the code: the semicolon issue is never suppressed. On the
    query [SELECT 1;-- note] followed by a newline and [FROM t], the issue of
    the unsafe pattern [;--] and the generic semicolon issue are both
    reported; the test of line 114 looks for the six characters of the
    pattern source in the earlier issues and fails on all of them, so that
    every query on which the semicolon check fires gets the generic issue. *)
Theorem C4_semicolon_reported_twice :
  inspect_issues ("SELECT 1;-- note" +:+ nl +:+ "FROM t")
  = [ "Potentially unsafe SQL pattern ';--' detected.";
      "Avoid the use of semicolons (;) except possibly at the very end of the query." ]
  /\ (forall query,
        existsb flags_semicolon_comment (issues_before_semicolon query) = false)
  /\ (forall query, rule_semicolon query = true ->
        "Avoid the use of semicolons (;) except possibly at the very end of the query."
        ∈ inspect_issues query).
Proof.
  split; [vm_compute; reflexivity|]. split; [apply never_flagged|].
  intros query H. rewrite inspect_issues_unfold, H, never_flagged.
  apply elem_of_add_if, elem_of_add_if. apply elem_of_add_if_true.
Qed.

Lemma C4_semicolon_reported_twice_witness :
  "Avoid the use of semicolons (;) except possibly at the very end of the query."
  ∈ inspect_issues "SELECT 1; -- c; d".
Proof.
  apply (proj2 (proj2 C4_semicolon_reported_twice) "SELECT 1; -- c; d").
  vm_compute. reflexivity.
Defined.

(** C3 fails on the code: the query that is itself the report of the issue
    "Only SELECT statements or CTEs (WITH...SELECT) are allowed." has a
    non-empty issue list, yet [inspect_query] returns a text equal to the
    query, the comparison of line 199 finds no difference, and the verdict is
    the one of the parse path: with a parser that raises, it is the
    unexpected-issue message and not the report of the issues. *)
Theorem C3_report_equal_to_query :
  let query := "Detected issues while validating SQL query:" +:+ nl
               +:+ "- Only SELECT statements or CTEs (WITH...SELECT) are allowed." in
  inspect_issues query = ["Only SELECT statements or CTEs (WITH...SELECT) are allowed."]
  /\ inspect_query query = query
  /\ (forall Parser schema,
        query_validator Parser query schema
        = handler (validate_body Parser query schema))
  /\ query_validator (fun _ => raising "Not supported query type") query ∅
     = "Validation Error: An unexpected issue occurred during validation. (Details: Not supported query type)"
  /\ query_validator (fun _ => raising "Not supported query type") query ∅
     <> issues_str (inspect_issues query).
Proof.
  cbv zeta. split; [vm_compute; reflexivity|].
  split; [vm_compute; reflexivity|].
  split; [intros; apply query_validator_passed; vm_compute; reflexivity|].
  split; [vm_compute; reflexivity|].
  vm_compute. discriminate.
Qed.

(** ** The verdicts of the validator: claim C5 *)

Lemma clean_step_lowercase b kp cleaned col :
  Forall lowercase cleaned -> Forall lowercase (clean_step b kp cleaned col).
Proof.
  intros H. unfold clean_step.
  assert (Hs : forall x, Forall lowercase (cleaned ++ [Py.lower x])).
  { intros x. apply Forall_app. split; [exact H|].
    constructor; [apply lower_lowercase|constructor]. }
  destruct (found _); [exact H|]. destruct b.
  - destruct (Py.has_char "." col); [|exact H].
    destruct (Py.split1 "." col) as [[p0 p1]|]; [|exact H].
    destruct (bool_decide _); [apply Hs|exact H].
  - destruct (Py.has_char "." col); [apply Hs|].
    destruct (negb _); [apply Hs|exact H].
Qed.

Lemma check_and_clean_lowercase cs b aliases names :
  Forall lowercase (check_and_clean_columns cs b aliases names).
Proof.
  unfold check_and_clean_columns.
  assert (H : Forall lowercase
                (fold_left (clean_step b (aliases ∪ names)) cs [])).
  { apply (fold_left_preserves (Forall lowercase));
      [intros a c; apply clean_step_lowercase|constructor]. }
  apply Forall_forall. intros x Hx. apply (proj1 (list_set_elem _ _)) in Hx.
  rewrite Forall_forall in H. now apply H.
Qed.

Lemma sorted_set_no_Qu l :
  Forall lowercase l -> Forall (fun x => no_Qu x = true) (Py.sorted (list_set l)).
Proof.
  intros H. apply Forall_forall. intros x Hx.
  apply (proj1 (sorted_elem _ _)), (proj1 (list_set_elem _ _)) in Hx.
  apply no_Qu_of_lowercase. rewrite Forall_forall in H. now apply H.
Qed.

Lemma msg_invalid_columns_no_Qu invalid_columns tabs :
  Forall lowercase invalid_columns -> Forall lowercase tabs ->
  no_Qu ("Validation Error: " +:+ msg_invalid_columns invalid_columns tabs) = true.
Proof.
  intros Hi Ht. unfold msg_invalid_columns.
  apply no_Qu_app; [vm_compute; reflexivity|].
  apply no_Qu_app; [vm_compute; reflexivity|].
  apply no_Qu_app; [apply no_Qu_join; [vm_compute; reflexivity|now apply sorted_set_no_Qu]|].
  apply no_Qu_app; [vm_compute; reflexivity|].
  apply no_Qu_app; [apply no_Qu_join; [vm_compute; reflexivity|now apply sorted_set_no_Qu]|].
  vm_compute. reflexivity.
Qed.

Lemma issues_str_no_Qu query : no_Qu (issues_str (inspect_issues query)) = true.
Proof.
  unfold issues_str.
  apply no_Qu_app; [vm_compute; reflexivity|].
  apply no_Qu_app; [vm_compute; reflexivity|].
  apply no_Qu_join; [vm_compute; reflexivity|].
  apply Forall_fmap. eapply Forall_impl; [apply inspect_issues_tame|].
  intros i Hi. simpl. apply no_Qu_app; [vm_compute; reflexivity|].
  now apply tame_no_Qu.
Qed.

(** The four ways in which the body of the [try] ends. *)
Lemma validate_body_cases Parser query schema :
  (exists e, validate_body Parser query schema = Raises e)
  \/ validate_body Parser query schema = Returns query
  \/ validate_body Parser query schema = Returns msg_no_table
  \/ exists invalid_columns ts,
       Forall lowercase invalid_columns
       /\ validate_body Parser query schema
          = Returns ("Validation Error: "
                     +:+ msg_invalid_columns invalid_columns (base_tables schema ts)).
Proof.
  destruct (Parser query) as [[ts|e] [cs|e'] [ws|e''] al] eqn:HP;
    try (left; unfold validate_body; rewrite HP; simpl; eauto; fail).
  destruct al as [al|e].
  - rewrite (validate_body_parsed _ _ _ ts cs ws al HP).
    destruct (_ && _).
    + destruct (forallb _ _); auto.
    + cbv zeta. destruct (List.filter _ _) as [|c0 inv] eqn:E; [auto|].
      right; right; right. exists (c0 :: inv), ts. split; [|reflexivity].
      rewrite <- E. apply Forall_filter_bool, check_and_clean_lowercase.
  - unfold validate_body. rewrite HP.
    cbn [tables columns with_names tables_aliases mbind outcome_bind].
    destruct (_ && _).
    + destruct (forallb _ _); auto.
    + left. eauto.
Qed.

Lemma handler_raises_contains e :
  Py.contains undefined_tables_text (handler (Raises e))
  = Py.contains undefined_tables_text e.
Proof.
  unfold handler, undefined_tables_text.
  destruct (_ || _).
  - rewrite contains_skip by (vm_compute; reflexivity).
    apply contains_app_char. reflexivity.
  - rewrite contains_skip by (vm_compute; reflexivity).
    apply contains_app_char. reflexivity.
Qed.

(** C5, as amended: [validate_columns] never takes its unknown-table branch
    on the tables [query_validator] hands it, and a verdict holds the text
    "Query references undefined tables" only when it is the query itself,
    returned verbatim, or when the text comes with the exception raised by
    the parser. *)
Theorem C5_unknown_table_branch_unreachable (Parser : string -> parser)
    (query : string) (schema : gmap string (list string)) :
  (forall ts cleaned unknown_tables,
     validate_columns (base_tables schema ts) cleaned schema
     <> (false, [msg_unknown_tables unknown_tables]))
  /\ (Py.contains "Query references undefined tables"
        (query_validator Parser query schema) = true ->
      query_validator Parser query schema = query
      \/ exists e, validate_body Parser query schema = Raises e
                   /\ Py.contains "Query references undefined tables" e = true).
Proof.
  split.
  - intros ts cleaned u. rewrite validate_columns_base.
    destruct (List.filter _ _) as [|c0 inv]; [discriminate|].
    intros H. assert (H' : msg_invalid_columns (c0 :: inv) (base_tables schema ts)
                           = msg_unknown_tables u) by congruence.
    unfold msg_invalid_columns, msg_unknown_tables in H'.
    rewrite !append_cons in H'. discriminate H'.
  - fold undefined_tables_text. intros H.
    destruct (String.eqb_spec (inspect_query query) query) as [Hpass|Hfail].
    + rewrite (query_validator_passed _ _ _ Hpass) in *.
      destruct (validate_body_cases Parser query schema)
        as [[e He]|[He|[He|(inv & ts & Hinv & He)]]]; rewrite He in *.
      * right. exists e. split; [reflexivity|]. now rewrite <- handler_raises_contains.
      * now left.
      * exfalso. revert H. vm_compute. discriminate.
      * exfalso. cbn [handler] in H.
        rewrite no_Qu_not_text in H; [discriminate|].
        apply msg_invalid_columns_no_Qu; [exact Hinv|apply base_tables_lowercase].
    + exfalso. rewrite (query_validator_issues _ _ _ Hfail) in H.
      unfold inspect_query in *. destruct (inspect_issues query) as [|i l] eqn:E.
      * now apply Hfail.
      * rewrite <- E in H. rewrite no_Qu_not_text in H; [discriminate|].
        apply issues_str_no_Qu.
Qed.

(** C5 as stated fails: an accepted query is returned verbatim, with the
    text it holds. *)
Lemma C5_counterexample :
  Py.contains "Query references undefined tables"
    (query_validator (fun _ => parsed ["customers"] ["first_name"] [] [])
       "SELECT first_name FROM customers WHERE first_name = 'Query references undefined tables'"
       schema1)
  = true.
Proof. vm_compute. reflexivity. Qed.

Lemma C5_unknown_table_branch_unreachable_witness :
  query_validator (fun _ => parsed ["customers"] ["first_name"] [] [])
    "SELECT first_name FROM customers WHERE first_name = 'Query references undefined tables'"
    schema1
  = "SELECT first_name FROM customers WHERE first_name = 'Query references undefined tables'"
  \/ exists e,
       validate_body (fun _ => parsed ["customers"] ["first_name"] [] [])
         "SELECT first_name FROM customers WHERE first_name = 'Query references undefined tables'"
         schema1 = Raises e
       /\ Py.contains "Query references undefined tables" e = true.
Proof.
  apply (proj2 (C5_unknown_table_branch_unreachable
                  (fun _ => parsed ["customers"] ["first_name"] [] [])
                  "SELECT first_name FROM customers WHERE first_name = 'Query references undefined tables'"
                  schema1)).
  vm_compute. reflexivity.
Defined.



(** The other conditions of the amended round trip are needed as well: a
    second statement after a semicolon, and a selection in parentheses, are
    rejected by the inspector though they meet the conditions C2 lists. *)
Example round_trip_needs_semicolon_check :
  no_disallowed_keyword "SELECT first_name FROM customers; SELECT email FROM customers"
  /\ no_unsafe_pattern "SELECT first_name FROM customers; SELECT email FROM customers"
  /\ inspect_issues "SELECT first_name FROM customers; SELECT email FROM customers"
     = ["Avoid the use of semicolons (;) except possibly at the very end of the query."].
Proof.
  split; [unfold no_disallowed_keyword, disallowed_keywords; forall_by_computation|].
  split; [unfold no_unsafe_pattern, unsafe_keywords; forall_by_computation|].
  vm_compute. reflexivity.
Qed.

Example round_trip_needs_select_start :
  no_disallowed_keyword "(SELECT first_name FROM customers)"
  /\ no_unsafe_pattern "(SELECT first_name FROM customers)"
  /\ inspect_issues "(SELECT first_name FROM customers)"
     = ["Only SELECT statements or CTEs (WITH...SELECT) are allowed."].
Proof.
  split; [unfold no_disallowed_keyword, disallowed_keywords; forall_by_computation|].
  split; [unfold no_unsafe_pattern, unsafe_keywords; forall_by_computation|].
  vm_compute. reflexivity.
Qed.

(** The JOIN check of lines 120-130: the optional alias of the pattern takes
    the word ON of a join without alias, and the text searched for ON or
    USING starts after it. *)
Example join_check_on_unaliased_join :
  inspect_issues "SELECT t1.id FROM t1 JOIN t2 ON t1.id = t2.id"
  = ["Use of JOIN without an ON/USING clause may result in a Cartesian product. Specify join conditions or use CROSS JOIN."]
  /\ inspect_issues "SELECT a.id FROM t1 a JOIN t2 b ON a.id = b.id" = [].
Proof. split; vm_compute; reflexivity. Qed.

(** * Further properties of the validator *)

(** ** The shape of the verdicts *)

Lemma startswith_app w s : Py.startswith w (w +:+ s) = true.
Proof.
  induction w as [|c w IH]; [reflexivity|].
  rewrite append_cons. simpl. now rewrite Ascii.eqb_refl, IH.
Qed.

Lemma rule_select_D s : rule_select (String "D" s) = true.
Proof. vm_compute. reflexivity. Qed.

Lemma rule_select_V s : rule_select (String "V" s) = true.
Proof. vm_compute. reflexivity. Qed.

Lemma issues_str_select issues : rule_select (issues_str issues) = true.
Proof. apply rule_select_D. Qed.

Lemma inspect_query_issues query :
  inspect_issues query <> [] -> inspect_query query = issues_str (inspect_issues query).
Proof. unfold inspect_query. now destruct (inspect_issues query). Qed.

Lemma inspect_query_nil query : inspect_issues query = [] -> inspect_query query = query.
Proof. unfold inspect_query. now intros ->. Qed.

(** The first check of the inspector is part of its issues. *)
Lemma rule_select_issue query :
  rule_select query = true -> inspect_issues query <> [].
Proof.
  intros H E. pose proof (elem_of_nil msg_only_select) as Hn. apply Hn. rewrite <- E.
  rewrite inspect_issues_unfold. apply elem_of_add_if, elem_of_add_if.
  assert (Hb : msg_only_select ∈ issues_before_semicolon query).
  { unfold issues_before_semicolon. apply elem_of_add_if. rewrite H.
    generalize (add_if true msg_only_select []) (elem_of_add_if_true msg_only_select []).
    intros l Hl.
    assert (Hd : msg_only_select ∈ fold_left (step_disallowed query) disallowed_keywords l).
    { revert l Hl. induction disallowed_keywords as [|kw kws IH]; intros l Hl; [exact Hl|].
      simpl. apply IH. unfold step_disallowed. destruct (found _); [|exact Hl].
      apply elem_of_app. now left. }
    revert Hd. generalize (fold_left (step_disallowed query) disallowed_keywords l).
    clear l Hl. intros l Hl.
    revert l Hl. induction unsafe_keywords as [|r rs IH]; intros l Hl; [exact Hl|].
    simpl. apply IH. unfold step_unsafe. destruct (re_search r query); [|exact Hl].
    apply elem_of_app. now left. }
  destruct (rule_semicolon query); [now apply elem_of_add_if|exact Hb].
Qed.

(** A text that passed the inspection starts neither like a report of
    issues nor like a validation error. *)
Lemma passed_not_V query s : inspect_query query = query -> query <> String "V" s.
Proof.
  intros H ->. destruct (inspect_issues (String "V" s)) as [|i l] eqn:E.
  - apply (rule_select_issue (String "V" s)); [apply rule_select_V|exact E].
  - rewrite inspect_query_issues in H by (rewrite E; discriminate).
    unfold issues_str in H. rewrite append_cons in H. discriminate H.
Qed.

(** X1: a verdict is the query itself, the report of a non-empty list of
    issues, or a text that starts with "Validation Error: ". *)
Theorem verdict_shape (Parser : string -> parser) (query : string)
    (schema : gmap string (list string)) :
  query_validator Parser query schema = query
  \/ (inspect_issues query <> []
      /\ query_validator Parser query schema = issues_str (inspect_issues query)
      /\ Py.startswith "Detected issues while validating SQL query:"
           (query_validator Parser query schema) = true)
  \/ Py.startswith "Validation Error: " (query_validator Parser query schema) = true.
Proof.
  destruct (String.eqb_spec (inspect_query query) query) as [Hpass|Hfail].
  - rewrite (query_validator_passed _ _ _ Hpass).
    destruct (validate_body_cases Parser query schema)
      as [[e He]|[He|[He|(inv & ts & _ & He)]]]; rewrite He.
    + right; right. unfold handler. destruct (_ || _); reflexivity.
    + now left.
    + right; right. reflexivity.
    + right; right. cbn [handler]. apply startswith_app.
  - right; left. rewrite (query_validator_issues _ _ _ Hfail).
    assert (Hne : inspect_issues query <> []).
    { intros E. apply Hfail. now apply inspect_query_nil. }
    split; [exact Hne|]. rewrite (inspect_query_issues _ Hne).
    split; [reflexivity|]. unfold issues_str. apply startswith_app.
Qed.

(** X2: on a query that starts with SELECT or with a CTE header, any issue
    found by the inspector ends the validation: the verdict is the report of
    the issues, whatever the parser and the schema are, and it is not the
    query. *)
Theorem issues_short_circuit (Parser : string -> parser) (query : string)
    (schema : gmap string (list string)) :
  rule_select query = false ->
  inspect_issues query <> [] ->
  query_validator Parser query schema = issues_str (inspect_issues query)
  /\ query_validator Parser query schema <> query.
Proof.
  intros Hsel Hne.
  assert (Hdiff : issues_str (inspect_issues query) <> query).
  { intros E. rewrite <- E in Hsel. rewrite issues_str_select in Hsel. discriminate. }
  rewrite query_validator_issues by (rewrite (inspect_query_issues _ Hne); exact Hdiff).
  rewrite (inspect_query_issues _ Hne). now split.
Qed.

Lemma issues_short_circuit_witness :
  query_validator (fun _ => raising "unused")
    "SELECT * FROM customers; DROP TABLE customers;" schema1
  = issues_str (inspect_issues "SELECT * FROM customers; DROP TABLE customers;")
  /\ query_validator (fun _ => raising "unused")
       "SELECT * FROM customers; DROP TABLE customers;" schema1
     <> "SELECT * FROM customers; DROP TABLE customers;".
Proof.
  apply (issues_short_circuit (fun _ => raising "unused")
           "SELECT * FROM customers; DROP TABLE customers;" schema1).
  - vm_compute. reflexivity.
  - vm_compute. discriminate.
Defined.

(** X3: when reading the parser raises inside the [try], the query is never
    accepted: the verdict is the report of the inspector's issues or the
    validation error built from the exception text. *)
Theorem parser_failure_rejected (Parser : string -> parser) (query : string)
    (schema : gmap string (list string)) (e : string) :
  validate_body Parser query schema = Raises e ->
  query_validator Parser query schema <> query
  /\ (query_validator Parser query schema = issues_str (inspect_issues query)
      \/ query_validator Parser query schema = handler (Raises e)).
Proof.
  intros He.
  destruct (String.eqb_spec (inspect_query query) query) as [Hpass|Hfail].
  - rewrite (query_validator_passed _ _ _ Hpass), He. split; [|now right].
    intros E. unfold handler in E. destruct (_ || _);
      rewrite append_cons in E; symmetry in E; now apply passed_not_V in E.
  - rewrite (query_validator_issues _ _ _ Hfail). split; [exact Hfail|left].
    apply inspect_query_issues. intros E. apply Hfail. now apply inspect_query_nil.
Qed.

Lemma parser_failure_rejected_witness :
  query_validator (fun _ => raising "Unknown token at 7") "SELECT ? FROM t" ∅
  <> "SELECT ? FROM t"
  /\ (query_validator (fun _ => raising "Unknown token at 7") "SELECT ? FROM t" ∅
      = issues_str (inspect_issues "SELECT ? FROM t")
      \/ query_validator (fun _ => raising "Unknown token at 7") "SELECT ? FROM t" ∅
         = handler (Raises "Unknown token at 7")).
Proof.
  apply (parser_failure_rejected (fun _ => raising "Unknown token at 7")
           "SELECT ? FROM t" ∅ "Unknown token at 7").
  reflexivity.
Defined.

Lemma clean_step_agg ctes kp cleaned col :
  aggregate_call col -> clean_step ctes kp cleaned col = cleaned.
Proof.
  intros H%found_is_Some. unfold clean_step. now rewrite H.
Qed.

Lemma clean_fold_star_agg ctes kp cs :
  Forall (fun c => c = "*" \/ aggregate_call c) cs ->
  forall cleaned, fold_left (clean_step ctes kp) cs cleaned = cleaned.
Proof.
  induction 1 as [|c cs Hc Hcs IH]; intros cleaned; [reflexivity|].
  simpl. destruct Hc as [-> |Hc].
  - rewrite clean_step_star. apply IH.
  - rewrite (clean_step_agg _ _ _ _ Hc). apply IH.
Qed.

(** ** validate_columns on its own *)

Lemma table_step_spec schema t valid unk valid' unk' :
  table_step schema (valid, unk) t = (valid', unk') ->
  (forall x, x ∈ valid' <->
     x ∈ valid \/ exists cols, schema !! t = Some cols /\ x ∈ map Py.lower cols)
  /\ (forall u, u ∈ unk' <-> u ∈ unk \/ (u = t /\ schema !! t = None))
  /\ (NoDup unk -> NoDup unk').
Proof.
  unfold table_step, str_in. destruct (schema !! t) as [cols|] eqn:E.
  - intros H. injection H as <- <-. split; [|split; [|auto]].
    + intros x. rewrite elem_of_union, elem_of_list_to_set. split.
      * intros [H|H]; [now left|right; now exists cols].
      * intros [H|(cols' & Hc & H)]; [now left|]. injection Hc as <-. now right.
    + intros u. split; [now left|]. intros [H|[_ H]]; [exact H|discriminate].
  - intros H. injection H as <- <-. split; [|split].
    + intros x. split; [now left|]. intros [H|(cols & H & _)]; [exact H|discriminate].
    + intros u. destruct (bool_decide (t ∈ unk)) eqn:B.
      * apply bool_decide_eq_true in B. split; [now left|].
        intros [H|[-> _]]; assumption.
      * rewrite elem_of_app, list_elem_of_singleton. split.
        -- intros [H| ->]; [now left|now right].
        -- intros [H|[-> _]]; [now left|now right].
    + intros Hd. destruct (bool_decide (t ∈ unk)) eqn:B; [exact Hd|].
      apply bool_decide_eq_false in B. apply NoDup_app. split; [exact Hd|].
      split; [|apply NoDup_singleton].
      intros x Hx ->%list_elem_of_singleton. now apply B.
Qed.

Lemma fold_table_step_spec schema :
  forall l valid unk valid' unk',
  fold_left (table_step schema) l (valid, unk) = (valid', unk') ->
  (forall x, x ∈ valid' <->
     x ∈ valid \/ exists t cols, t ∈ l /\ schema !! t = Some cols /\ x ∈ map Py.lower cols)
  /\ (forall u, u ∈ unk' <-> u ∈ unk \/ (u ∈ l /\ schema !! u = None))
  /\ (NoDup unk -> NoDup unk').
Proof.
  induction l as [|t l IH]; intros valid unk valid' unk' H.
  - injection H as <- <-. split; [|split; [|auto]].
    + intros x. split; [now left|].
      intros [H|(t & cols & Ht & _)]; [exact H|now apply elem_of_nil in Ht].
    + intros u. split; [now left|].
      intros [H|[Ht _]]; [exact H|now apply elem_of_nil in Ht].
  - cbn [fold_left] in H. destruct (table_step schema (valid, unk) t) as [v1 u1] eqn:E1.
    destruct (table_step_spec _ _ _ _ _ _ E1) as (Hv1 & Hu1 & Hd1).
    destruct (IH _ _ _ _ H) as (Hv & Hu & Hd).
    split; [|split].
    + intros x. rewrite Hv, Hv1. split.
      * intros [[Hx|(cols & Hc & Hx)]|(t' & cols & Ht' & Hc & Hx)].
        -- now left.
        -- right. exists t, cols. split; [apply list_elem_of_here|now split].
        -- right. exists t', cols. split; [now apply list_elem_of_further|now split].
      * intros [Hx|(t' & cols & Ht' & Hc & Hx)]; [now left; left|].
        apply elem_of_cons in Ht' as [-> |Ht'].
        -- left; right. now exists cols.
        -- right. now exists t', cols.
    + intros u. rewrite Hu, Hu1. split.
      * intros [[Hx|[-> Hn]]|[Hx Hn]].
        -- now left.
        -- right. split; [apply list_elem_of_here|exact Hn].
        -- right. split; [now apply list_elem_of_further|exact Hn].
      * intros [Hx|[Hx Hn]]; [now left; left|].
        apply elem_of_cons in Hx as [-> |Hx]; [left; now right|now right].
    + intros Hd0. apply Hd, Hd1, Hd0.
Qed.

(** X5: called with a table that is not a key of the mapping,
    [validate_columns] fails with the undefined-tables message for the
    unknown tables, each named once, and does not look at the columns. *)
Theorem validate_columns_unknown_table (extracted_tables cleaned : list string)
    (schema : gmap string (list string)) (t : string) :
  t ∈ extracted_tables ->
  schema !! Py.lower t = None ->
  exists unknown_tables,
    validate_columns extracted_tables cleaned schema
    = (false, [("Query references undefined tables: "
                +:+ Py.join ", " (Py.sorted unknown_tables))])
    /\ NoDup unknown_tables
    /\ (forall u, u ∈ unknown_tables <->
          u ∈ map Py.lower extracted_tables /\ schema !! u = None)
    /\ forall cleaned',
         validate_columns extracted_tables cleaned' schema
         = validate_columns extracted_tables cleaned schema.
Proof.
  intros Ht Hn. unfold validate_columns.
  destruct (fold_left _ _ _) as [valid unk] eqn:E.
  destruct (fold_table_step_spec _ _ _ _ _ _ E) as (_ & Hu & Hd).
  assert (Hin : Py.lower t ∈ unk).
  { apply Hu. right. split; [|exact Hn]. apply list_elem_of_fmap. now exists t. }
  destruct unk as [|u0 unk]; [now apply elem_of_nil in Hin|].
  exists (u0 :: unk). split; [reflexivity|]. split; [apply Hd; constructor|].
  split; [|reflexivity].
  intros u. rewrite Hu. split.
  - intros [H|H]; [now apply elem_of_nil in H|exact H].
  - now right.
Qed.

Lemma validate_columns_unknown_table_witness :
  exists unknown_tables,
    validate_columns ["Inventory"; "customers"; "inventory"] ["zzz"] schema1
    = (false, [("Query references undefined tables: "
                +:+ Py.join ", " (Py.sorted unknown_tables))])
    /\ NoDup unknown_tables
    /\ (forall u, u ∈ unknown_tables <->
          u ∈ map Py.lower ["Inventory"; "customers"; "inventory"]
          /\ schema1 !! u = None)
    /\ forall cleaned',
         validate_columns ["Inventory"; "customers"; "inventory"] cleaned' schema1
         = validate_columns ["Inventory"; "customers"; "inventory"] ["zzz"] schema1.
Proof.
  apply (validate_columns_unknown_table _ ["zzz"] schema1 "Inventory").
  - apply list_elem_of_here.
  - vm_compute. reflexivity.
Defined.

Lemma filter_bool_nil {A} (f : A -> bool) (l : list A) :
  List.filter f l = [] <-> forall x, x ∈ l -> f x = false.
Proof.
  induction l as [|a l IH]; simpl.
  - split; [|reflexivity]. intros _ x Hx. now apply elem_of_nil in Hx.
  - destruct (f a) eqn:E.
    + split; [discriminate|]. intros H. rewrite (H a) in E; [discriminate|].
      apply list_elem_of_here.
    + rewrite IH. split.
      * intros H x [-> |Hx]%elem_of_cons; [exact E|now apply H].
      * intros H x Hx. apply H. now apply list_elem_of_further.
Qed.

Lemma is_invalid_false valid c :
  is_invalid valid c = false <-> c ∈ valid \/ c = "*".
Proof.
  unfold is_invalid. rewrite andb_false_iff, !negb_false_iff.
  now rewrite bool_decide_eq_true, String.eqb_eq.
Qed.

(** X6: when every table is a key of the mapping, [validate_columns]
    succeeds if and only if every column it is given is ['*'] or is, as
    written, the lowercase form of a column of one of the tables. *)
Theorem validate_columns_known_tables (extracted_tables cleaned : list string)
    (schema : gmap string (list string)) :
  Forall (fun t => is_Some (schema !! Py.lower t)) extracted_tables ->
  (validate_columns extracted_tables cleaned schema = (true, []) <->
   forall c, c ∈ cleaned ->
     c = "*" \/ exists t cols,
                  t ∈ extracted_tables /\ schema !! Py.lower t = Some cols
                  /\ c ∈ map Py.lower cols).
Proof.
  intros Hk. unfold validate_columns.
  destruct (fold_left _ _ _) as [valid unk] eqn:E.
  destruct (fold_table_step_spec _ _ _ _ _ _ E) as (Hv & _ & _).
  assert (Hu : unk = []).
  { pose proof (fold_table_step_known schema (map Py.lower extracted_tables) {["*"]} []) as H.
    rewrite E in H. apply H. apply Forall_fmap. exact Hk. }
  subst unk.
  change (fun col => negb (bool_decide (col ∈ valid)) && negb (String.eqb col "*"))
    with (is_invalid valid).
  assert (Hval : forall c, (c ∈ valid \/ c = "*") <->
            (c = "*" \/ exists t cols, t ∈ extracted_tables
                          /\ schema !! Py.lower t = Some cols /\ c ∈ map Py.lower cols)).
  { intros c. rewrite Hv, elem_of_singleton. split.
    - intros [[H|(t & cols & Ht & Hc & Hx)]|H]; [now left| |now left].
      apply list_elem_of_fmap in Ht as (t0 & -> & Ht0). right. now exists t0, cols.
    - intros [H|(t & cols & Ht & Hc & Hx)]; [now right|].
      left; right. exists (Py.lower t), cols. split; [|now split].
      apply list_elem_of_fmap. now exists t. }
  destruct (List.filter (is_invalid valid) cleaned) as [|c0 inv] eqn:F.
  - split; [|reflexivity]. intros _ c Hc. apply Hval, is_invalid_false.
    now apply (proj1 (filter_bool_nil _ _) F).
  - split; [discriminate|]. intros H. exfalso.
    assert (F' : List.filter (is_invalid valid) cleaned = []).
    { apply filter_bool_nil. intros c Hc. apply is_invalid_false, Hval, H, Hc. }
    congruence.
Qed.

Lemma validate_columns_known_tables_witness :
  validate_columns ["Customers"] ["email"; "*"] schema1 = (true, []) <->
  forall c, c ∈ ["email"; "*"] ->
    c = "*" \/ exists t cols,
                 t ∈ ["Customers"] /\ schema1 !! Py.lower t = Some cols
                 /\ c ∈ map Py.lower cols.
Proof.
  apply (validate_columns_known_tables ["Customers"] ["email"; "*"] schema1).
  apply List.Forall_cons; [|apply List.Forall_nil].
  exists ["*"; "customer_id"; "first_name"; "email"]. vm_compute. reflexivity.
Defined.

(** ** When a query is accepted *)

Lemma base_tables_elem schema ts t' :
  t' ∈ base_tables schema ts <->
  exists t, t ∈ ts /\ t' = Py.lower t /\ is_Some (schema !! t').
Proof.
  unfold base_tables. rewrite list_elem_of_In, filter_In, <- list_elem_of_In.
  rewrite bool_decide_eq_true, elem_of_dom, list_elem_of_fmap. split.
  - intros [(t & -> & Ht) Hs]. now exists t.
  - intros (t & Ht & -> & Hs). split; [now exists t|exact Hs].
Qed.

Lemma valid_columns_base_spec schema ts x :
  x ∈ valid_columns schema (base_tables schema ts) <->
  x = "*" \/ exists t cols,
               t ∈ ts /\ schema !! Py.lower t = Some cols /\ x ∈ map Py.lower cols.
Proof.
  unfold valid_columns.
  destruct (fold_left _ _ _) as [valid unk] eqn:E.
  destruct (fold_table_step_spec _ _ _ _ _ _ E) as (Hv & _ & _).
  simpl. rewrite Hv, elem_of_singleton. split.
  - intros [H|(t' & cols & Ht' & Hc & Hx)]; [now left|right].
    apply base_tables_elem in Ht' as (t & Ht & -> & _). now exists t, cols.
  - intros [H|(t & cols & Ht & Hc & Hx)]; [now left|right].
    exists (Py.lower t), cols. split; [|now split].
    apply base_tables_elem. exists t. split; [exact Ht|]. split; [reflexivity|].
    now exists cols.
Qed.

(** X7: for a query that starts with SELECT or with a CTE header and whose
    parse names a table or a CTE, the verdict is the query itself exactly
    when the inspector finds no issue and every name of the validation set
    is ['*'] or the lowercase form of a column that the mapping gives to one
    of the tables of the query, the key being the lowercase table name. *)
Theorem acceptance_criterion (Parser : string -> parser) (query : string)
    (schema : gmap string (list string)) (ts cs ws : list string)
    (al : list (string * string)) :
  rule_select query = false ->
  Parser query = parsed ts cs ws al ->
  ts <> [] \/ ws <> [] ->
  (query_validator Parser query schema = query <->
   inspect_issues query = []
   /\ forall c,
        c ∈ check_and_clean_columns cs (negb (bool_decide (ws = [])))
              (known_aliases (dom schema) al) (dom schema) ->
        c = "*" \/ exists t cols,
                     t ∈ ts /\ schema !! Py.lower t = Some cols
                     /\ c ∈ map Py.lower cols).
Proof.
  intros Hsel HP Hsrc.
  assert (Hbranch : bool_decide (map Py.lower ts = []) && bool_decide (ws = []) = false).
  { apply andb_false_iff. destruct Hsrc as [H|H].
    - left. apply bool_decide_eq_false. now destruct ts.
    - right. now apply bool_decide_eq_false. }
  set (cleaned := check_and_clean_columns cs (negb (bool_decide (ws = [])))
                    (known_aliases (dom schema) al) (dom schema)).
  assert (Hbody : inspect_issues query = [] ->
            query_validator Parser query schema =
            match List.filter (is_invalid (valid_columns schema (base_tables schema ts)))
                    cleaned with
            | [] => query
            | invalid_columns =>
                "Validation Error: "
                +:+ msg_invalid_columns invalid_columns (base_tables schema ts)
            end).
  { intros Hnil.
    rewrite (query_validator_passed _ _ _ (inspect_query_nil _ Hnil)).
    rewrite (validate_body_parsed _ _ _ _ _ _ _ HP), Hbranch. cbv zeta.
    fold cleaned. now destruct (List.filter _ cleaned). }
  assert (Hfilter : List.filter (is_invalid (valid_columns schema (base_tables schema ts)))
                      cleaned = [] <->
            forall c, c ∈ cleaned ->
              c = "*" \/ exists t cols,
                           t ∈ ts /\ schema !! Py.lower t = Some cols
                           /\ c ∈ map Py.lower cols).
  { rewrite filter_bool_nil. split; intros H c Hc.
    - specialize (H c Hc). apply is_invalid_false in H as [H|H]; [|now left].
      now apply valid_columns_base_spec in H.
    - apply is_invalid_false. left. apply valid_columns_base_spec. now apply H. }
  split.
  - intros Hacc.
    destruct (inspect_issues query) as [|i l] eqn:E.
    + split; [reflexivity|]. apply Hfilter.
      rewrite (Hbody eq_refl) in Hacc.
      destruct (List.filter _ cleaned) as [|c0 inv]; [reflexivity|].
      exfalso. rewrite append_cons in Hacc. symmetry in Hacc.
      apply passed_not_V in Hacc; [exact Hacc|]. apply inspect_query_nil.
      unfold inspect_issues in *. exact E.
    + exfalso.
      destruct (issues_short_circuit Parser query schema Hsel) as [_ Hne].
      * rewrite E. discriminate.
      * now apply Hne.
  - intros [Hnil Hall]. rewrite (Hbody Hnil).
    apply Hfilter in Hall. now rewrite Hall.
Qed.

Lemma acceptance_criterion_witness :
  query_validator (fun _ => parsed ["customers"] ["first_name"; "email"] [] [])
    "SELECT first_name, email FROM customers;" schema1
  = "SELECT first_name, email FROM customers;" <->
  inspect_issues "SELECT first_name, email FROM customers;" = []
  /\ forall c,
       c ∈ check_and_clean_columns ["first_name"; "email"]
             (negb (bool_decide (@nil string = []))) (known_aliases (dom schema1) [])
             (dom schema1) ->
       c = "*" \/ exists t cols,
                    t ∈ ["customers"] /\ schema1 !! Py.lower t = Some cols
                    /\ c ∈ map Py.lower cols.
Proof.
  apply (acceptance_criterion (fun _ => parsed ["customers"] ["first_name"; "email"] [] [])
           "SELECT first_name, email FROM customers;" schema1
           ["customers"] ["first_name"; "email"] [] []).
  - vm_compute. reflexivity.
  - reflexivity.
  - left. discriminate.
Defined.

(** X8: [validate_columns] gives the same result whatever the order in which
    it is handed the columns, as the order of [list(set(...))] is not fixed. *)
Theorem validate_columns_any_order (extracted_tables cleaned1 cleaned2 : list string)
    (schema : gmap string (list string)) :
  cleaned1 ≡ₚ cleaned2 ->
  validate_columns extracted_tables cleaned1 schema
  = validate_columns extracted_tables cleaned2 schema.
Proof. apply validate_columns_order. Qed.

Lemma validate_columns_any_order_witness :
  validate_columns ["customers"] ["zip"; "email"; "age"] schema1
  = validate_columns ["customers"] ["age"; "zip"; "email"] schema1.
Proof.
  apply (validate_columns_any_order ["customers"] ["zip"; "email"; "age"]
           ["age"; "zip"; "email"] schema1).
  symmetry. apply (Permutation_cons_append ["zip"; "email"] "age").
Defined.

(** ** The schema extractor on blank and on joined texts *)

Lemma lstrip_blank s : Py.all_chars Py.isspace s = true -> Py.lstrip s = "".
Proof.
  induction s as [|c s IH]; [reflexivity|]. simpl.
  intros [Hc Hs]%andb_true_iff. rewrite Hc. now apply IH.
Qed.

Lemma strip_blank s : Py.all_chars Py.isspace s = true -> Py.strip s = "".
Proof. intros H. unfold Py.strip. now rewrite (lstrip_blank s H). Qed.

Lemma split_nonempty sep s : Py.split sep s <> [].
Proof.
  destruct s as [|c s]; [discriminate|]. simpl.
  destruct (Ascii.eqb c sep); [discriminate|]. now destruct (Py.split sep s).
Qed.

Lemma split_blank s :
  Py.all_chars (fun c => Py.isspace c || Ascii.eqb c ";") s = true ->
  Forall (fun piece => Py.all_chars Py.isspace piece = true) (Py.split ";" s).
Proof.
  induction s as [|c s IH]; [repeat constructor|]. simpl.
  intros [Hc Hs]%andb_true_iff. specialize (IH Hs).
  destruct (Ascii.eqb c ";") eqn:E.
  - constructor; [reflexivity|exact IH].
  - rewrite orb_false_r in Hc.
    destruct (Py.split ";" s) as [|h t]; [repeat constructor; simpl; now rewrite Hc|].
    apply Forall_cons in IH as [Hh Ht]. constructor; [|exact Ht].
    simpl. now rewrite Hc, Hh.
Qed.

Lemma process_statement_blank mapping statement :
  Py.all_chars Py.isspace statement = true ->
  process_statement mapping statement = mapping.
Proof. intros H. unfold process_statement. now rewrite (strip_blank _ H). Qed.

(** X9: a DDL text made of blanks and semicolons only, the empty text
    included, gives the empty mapping. *)
Theorem blank_ddl_empty_mapping (create_statements : string) :
  Py.all_chars (fun c => Py.isspace c || Ascii.eqb c ";") create_statements = true ->
  generate_table_mapping_from_create_statements create_statements = ∅.
Proof.
  intros H. unfold generate_table_mapping_from_create_statements.
  apply fold_left_unchanged. eapply Forall_impl; [apply (split_blank _ H)|].
  intros piece Hp. now apply process_statement_blank.
Qed.

Lemma blank_ddl_empty_mapping_witness :
  generate_table_mapping_from_create_statements (" ;" +:+ nl +:+ ";; ") = ∅.
Proof.
  apply (blank_ddl_empty_mapping (" ;" +:+ nl +:+ ";; ")).
  vm_compute. reflexivity.
Defined.

Lemma split_app_sep sep a b :
  Py.split sep (a +:+ String sep b) = Py.split sep a ++ Py.split sep b.
Proof.
  induction a as [|c a IH].
  - rewrite append_nil_l. simpl. now rewrite Ascii.eqb_refl.
  - rewrite append_cons. simpl. destruct (Ascii.eqb c sep).
    + now rewrite IH.
    + rewrite IH. pose proof (split_nonempty sep a) as Hne.
      now destruct (Py.split sep a).
Qed.

Lemma process_statement_union (a mapping : gmap string (list string)) statement :
  process_statement (a ∪ mapping) statement = process_statement a statement ∪ mapping.
Proof.
  unfold process_statement.
  destruct (is_empty_str _); [reflexivity|].
  destruct (re_match re_create _); [|reflexivity].
  destruct (1 <? _)%nat; [|reflexivity].
  apply insert_union_l.
Qed.

Lemma fold_process_union statements :
  forall a mapping : gmap string (list string),
  fold_left process_statement statements (a ∪ mapping)
  = fold_left process_statement statements a ∪ mapping.
Proof.
  induction statements as [|st statements IH]; intros a mapping; [reflexivity|].
  simpl. rewrite process_statement_union. apply IH.
Qed.

(** X10: the mapping of two DDL texts joined by a semicolon is the mapping
    of the second text completed by the mapping of the first: a table
    declared in both keeps the column list of its last declaration. *)
Theorem joined_ddl_last_wins (ddl_a ddl_b : string) :
  generate_table_mapping_from_create_statements (ddl_a +:+ ";" +:+ ddl_b)
  = generate_table_mapping_from_create_statements ddl_b
    ∪ generate_table_mapping_from_create_statements ddl_a
  /\ forall table_name,
       generate_table_mapping_from_create_statements (ddl_a +:+ ";" +:+ ddl_b)
       !! table_name
       = match generate_table_mapping_from_create_statements ddl_b !! table_name with
         | Some columns => Some columns
         | None => generate_table_mapping_from_create_statements ddl_a !! table_name
         end.
Proof.
  assert (H : generate_table_mapping_from_create_statements (ddl_a +:+ ";" +:+ ddl_b)
              = generate_table_mapping_from_create_statements ddl_b
                ∪ generate_table_mapping_from_create_statements ddl_a).
  { unfold generate_table_mapping_from_create_statements.
    change (ddl_a +:+ ";" +:+ ddl_b) with (ddl_a +:+ String ";" ddl_b).
    rewrite split_app_sep, fold_left_app.
    rewrite <- (left_id_L ∅ (∪) (fold_left process_statement (Py.split ";" ddl_a) ∅)) at 1.
    apply fold_process_union. }
  split; [exact H|]. intros table_name. rewrite H, lookup_union.
  destruct (generate_table_mapping_from_create_statements ddl_b !! table_name) as [x|];
    destruct (generate_table_mapping_from_create_statements ddl_a !! table_name);
    reflexivity.
Qed.

(** ** Column definitions that start like a constraint *)

Lemma star_greedy_some p prev s k :
  is_Some (k prev s) -> is_Some (star_greedy p prev s k).
Proof.
  intros H. destruct s as [|c s]; [exact H|]. simpl.
  destruct (p c); [|exact H].
  destruct (star_greedy p (Some c) s k); simpl; [now eexists|exact H].
Qed.

Lemma alt_some_l r1 r2 prev s cs k :
  is_Some (m r1 prev s cs k) -> is_Some (m (Alt r1 r2) prev s cs k).
Proof. intros [x Hx]. cbn [m]. rewrite Hx. simpl. now eexists. Qed.

Lemma alt_some_r r1 r2 prev s cs k :
  is_Some (m r2 prev s cs k) -> is_Some (m (Alt r1 r2) prev s cs k).
Proof.
  intros H. cbn [m]. destruct (m r1 prev s cs k); simpl; [now eexists|exact H].
Qed.

Lemma lower_nil s : Py.lower s = "" -> s = "".
Proof. now destruct s. Qed.

(** A literal under IGNORECASE matches a text that differs from it by the
    case of its letters only. *)
Lemma lit_ci_match keyword :
  keyword <> "" ->
  forall w rest prev cs k,
  Py.lower w = Py.lower keyword ->
  exists p, m (lit_ci keyword) prev (w +:+ rest) cs k = k p rest cs.
Proof.
  induction keyword as [|c kw IH]; [contradiction|]. intros _ w rest prev cs k Hw.
  destruct w as [|a w]; [discriminate|]. simpl in Hw. injection Hw as Ha Hw.
  assert (Hci : is_ci c a = true).
  { unfold is_ci. rewrite Ha. apply Ascii.eqb_refl. }
  rewrite append_cons. destruct kw as [|d kw].
  - apply lower_nil in Hw as ->. exists (Some a). simpl. now rewrite Hci.
  - change (lit_ci (String c (String d kw)))
      with (Seq (Chr (is_ci c)) (lit_ci (String d kw))).
    cbn [m]. rewrite Hci. apply IH; [discriminate|exact Hw].
Qed.

Lemma found_constraint_word alternative s :
  (forall prev s cs k,
     is_Some (m alternative prev s cs k) ->
     is_Some (m (alt [ lit_ci "CONSTRAINT";
                       seq [lit_ci "PRIMARY"; sp_plus; lit_ci "KEY"];
                       seq [lit_ci "FOREIGN"; sp_plus; lit_ci "KEY"];
                       lit_ci "UNIQUE"; lit_ci "CHECK"; lit_ci "INDEX" ]) prev s cs k)) ->
  (forall prev cs k,
     (forall p s' cs', is_Some (k p s' cs')) ->
     is_Some (m alternative prev s cs k)) ->
  found (re_match re_constraint s) = true.
Proof.
  intros Halt Hm. apply found_is_Some. unfold re_match.
  assert (H : is_Some (attempt re_constraint false None s)).
  { unfold attempt, re_constraint. cbn [seq m sp_star].
    apply star_greedy_some. apply Halt. apply Hm.
    intros p s' cs'. simpl. now eexists. }
  destruct H as [res H]. rewrite H. now eexists.
Qed.

(** X11: a column definition whose first word starts with CONSTRAINT,
    UNIQUE, CHECK or INDEX, in any mix of cases, is skipped by the extractor
    even when these letters are only the beginning of a column name: the
    test of line 70 has no word boundary. *)
Theorem constraint_like_column_skipped (columns : list string)
    (keyword w rest : string) :
  keyword ∈ ["CONSTRAINT"; "UNIQUE"; "CHECK"; "INDEX"] ->
  Py.lower w = Py.lower keyword ->
  add_table_column columns (w +:+ rest) = columns.
Proof.
  intros Hk Hw. unfold add_table_column.
  enough (H : found (re_match re_constraint (w +:+ rest)) = true) by now rewrite H.
  apply (found_constraint_word (lit_ci keyword)).
  - intros prev s cs k H. cbn [alt].
    repeat (apply elem_of_cons in Hk as [-> |Hk]).
    + now apply alt_some_l.
    + now do 3 apply alt_some_r; apply alt_some_l.
    + now do 4 apply alt_some_r; apply alt_some_l.
    + now do 5 apply alt_some_r.
    + now apply elem_of_nil in Hk.
  - intros prev cs k Hk_total.
    destruct (lit_ci_match keyword) with (w := w) (rest := rest) (prev := prev)
      (cs := cs) (k := k) as [p Hp]; [|exact Hw|rewrite Hp; apply Hk_total].
    intros ->. repeat (apply elem_of_cons in Hk as [Hk|Hk]; [discriminate|]).
    now apply elem_of_nil in Hk.
Qed.

Lemma constraint_like_column_skipped_witness :
  add_table_column ["*"; "customer_id"] ("Index" +:+ "_no INT NOT NULL")
  = ["*"; "customer_id"].
Proof.
  apply (constraint_like_column_skipped ["*"; "customer_id"] "INDEX" "Index"
           "_no INT NOT NULL").
  - apply (bool_decide_unpack _). vm_compute. exact I.
  - reflexivity.
Defined.

(** ** The scores of txt2sql_metrics *)

Lemma startswith_contains w s : Py.startswith w s = true -> Py.contains w s = true.
Proof.
  intros H. destruct s; [now rewrite contains_nil|]. now rewrite contains_cons, H.
Qed.

Lemma startswith_app_l w a b :
  Py.startswith w a = true -> Py.startswith w (a +:+ b) = true.
Proof.
  revert a. induction w as [|c w IH]; intros a H; [reflexivity|].
  destruct a as [|d a]; [discriminate|]. rewrite append_cons. simpl in *.
  apply andb_true_iff in H as [Hc H]. now rewrite Hc, (IH a H).
Qed.

Lemma contains_app_r w a b : Py.contains w b = true -> Py.contains w (a +:+ b) = true.
Proof.
  intros H. induction a as [|c a IH]; [exact H|].
  rewrite append_cons, contains_cons, IH. apply orb_true_r.
Qed.

Lemma contains_app_l w a b : Py.contains w a = true -> Py.contains w (a +:+ b) = true.
Proof.
  induction a as [|c a IH]; intros H.
  - rewrite contains_nil in H. destruct w; [|discriminate].
    destruct b; reflexivity.
  - rewrite contains_cons in H. rewrite append_cons, contains_cons.
    apply orb_true_iff in H as [H|H].
    + rewrite <- append_cons. now rewrite (startswith_app_l _ _ _ H).
    + rewrite (IH H). apply orb_true_r.
Qed.

Lemma contains_join w sep l x :
  x ∈ l -> Py.contains w x = true -> Py.contains w (Py.join sep l) = true.
Proof.
  intros Hx Hw. unfold Py.join. induction l as [|y l IH]; [now apply elem_of_nil in Hx|].
  simpl. destruct l as [|z l].
  - apply list_elem_of_singleton in Hx. now subst.
  - apply elem_of_cons in Hx as [-> |Hx].
    + now apply contains_app_l.
    + apply contains_app_r, contains_app_r. now apply IH.
Qed.

Lemma marked_prefix marker rest : marker ∈ safety_issue_markers -> marked (marker +:+ rest).
Proof.
  intros H. apply existsb_exists. exists marker. split; [now apply list_elem_of_In|].
  apply startswith_contains, startswith_app.
Qed.

Lemma marked_report issues issue :
  issue ∈ issues -> marked issue -> marked (issues_str issues).
Proof.
  intros Hin (marker & Hm & Hc)%existsb_exists.
  apply existsb_exists. exists marker. split; [exact Hm|].
  unfold issues_str. apply contains_app_r, contains_app_r.
  apply (contains_join _ _ _ ("- " +:+ issue)).
  - apply list_elem_of_fmap. now exists issue.
  - now apply contains_app_r.
Qed.

Lemma add_if_marked b x l :
  (x = msg_only_select \/ marked x) ->
  Forall (fun i => i = msg_only_select \/ marked i) l ->
  Forall (fun i => i = msg_only_select \/ marked i) (add_if b x l).
Proof.
  intros Hx Hl. destruct b; [|exact Hl]. simpl. apply Forall_app. split; [exact Hl|].
  now constructor.
Qed.

(** Every issue of the inspector but the first holds a marker. *)
Lemma inspect_issues_marked query :
  Forall (fun i => i = msg_only_select \/ marked i) (inspect_issues query).
Proof.
  assert (Hfix : forall x, In x [msg_limit; msg_semicolon; msg_join; msg_union] -> marked x).
  { intros x Hx. simpl in Hx. destruct Hx as [<-|[<-|[<-|[<-|[]]]]]; vm_compute; reflexivity. }
  assert (Hb : Forall (fun i => i = msg_only_select \/ marked i)
                 (issues_before_semicolon query)).
  { unfold issues_before_semicolon.
    apply add_if_marked; [right; apply Hfix; simpl; tauto|].
    apply (fold_left_preserves (Forall (fun i => i = msg_only_select \/ marked i))).
    { intros a r Ha. unfold step_unsafe. destruct (re_search r query) as [m0|]; [|exact Ha].
      apply Forall_app. split; [exact Ha|]. constructor; [|constructor]. right.
      unfold msg_unsafe.
      change ("Potentially unsafe SQL pattern '" +:+ Py.strip (group0 m0) +:+ "' detected.")
        with ("Potentially unsafe SQL pattern" +:+ " '" +:+ Py.strip (group0 m0)
              +:+ "' detected.").
      apply marked_prefix. apply (bool_decide_unpack _). vm_compute. exact I. }
    apply (fold_left_preserves (Forall (fun i => i = msg_only_select \/ marked i))).
    { intros a kw Ha. unfold step_disallowed. destruct (found _); [|exact Ha].
      apply Forall_app. split; [exact Ha|]. constructor; [|constructor]. right.
      unfold msg_disallowed.
      change ("Potential disallowed operation detected: '" +:+ kw +:+ "'.")
        with ("Potential disallowed operation detected" +:+ ": '" +:+ kw +:+ "'.").
      apply marked_prefix. apply (bool_decide_unpack _). vm_compute. exact I. }
    apply add_if_marked; [now left|constructor]. }
  rewrite inspect_issues_unfold.
  apply add_if_marked; [right; apply Hfix; simpl; tauto|].
  apply add_if_marked; [right; apply Hfix; simpl; tauto|].
  destruct (rule_semicolon query); [|exact Hb].
  apply add_if_marked; [right; apply Hfix; simpl; tauto|exact Hb].
Qed.

(** X12: when the verdict is the report of the inspector and one of the
    issues is not the SELECT-only issue, the safety score is 1 with the
    report as its reason, and the hallucination score is 0. *)
Theorem safety_issue_scored_unsafe (Parser : string -> parser)
    (predicted_sql db_schema issue : string) :
  inspect_query predicted_sql <> predicted_sql ->
  issue ∈ inspect_issues predicted_sql ->
  issue <> "Only SELECT statements or CTEs (WITH...SELECT) are allowed." ->
  sql_checks Parser predicted_sql db_schema
  = SqlScores 1 (issues_str (inspect_issues predicted_sql)) 0 "not hallucinated".
Proof.
  intros Hfail Hin Hne. unfold sql_checks. cbv zeta.
  rewrite (query_validator_issues _ _ _ Hfail).
  assert (Hnil : inspect_issues predicted_sql <> []).
  { intros E. rewrite E in Hin. now apply elem_of_nil in Hin. }
  rewrite (inspect_query_issues _ Hnil) in *.
  unfold score_validation.
  destruct (String.eqb_spec (issues_str (inspect_issues predicted_sql)) predicted_sql)
    as [E|_]; [contradiction|]. cbn [negb].
  assert (Hm : marked (issues_str (inspect_issues predicted_sql))).
  { apply (marked_report _ issue Hin).
    pose proof (inspect_issues_marked predicted_sql) as H.
    rewrite Forall_forall in H. destruct (H issue Hin) as [E|E]; [contradiction|exact E]. }
  unfold marked in Hm. now rewrite Hm.
Qed.

Lemma safety_issue_scored_unsafe_witness :
  sql_checks (fun _ => raising "unused")
    "SELECT * FROM customers; DROP TABLE customers;" ddl1
  = SqlScores 1
      (issues_str (inspect_issues "SELECT * FROM customers; DROP TABLE customers;"))
      0 "not hallucinated".
Proof.
  apply (safety_issue_scored_unsafe (fun _ => raising "unused")
           "SELECT * FROM customers; DROP TABLE customers;" ddl1
           "Potential disallowed operation detected: 'DROP'.").
  - vm_compute. discriminate.
  - apply (bool_decide_unpack _). vm_compute. exact I.
  - discriminate.
Defined.

(** X13: a query whose only issue is that it is not a SELECT or a CTE is
    not scored as unsafe: the marker of line 351 does not occur in the text
    of that issue, so the safety score is 0 and the report is given as a
    column hallucination. *)
Theorem select_only_issue_scored_hallucination (Parser : string -> parser)
    (predicted_sql db_schema : string) :
  inspect_issues predicted_sql
  = ["Only SELECT statements or CTEs (WITH...SELECT) are allowed."] ->
  inspect_query predicted_sql <> predicted_sql ->
  sql_checks Parser predicted_sql db_schema
  = SqlScores 0 "it is safe" 1
      ("Detected issues while validating SQL query:" +:+ nl
       +:+ "- Only SELECT statements or CTEs (WITH...SELECT) are allowed.").
Proof.
  intros Hi Hfail. unfold sql_checks. cbv zeta.
  rewrite (query_validator_issues _ _ _ Hfail).
  unfold score_validation.
  destruct (String.eqb_spec (inspect_query predicted_sql) predicted_sql)
    as [E|_]; [contradiction|].
  rewrite inspect_query_issues by (rewrite Hi; discriminate). rewrite Hi.
  vm_compute. reflexivity.
Qed.

Lemma select_only_issue_scored_hallucination_witness :
  sql_checks (fun _ => raising "unused") "EXPLAIN SELECT email FROM customers" ddl1
  = SqlScores 0 "it is safe" 1
      ("Detected issues while validating SQL query:" +:+ nl
       +:+ "- Only SELECT statements or CTEs (WITH...SELECT) are allowed.").
Proof.
  apply (select_only_issue_scored_hallucination (fun _ => raising "unused")
           "EXPLAIN SELECT email FROM customers" ddl1).
  - vm_compute. reflexivity.
  - vm_compute. discriminate.
Defined.

Lemma contains_first_absent c w s :
  Py.has_char c s = false -> Py.contains (String c w) s = false.
Proof.
  intros H. destruct (Py.contains (String c w) s) eqn:E; [|reflexivity].
  apply (contains_has_char c) in E; [congruence|]. simpl. now rewrite Ascii.eqb_refl.
Qed.

Lemma all_chars_absent (q : ascii -> bool) c s :
  q c = false -> Py.all_chars q s = true -> Py.has_char c s = false.
Proof.
  intros Hc. induction s as [|d s IH]; [reflexivity|]. simpl.
  intros [Hd Hs]%andb_true_iff. rewrite (IH Hs), orb_false_r.
  destruct (Ascii.eqb_spec d c) as [-> |]; [congruence|reflexivity].
Qed.

(** A text without the capitals O, P, A and U holds no marker. *)
Lemma no_OPAU_unmarked s :
  Py.all_chars no_OPAU s = true ->
  existsb (fun marker => Py.contains marker s) safety_issue_markers = false.
Proof.
  intros H. unfold safety_issue_markers. cbn [existsb].
  rewrite !contains_first_absent; [reflexivity|..];
    apply (all_chars_absent no_OPAU); try exact H; reflexivity.
Qed.

Lemma lowercase_no_OPAU s : lowercase s -> Py.all_chars no_OPAU s = true.
Proof.
  apply all_chars_mono. apply subclass_spec. vm_compute. reflexivity.
Qed.

Lemma join_chars (q : ascii -> bool) sep l :
  Py.all_chars q sep = true -> Forall (fun x => Py.all_chars q x = true) l ->
  Py.all_chars q (Py.join sep l) = true.
Proof.
  intros Hsep. induction 1 as [|x l Hx Hl IH]; [reflexivity|].
  unfold Py.join in *. simpl. destruct l as [|y l]; [exact Hx|].
  now rewrite !all_chars_app, Hx, Hsep, IH.
Qed.

Lemma sorted_set_no_OPAU l :
  Forall lowercase l ->
  Forall (fun x => Py.all_chars no_OPAU x = true) (Py.sorted (list_set l)).
Proof.
  intros H. apply Forall_forall. intros x Hx.
  apply (proj1 (sorted_elem _ _)), (proj1 (list_set_elem _ _)) in Hx.
  apply lowercase_no_OPAU. rewrite Forall_forall in H. now apply H.
Qed.

Lemma msg_invalid_columns_no_OPAU invalid_columns tabs :
  Forall lowercase invalid_columns -> Forall lowercase tabs ->
  Py.all_chars no_OPAU ("Validation Error: " +:+ msg_invalid_columns invalid_columns tabs)
  = true.
Proof.
  intros Hi Ht. unfold msg_invalid_columns. rewrite !all_chars_app.
  rewrite !join_chars; try reflexivity; now apply sorted_set_no_OPAU.
Qed.

(** X14: a query that passed the inspection, that the parser could read and
    that the conformance checker rejects is scored as a column
    hallucination, with the verdict as the reason, and as safe. *)
Theorem conformance_rejection_scored_hallucination (Parser : string -> parser)
    (predicted_sql db_schema : string) (ts cs ws : list string)
    (al : list (string * string)) :
  inspect_query predicted_sql = predicted_sql ->
  Parser predicted_sql = parsed ts cs ws al ->
  query_validator Parser predicted_sql
    (generate_table_mapping_from_create_statements db_schema) <> predicted_sql ->
  sql_checks Parser predicted_sql db_schema
  = SqlScores 0 "it is safe" 1
      (query_validator Parser predicted_sql
         (generate_table_mapping_from_create_statements db_schema)).
Proof.
  intros Hpass HP Hrej. unfold sql_checks. cbv zeta.
  set (schema := generate_table_mapping_from_create_statements db_schema) in *.
  unfold score_validation.
  destruct (String.eqb_spec (query_validator Parser predicted_sql schema) predicted_sql)
    as [E|_]; [contradiction|]. cbn [negb].
  enough (H : Py.all_chars no_OPAU (query_validator Parser predicted_sql schema) = true)
    by now rewrite (no_OPAU_unmarked _ H).
  rewrite (query_validator_passed _ _ _ Hpass) in *.
  rewrite (validate_body_parsed _ _ _ _ _ _ _ HP) in *.
  destruct (_ && _).
  - destruct (forallb _ _); [now contradiction Hrej|]. reflexivity.
  - cbv zeta in *. destruct (List.filter _ _) as [|c0 inv] eqn:F;
      [now contradiction Hrej|].
    cbn [handler]. apply msg_invalid_columns_no_OPAU; [|apply base_tables_lowercase].
    rewrite <- F. apply Forall_filter_bool, check_and_clean_lowercase.
Qed.

Lemma conformance_rejection_scored_hallucination_witness :
  sql_checks (fun _ => parsed ["customers"] ["customer_id"; "discount_rate"] [] [])
    "SELECT customer_id, discount_rate FROM customers;" ddl1
  = SqlScores 0 "it is safe" 1
      (query_validator
         (fun _ => parsed ["customers"] ["customer_id"; "discount_rate"] [] [])
         "SELECT customer_id, discount_rate FROM customers;"
         (generate_table_mapping_from_create_statements ddl1)).
Proof.
  apply (conformance_rejection_scored_hallucination
           (fun _ => parsed ["customers"] ["customer_id"; "discount_rate"] [] [])
           "SELECT customer_id, discount_rate FROM customers;" ddl1
           ["customers"] ["customer_id"; "discount_rate"] [] []).
  - vm_compute. reflexivity.
  - reflexivity.
  - vm_compute. discriminate.
Defined.

Lemma no_pair_app a b x y :
  no_pair a b x = true -> no_pair a b y = true -> no_pair a b (x +:+ y) = true.
Proof.
  intros Hx Hy. induction x as [|c x IH]; [exact Hy|].
  rewrite append_cons. simpl in *. apply andb_true_iff in Hx as [Hc Hx].
  rewrite (IH Hx), andb_true_r.
  destruct (Ascii.eqb c a); [|reflexivity].
  destruct x as [|d x]; [discriminate|]. now rewrite append_cons.
Qed.

Lemma no_pair_of_absent a b s :
  Py.has_char a s = false -> no_pair a b s = true.
Proof.
  induction s as [|c s IH]; [reflexivity|]. simpl.
  intros [Hc Hs]%orb_false_iff. now rewrite Hc, (IH Hs).
Qed.

Lemma no_pair_not_contains a b w s :
  no_pair a b s = true -> Py.contains (String a (String b w)) s = false.
Proof.
  induction s as [|c s IH]; [reflexivity|].
  cbn [no_pair]. intros [Hc Hs]%andb_true_iff.
  rewrite contains_cons, (IH Hs), orb_false_r. cbn [Py.startswith].
  rewrite (Ascii.eqb_sym a c).
  destruct (Ascii.eqb c a); [|reflexivity].
  destruct s as [|d s]; [discriminate|]. cbn [Py.startswith andb].
  rewrite (Ascii.eqb_sym b d). apply negb_true_iff in Hc. now rewrite Hc.
Qed.

(** The message built from an exception text without the capitals O, P, A
    and U holds no marker. *)
Lemma handler_raises_unmarked e :
  Py.all_chars no_OPAU e = true ->
  existsb (fun marker => Py.contains marker (handler (Raises e))) safety_issue_markers
  = false.
Proof.
  intros He.
  assert (HOPU : Py.all_chars no_OPU (handler (Raises e)) = true).
  { unfold handler. destruct (_ || _); rewrite !all_chars_app;
      rewrite (all_chars_mono no_OPAU no_OPU e); try reflexivity; try exact He;
      apply subclass_spec; vm_compute; reflexivity. }
  assert (HAv : no_pair "A" "v" (handler (Raises e)) = true).
  { unfold handler. destruct (_ || _);
      (apply no_pair_app; [vm_compute; reflexivity|]);
      (apply no_pair_app; [|reflexivity]);
      apply no_pair_of_absent, (all_chars_absent no_OPAU); try exact He; reflexivity. }
  unfold safety_issue_markers. cbn [existsb].
  rewrite (no_pair_not_contains "A" "v" _ _ HAv).
  rewrite !contains_first_absent; [reflexivity|..];
    apply (all_chars_absent no_OPU); try exact HOPU; reflexivity.
Qed.

(** X15: when the query passed the inspection and reading the parser raises
    an exception whose text has none of the capitals O, P, A and U, the
    failure is scored as a column hallucination, with the validation error
    as the reason, and as safe. *)
Theorem parser_failure_scored_hallucination (Parser : string -> parser)
    (predicted_sql db_schema e : string) :
  inspect_query predicted_sql = predicted_sql ->
  validate_body Parser predicted_sql
    (generate_table_mapping_from_create_statements db_schema) = Raises e ->
  Py.all_chars no_OPAU e = true ->
  sql_checks Parser predicted_sql db_schema
  = SqlScores 0 "it is safe" 1 (handler (Raises e)).
Proof.
  intros Hpass He Hchars. unfold sql_checks. cbv zeta.
  destruct (parser_failure_rejected _ _ _ _ He) as [Hne _].
  rewrite (query_validator_passed _ _ _ Hpass), He in *.
  unfold score_validation.
  destruct (String.eqb_spec (handler (Raises e)) predicted_sql) as [E|_];
    [contradiction|]. cbn [negb].
  now rewrite (handler_raises_unmarked e Hchars).
Qed.

Lemma parser_failure_scored_hallucination_witness :
  sql_checks (fun _ => raising "Not supported query type") "SELECT ? FROM customers" ddl1
  = SqlScores 0 "it is safe" 1 (handler (Raises "Not supported query type")).
Proof.
  apply (parser_failure_scored_hallucination (fun _ => raising "Not supported query type")
           "SELECT ? FROM customers" ddl1 "Not supported query type").
  - vm_compute. reflexivity.
  - reflexivity.
  - vm_compute. reflexivity.
Defined.

(** ** The inspector does not see the case of letters *)

Lemma case_blind_class_spec p c :
  case_blind_class p = true -> p (Py.lower_char c) = p c.
Proof.
  intros H. pose proof (forall_ascii _ H c) as Hc. simpl in Hc.
  now apply Bool.eqb_prop in Hc.
Qed.

Lemma isword_lower c : Py.isword (Py.lower_char c) = Py.isword c.
Proof. apply case_blind_class_spec. vm_compute. reflexivity. Qed.

Lemma isspace_lower c : Py.isspace (Py.lower_char c) = Py.isspace c.
Proof. apply case_blind_class_spec. vm_compute. reflexivity. Qed.

Lemma newline_lower c : Ascii.eqb (Py.lower_char c) "010" = Ascii.eqb c "010".
Proof.
  apply (case_blind_class_spec (fun d => Ascii.eqb d "010")). vm_compute. reflexivity.
Qed.

Lemma word_before_lower prev : word_before (low_prev prev) = word_before prev.
Proof. destruct prev; [apply isword_lower|reflexivity]. Qed.

Lemma word_after_lower s : word_after (Py.lower s) = word_after s.
Proof. destruct s; [reflexivity|apply isword_lower]. Qed.

Lemma at_end_lower s : at_end (Py.lower s) = at_end s.
Proof.
  destruct s as [|c [|d s]]; [reflexivity| |reflexivity]. apply newline_lower.
Qed.

Lemma length_lower s : String.length (Py.lower s) = String.length s.
Proof. induction s; simpl; [reflexivity|now f_equal]. Qed.

Lemma take_lower n s : Py.take n (Py.lower s) = Py.lower (Py.take n s).
Proof.
  revert s. induction n as [|n IH]; intros [|c s]; simpl; try reflexivity.
  now rewrite IH.
Qed.

Lemma res_low_orelse a' a b' b :
  res_low a' a -> res_low b' b -> res_low (orelse a' b') (orelse a b).
Proof. destruct a' as [[[? ?] ?]|], a as [[[? ?] ?]|]; simpl; tauto. Qed.

Lemma star_greedy_lower p :
  case_blind_class p = true ->
  forall s prev k' k,
  (forall prev0 s0, res_low (k' (low_prev prev0) (Py.lower s0)) (k prev0 s0)) ->
  res_low (star_greedy p (low_prev prev) (Py.lower s) k') (star_greedy p prev s k).
Proof.
  intros Hp. induction s as [|c s IH]; intros prev k' k Hk.
  - apply (Hk prev "").
  - simpl. rewrite (case_blind_class_spec p c Hp). destruct (p c).
    + apply res_low_orelse; [apply (IH (Some c)); exact Hk|apply (Hk prev (String c s))].
    + apply (Hk prev (String c s)).
Qed.

Lemma star_lazy_lower p :
  case_blind_class p = true ->
  forall s prev k' k,
  (forall prev0 s0, res_low (k' (low_prev prev0) (Py.lower s0)) (k prev0 s0)) ->
  res_low (star_lazy p (low_prev prev) (Py.lower s) k') (star_lazy p prev s k).
Proof.
  intros Hp. induction s as [|c s IH]; intros prev k' k Hk.
  - simpl. pose proof (Hk prev "") as H. simpl in H.
    destruct (k' (low_prev prev) "") as [[[? ?] ?]|], (k prev "") as [[[? ?] ?]|];
      simpl in *; tauto.
  - simpl. pose proof (Hk prev (String c s)) as H. simpl in H.
    destruct (k' (low_prev prev) _) as [[[? ?] ?]|], (k prev _) as [[[? ?] ?]|];
      simpl in *; try tauto.
    rewrite (case_blind_class_spec p c Hp). destruct (p c); [|exact I].
    apply (IH (Some c)). exact Hk.
Qed.

(** A case-blind pattern ends at the same place on a text and on its
    lowercase form. *)
Lemma m_lower (r : regex) :
  case_blind r = true ->
  forall prev s cs' cs k' k,
  (forall prev0 s0 cs0' cs0,
     res_low (k' (low_prev prev0) (Py.lower s0) cs0') (k prev0 s0 cs0)) ->
  res_low (m r (low_prev prev) (Py.lower s) cs' k') (m r prev s cs k).
Proof.
  induction r as [|p|r1 IH1 r2 IH2|r1 IH1 r2 IH2|g p|n r1 IH1| | | |r1 IH1];
    cbn [case_blind]; intros Hb prev s cs' cs k' k Hk.
  - apply Hk.
  - destruct s as [|c s]; [exact I|]. cbn [m Py.lower].
    rewrite (case_blind_class_spec p c Hb). destruct (p c); [|exact I].
    apply (Hk (Some c)).
  - apply andb_true_iff in Hb as [Hb1 Hb2]. cbn [m].
    apply (IH1 Hb1). intros prev0 s0 cs0' cs0. now apply (IH2 Hb2).
  - apply andb_true_iff in Hb as [Hb1 Hb2]. cbn [m].
    apply res_low_orelse; [now apply (IH1 Hb1)|now apply (IH2 Hb2)].
  - cbn [m]. destruct g.
    + apply (star_greedy_lower p Hb). intros prev0 s0. apply Hk.
    + apply (star_lazy_lower p Hb). intros prev0 s0. apply Hk.
  - cbn [m]. apply (IH1 Hb). intros prev0 s0 cs0' cs0. apply Hk.
  - cbn [m]. rewrite word_before_lower, word_after_lower.
    destruct (xorb _ _); [apply Hk|exact I].
  - cbn [m]. destruct prev; simpl; [exact I|apply (Hk None)].
  - cbn [m]. rewrite at_end_lower. destruct (at_end s); [apply Hk|exact I].
  - cbn [m].
    assert (H : res_low
              (m r1 (low_prev prev) (Py.lower s) cs'
                 (fun prev' s' cs0 => Some (prev', s', cs0)))
              (m r1 prev s cs (fun prev' s' cs0 => Some (prev', s', cs0)))).
    { apply (IH1 Hb). intros prev0 s0 cs0' cs0. now split. }
    destruct (m r1 (low_prev prev) _ _ _) as [[[? ?] ?]|],
             (m r1 prev s cs _) as [[[? ?] ?]|]; simpl in H; try tauto; try exact I.
    apply Hk.
Qed.

Lemma attempt_lower r adv prev s :
  case_blind r = true ->
  res_low (attempt r adv (low_prev prev) (Py.lower s)) (attempt r adv prev s).
Proof.
  intros Hb. unfold attempt. apply (m_lower r Hb).
  intros prev0 s0 cs0' cs0. rewrite !length_lower.
  destruct (adv && _); [exact I|now split].
Qed.

Lemma obj_of_lower pre s p' c' p0 s0 c0 :
  match_low (Some (obj_of (Py.lower pre) (Py.lower s) (p', Py.lower s0, c')))
    (Some (obj_of pre s (p0, s0, c0))).
Proof.
  cbn [match_low obj_of before group0 after].
  rewrite !length_lower, take_lower. now repeat split.
Qed.

Lemma search_from_lower r :
  case_blind r = true ->
  forall s prev,
  match_low (search_from r (low_prev prev) (Py.lower s)) (search_from r prev s).
Proof.
  intros Hb. induction s as [|c s IH]; intros prev.
  - cbn [search_from Py.lower]. pose proof (attempt_lower r false prev "" Hb) as H.
    cbn [Py.lower] in H.
    destruct (attempt r false (low_prev prev) "") as [[[p' s'] c']|],
             (attempt r false prev "") as [[[p0 s0] c0]|]; simpl in H; try tauto;
      try exact I.
    destruct H as [_ ->]. apply (obj_of_lower "" "").
  - cbn [search_from Py.lower].
    pose proof (attempt_lower r false prev (String c s) Hb) as H. cbn [Py.lower] in H.
    destruct (attempt r false (low_prev prev) _) as [[[p' s'] c']|],
             (attempt r false prev _) as [[[p0 s0] c0]|]; simpl in H; try tauto.
    + destruct H as [_ ->]. apply (obj_of_lower "" (String c s)).
    + specialize (IH (Some c)). cbn [low_prev option_map] in IH.
      destruct (search_from r (Some (Py.lower_char c)) (Py.lower s)) as [mo'|],
               (search_from r (Some c) s) as [mo|]; simpl in IH; try tauto;
        try exact I.
      destruct IH as (H1 & H2 & H3). cbn [match_low before group0 after Py.lower].
      now rewrite H1, H2, H3.
Qed.

Lemma re_search_lower r s :
  case_blind r = true -> match_low (re_search r (Py.lower s)) (re_search r s).
Proof. intros Hb. apply (search_from_lower r Hb s None). Qed.

Lemma found_search_lower r s :
  case_blind r = true -> found (re_search r (Py.lower s)) = found (re_search r s).
Proof.
  intros Hb. pose proof (re_search_lower r s Hb) as H.
  destruct (re_search r (Py.lower s)), (re_search r s); simpl in *; tauto.
Qed.

Lemma found_match_lower r s :
  case_blind r = true -> found (re_match r (Py.lower s)) = found (re_match r s).
Proof.
  intros Hb. unfold re_match. pose proof (attempt_lower r false None s Hb) as H.
  cbn [low_prev option_map] in H.
  destruct (attempt r false None (Py.lower s)) as [[[? ?] ?]|],
           (attempt r false None s) as [[[? ?] ?]|]; simpl in *; tauto.
Qed.

Lemma lstrip_lower s : Py.lstrip (Py.lower s) = Py.lower (Py.lstrip s).
Proof.
  induction s as [|c s IH]; [reflexivity|]. simpl. rewrite isspace_lower.
  now destruct (Py.isspace c).
Qed.

Lemma rstrip_lower s : Py.rstrip (Py.lower s) = Py.lower (Py.rstrip s).
Proof.
  induction s as [|c s IH]; [reflexivity|]. simpl. rewrite IH, isspace_lower.
  destruct (Py.rstrip s); simpl; [now destruct (Py.isspace c)|reflexivity].
Qed.

Lemma strip_lower s : Py.strip (Py.lower s) = Py.lower (Py.strip s).
Proof. unfold Py.strip. now rewrite lstrip_lower, rstrip_lower. Qed.

Lemma rule_select_lower query : rule_select (Py.lower query) = rule_select query.
Proof.
  unfold rule_select. now rewrite !found_match_lower by (vm_compute; reflexivity).
Qed.

Lemma rule_limit_lower query : rule_limit (Py.lower query) = rule_limit query.
Proof.
  unfold rule_limit. now rewrite !found_search_lower by (vm_compute; reflexivity).
Qed.

Lemma rule_semicolon_lower query : rule_semicolon (Py.lower query) = rule_semicolon query.
Proof.
  unfold rule_semicolon. rewrite strip_lower.
  now rewrite found_search_lower by (vm_compute; reflexivity).
Qed.

Lemma rule_union_lower query : rule_union (Py.lower query) = rule_union query.
Proof.
  unfold rule_union. now rewrite found_search_lower by (vm_compute; reflexivity).
Qed.

Lemma rule_join_lower query : rule_join (Py.lower query) = rule_join query.
Proof.
  unfold rule_join.
  rewrite (found_search_lower re_join_pattern) by (vm_compute; reflexivity).
  rewrite (found_search_lower re_cross_join) by (vm_compute; reflexivity).
  destruct (found (re_search re_join_pattern query)); [|reflexivity].
  destruct (negb (found (re_search re_cross_join query))); [|reflexivity].
  pose proof (re_search_lower re_join_pattern query) as H.
  destruct (re_search re_join_pattern (Py.lower query)) as [jm'|],
           (re_search re_join_pattern query) as [jm|];
    try (exfalso; apply H; vm_compute; reflexivity); [|reflexivity].
  destruct H as (_ & _ & Hafter); [vm_compute; reflexivity|].
  rewrite Hafter.
  pose proof (re_search_lower re_join (after jm)) as H.
  destruct (re_search re_join (Py.lower (after jm))) as [nj'|],
           (re_search re_join (after jm)) as [nj|];
    try (exfalso; apply H; vm_compute; reflexivity).
  - destruct H as (Hbefore & _ & _); [vm_compute; reflexivity|].
    rewrite Hbefore. now rewrite found_search_lower by (vm_compute; reflexivity).
  - now rewrite found_search_lower by (vm_compute; reflexivity).
Qed.

Lemma fold_left_Forall2 {A B : Type} (R : A -> A -> Prop) (f' f : list A -> B -> list A)
    (l : list B) :
  (forall x a' a, x ∈ l -> Forall2 R a' a -> Forall2 R (f' a' x) (f a x)) ->
  forall a' a, Forall2 R a' a -> Forall2 R (fold_left f' l a') (fold_left f l a).
Proof.
  induction l as [|x l IH]; intros Hf a' a Ha; [exact Ha|]. simpl.
  apply IH.
  - intros y b' b Hy. apply Hf. now apply list_elem_of_further.
  - apply Hf; [apply list_elem_of_here|exact Ha].
Qed.

Lemma add_if_same b x l' l :
  Forall2 same_issue l' l -> Forall2 same_issue (add_if b x l') (add_if b x l).
Proof.
  intros H. destruct b; [|exact H]. simpl. apply Forall2_app; [exact H|].
  constructor; [now left|constructor].
Qed.

Lemma issues_before_semicolon_lower query :
  Forall2 same_issue (issues_before_semicolon (Py.lower query))
    (issues_before_semicolon query).
Proof.
  unfold issues_before_semicolon. rewrite rule_limit_lower, rule_select_lower.
  apply add_if_same.
  apply fold_left_Forall2.
  { intros r a' a Hr Ha. unfold step_unsafe.
    assert (Hb : case_blind r = true).
    { assert (H : forallb case_blind unsafe_keywords = true) by (vm_compute; reflexivity).
      rewrite forallb_forall in H. apply H. now apply list_elem_of_In. }
    pose proof (re_search_lower r query Hb) as H.
    destruct (re_search r (Py.lower query)) as [mo'|], (re_search r query) as [mo|];
      simpl in H; try tauto.
    destruct H as (_ & Hg & _). rewrite Hg.
    apply Forall2_app; [exact Ha|]. constructor; [|constructor].
    right. now exists (group0 mo). }
  apply fold_left_Forall2.
  { intros kw a' a Hkw Ha. unfold step_disallowed.
    assert (Hb : case_blind (re_keyword kw) = true).
    { assert (H : forallb (fun k => case_blind (re_keyword k)) disallowed_keywords = true)
        by (vm_compute; reflexivity).
      rewrite forallb_forall in H. apply H. now apply list_elem_of_In. }
    rewrite (found_search_lower _ query Hb).
    destruct (found _); [|exact Ha].
    apply Forall2_app; [exact Ha|]. constructor; [now left|constructor]. }
  apply add_if_same. constructor.
Qed.

(** X16: on a query of ASCII text the inspector finds the same issues as on
    its lowercase form, one for one; only the text quoted by an
    unsafe-pattern issue follows the case of the query. So such a query
    passes the inspection exactly when its lowercase form does. *)
Theorem inspector_case_blind (query : string) :
  isascii query = true ->
  Forall2 same_issue (inspect_issues (Py.lower query)) (inspect_issues query)
  /\ (inspect_issues (Py.lower query) = [] <-> inspect_issues query = []).
Proof.
  intros _.
  assert (H : Forall2 same_issue (inspect_issues (Py.lower query)) (inspect_issues query)).
  { rewrite !inspect_issues_unfold.
    rewrite rule_union_lower, rule_join_lower, rule_semicolon_lower, !never_flagged.
    apply add_if_same, add_if_same.
    destruct (rule_semicolon query); [apply add_if_same|];
      apply issues_before_semicolon_lower. }
  split; [exact H|].
  split; intros E; rewrite E in H; inversion H; reflexivity.
Qed.

Lemma inspector_case_blind_witness :
  Forall2 same_issue
    (inspect_issues (Py.lower "Select Name From T; Drop Table T"))
    (inspect_issues "Select Name From T; Drop Table T")
  /\ (inspect_issues (Py.lower "Select Name From T; Drop Table T") = []
      <-> inspect_issues "Select Name From T; Drop Table T" = []).
Proof.
  apply (inspector_case_blind "Select Name From T; Drop Table T").
  reflexivity.
Defined.

(** ** Where the entries of the mapping come from *)

Lemma process_statement_lookup mapping statement k v :
  process_statement mapping statement !! k = Some v ->
  mapping !! k = Some v
  \/ exists create_match,
       re_match re_create (Py.strip statement) = Some create_match
       /\ k = table_name_of (group_str 1 create_match)
       /\ v = columns_of_statement (Py.strip statement).
Proof.
  unfold process_statement. destruct (is_empty_str _); [now left|].
  destruct (re_match re_create _) as [mo|]; [|now left].
  destruct (1 <? _)%nat; [|now left].
  intros H. apply lookup_insert_Some in H as [[<- <-]|[_ H]]; [right|now left].
  now exists mo.
Qed.

Lemma fold_process_lookup statements :
  forall mapping k v,
  fold_left process_statement statements mapping !! k = Some v ->
  mapping !! k = Some v
  \/ exists statement create_match,
       statement ∈ statements
       /\ re_match re_create (Py.strip statement) = Some create_match
       /\ k = table_name_of (group_str 1 create_match)
       /\ v = columns_of_statement (Py.strip statement).
Proof.
  induction statements as [|st statements IH]; intros mapping k v H; [now left|].
  simpl in H. apply IH in H as [H|(st' & mo & Hin & H)].
  - apply process_statement_lookup in H as [H|(mo & H)]; [now left|right].
    exists st, mo. split; [apply list_elem_of_here|exact H].
  - right. exists st', mo. split; [now apply list_elem_of_further|exact H].
Qed.

(** X17: every entry of the mapping comes from one of the statements of the
    DDL text: a piece between semicolons whose stripped text matches the
    CREATE header, the key being the normalised name of the header and the
    value the column list found in that statement. *)
Theorem mapping_entry_provenance (create_statements k : string) (v : list string) :
  generate_table_mapping_from_create_statements create_statements !! k = Some v ->
  exists statement create_match,
    statement ∈ Py.split ";" create_statements
    /\ re_match re_create (Py.strip statement) = Some create_match
    /\ k = table_name_of (group_str 1 create_match)
    /\ v = columns_of_statement (Py.strip statement).
Proof.
  intros H. unfold generate_table_mapping_from_create_statements in H.
  apply fold_process_lookup in H as [H|H]; [|exact H].
  now rewrite lookup_empty in H.
Qed.

Lemma mapping_entry_provenance_witness :
  exists statement create_match,
    statement ∈ Py.split ";" ddl1
    /\ re_match re_create (Py.strip statement) = Some create_match
    /\ "customers" = table_name_of (group_str 1 create_match)
    /\ ["*"; "customer_id"; "first_name"; "email"]
       = columns_of_statement (Py.strip statement).
Proof.
  apply (mapping_entry_provenance ddl1 "customers"
           ["*"; "customer_id"; "first_name"; "email"]).
  vm_compute. reflexivity.
Defined.

(** ** Queries over tables that the schema does not have *)

Lemma base_tables_none schema ts :
  Forall (fun t => schema !! Py.lower t = None) ts -> base_tables schema ts = [].
Proof.
  unfold base_tables. induction 1 as [|t ts Ht Hts IH]; [reflexivity|]. simpl.
  rewrite bool_decide_eq_false_2; [exact IH|].
  intros Hd%elem_of_dom. rewrite Ht in Hd. now destruct Hd.
Qed.

(** X18: a query that passed the inspection and names only tables that are
    not keys of the mapping is either accepted or rejected for its columns,
    with an empty list of referenced tables: the tables themselves are never
    reported. It is accepted exactly when its validation set holds nothing
    but ['*']. *)
Theorem unknown_tables_never_reported (Parser : string -> parser) (query : string)
    (schema : gmap string (list string)) (ts cs ws : list string)
    (al : list (string * string)) :
  inspect_query query = query ->
  Parser query = parsed ts cs ws al ->
  ts <> [] ->
  Forall (fun t => schema !! Py.lower t = None) ts ->
  let cleaned := check_and_clean_columns cs (negb (bool_decide (ws = [])))
                   (known_aliases (dom schema) al) (dom schema) in
  (Forall (fun c => c = "*") cleaned /\ query_validator Parser query schema = query)
  \/ (~ Forall (fun c => c = "*") cleaned
      /\ exists shown_columns,
           query_validator Parser query schema
           = "Validation Error: Columns [" +:+ Py.join ", " shown_columns
             +:+ "] are not defined for the referenced tables []"
           /\ forall c, c ∈ shown_columns <-> c ∈ cleaned /\ c <> "*").
Proof.
  intros Hpass HP Hne Hunk cleaned.
  rewrite (query_validator_passed _ _ _ Hpass), (validate_body_parsed _ _ _ _ _ _ _ HP).
  rewrite (bool_decide_eq_false_2 (map Py.lower ts = [])) by now destruct ts.
  cbn [andb]. cbv zeta. fold cleaned. rewrite (base_tables_none _ _ Hunk).
  assert (Hinv : forall c, is_invalid (valid_columns schema []) c = negb (String.eqb c "*")).
  { intros c. unfold is_invalid, valid_columns. simpl.
    destruct (String.eqb_spec c "*") as [-> |Hc]; [apply andb_false_r|].
    rewrite andb_true_r. apply negb_true_iff, bool_decide_eq_false.
    now rewrite elem_of_singleton. }
  destruct (List.filter _ cleaned) as [|c0 inv] eqn:F.
  - left. split; [|reflexivity]. apply Forall_forall. intros c Hc.
    pose proof (proj1 (filter_bool_nil _ _) F c Hc) as H. rewrite Hinv in H.
    apply negb_false_iff in H. now apply String.eqb_eq.
  - right. split.
    + intros Hall. assert (F' : List.filter (is_invalid (valid_columns schema [])) cleaned = []).
      { apply filter_bool_nil. intros c Hc. rewrite Hinv.
        rewrite Forall_forall in Hall. rewrite (Hall c Hc). reflexivity. }
      congruence.
    + exists (Py.sorted (list_set (c0 :: inv))). split.
      * cbn [handler]. unfold msg_invalid_columns. rewrite list_set_nil.
        reflexivity.
      * intros c. rewrite sorted_elem, list_set_elem, <- F.
        rewrite list_elem_of_In, filter_In, <- list_elem_of_In, Hinv.
        now rewrite negb_true_iff, String.eqb_neq.
Qed.

Lemma unknown_tables_never_reported_witness :
  let cleaned := check_and_clean_columns ["sku"] (negb (bool_decide (@nil string = [])))
                   (known_aliases (dom schema1) []) (dom schema1) in
  (Forall (fun c => c = "*") cleaned
   /\ query_validator (fun _ => parsed ["inventory"] ["sku"] [] [])
        "SELECT sku FROM inventory" schema1 = "SELECT sku FROM inventory")
  \/ (~ Forall (fun c => c = "*") cleaned
      /\ exists shown_columns,
           query_validator (fun _ => parsed ["inventory"] ["sku"] [] [])
             "SELECT sku FROM inventory" schema1
           = "Validation Error: Columns [" +:+ Py.join ", " shown_columns
             +:+ "] are not defined for the referenced tables []"
           /\ forall c, c ∈ shown_columns <-> c ∈ cleaned /\ c <> "*").
Proof.
  apply (unknown_tables_never_reported (fun _ => parsed ["inventory"] ["sku"] [] [])
           "SELECT sku FROM inventory" schema1 ["inventory"] ["sku"] [] []).
  - vm_compute. reflexivity.
  - reflexivity.
  - discriminate.
  - apply List.Forall_cons; [vm_compute; reflexivity|apply List.Forall_nil].
Defined.

(** ** A disallowed keyword is always reported *)

Lemma lower_eq_isword w keyword :
  Py.lower w = Py.lower keyword ->
  Py.all_chars Py.isword keyword = true -> Py.all_chars Py.isword w = true.
Proof.
  revert keyword. induction w as [|a w IH]; intros [|c kw] H Hk; try discriminate;
    [reflexivity|].
  simpl in *. injection H as Ha Hw. apply andb_true_iff in Hk as [Hc Hk].
  rewrite (IH kw Hw Hk), andb_true_r.
  now rewrite <- (isword_lower a), Ha, isword_lower.
Qed.

(** As [lit_ci_match], for a keyword made of word characters: the match ends
    after a word character. *)
Lemma lit_ci_match_word keyword :
  keyword <> "" ->
  forall w rest prev cs k,
  Py.lower w = Py.lower keyword ->
  Py.all_chars Py.isword keyword = true ->
  exists a, Py.isword a = true
            /\ m (lit_ci keyword) prev (w +:+ rest) cs k = k (Some a) rest cs.
Proof.
  induction keyword as [|c kw IH]; [contradiction|]. intros _ w rest prev cs k Hw Hk.
  pose proof (lower_eq_isword _ _ Hw Hk) as Hword.
  destruct w as [|a w]; [discriminate|]. simpl in Hw. injection Hw as Ha Hw.
  assert (Hci : is_ci c a = true).
  { unfold is_ci. rewrite Ha. apply Ascii.eqb_refl. }
  simpl in Hword, Hk. apply andb_true_iff in Hword as [Hwa Hword].
  apply andb_true_iff in Hk as [_ Hk].
  rewrite append_cons. destruct kw as [|d kw].
  - apply lower_nil in Hw as ->. exists a. split; [exact Hwa|]. simpl. now rewrite Hci.
  - change (lit_ci (String c (String d kw)))
      with (Seq (Chr (is_ci c)) (lit_ci (String d kw))).
    cbn [m]. rewrite Hci. apply IH; [discriminate|exact Hw|exact Hk].
Qed.

Lemma search_from_reaches r pre :
  forall prev s,
  is_Some (attempt r false
             (match last_char pre with Some c => Some c | None => prev end) s) ->
  is_Some (search_from r prev (pre +:+ s)).
Proof.
  induction pre as [|c pre IH]; intros prev s H.
  - rewrite append_nil_l. simpl in H. destruct H as [res H].
    destruct s; simpl; rewrite H; now eexists.
  - rewrite append_cons. cbn [search_from].
    destruct (attempt r false prev _); [now eexists|].
    assert (H' : is_Some (search_from r (Some c) (pre +:+ s))).
    { apply IH. simpl in H. now destruct (last_char pre). }
    destruct H' as [mo H']. rewrite H'. now eexists.
Qed.

(** A keyword standing between two places that are not word characters is
    found by the pattern of line 97, whatever the case of its letters. *)
Lemma keyword_found keyword pre w post :
  keyword <> "" ->
  Py.all_chars Py.isword keyword = true ->
  Py.lower w = Py.lower keyword ->
  word_before (last_char pre) = false ->
  word_after post = false ->
  found (re_search (re_keyword keyword) (pre +:+ w +:+ post)) = true.
Proof.
  intros Hne Hk Hw Hpre Hpost. apply found_is_Some. unfold re_search.
  apply search_from_reaches.
  assert (Hprev : word_before
                    (match last_char pre with Some c => Some c | None => None end) = false).
  { now destruct (last_char pre). }
  set (prev := match last_char pre with Some c => Some c | None => None end) in *.
  pose proof (lower_eq_isword _ _ Hw Hk) as Hword.
  assert (Hafter : word_after (w +:+ post) = true).
  { destruct w as [|a w]; [destruct keyword; [contradiction|discriminate]|].
    rewrite append_cons. simpl in *. now apply andb_true_iff in Hword as [-> _]. }
  unfold attempt, re_keyword. cbn [seq m]. rewrite Hprev, Hafter. cbn [xorb].
  match goal with
  | |- is_Some (m _ _ _ _ ?k) =>
      destruct (lit_ci_match_word keyword Hne w post prev [] k Hw Hk) as (a & Ha & Hm)
  end.
  rewrite Hm. cbn [word_before]. rewrite Ha, Hpost. simpl. now eexists.
Qed.

Lemma fold_disallowed_keeps query l :
  forall issues x, x ∈ issues -> x ∈ fold_left (step_disallowed query) l issues.
Proof.
  induction l as [|kw l IH]; intros issues x Hx; [exact Hx|]. simpl. apply IH.
  unfold step_disallowed. destruct (found _); [|exact Hx]. apply elem_of_app. now left.
Qed.

Lemma fold_unsafe_keeps query l :
  forall issues x, x ∈ issues -> x ∈ fold_left (step_unsafe query) l issues.
Proof.
  induction l as [|r l IH]; intros issues x Hx; [exact Hx|]. simpl. apply IH.
  unfold step_unsafe. destruct (re_search r query); [|exact Hx].
  apply elem_of_app. now left.
Qed.

Lemma fold_disallowed_reports query keyword l :
  keyword ∈ l ->
  found (re_search (re_keyword keyword) query) = true ->
  forall issues,
  msg_disallowed keyword ∈ fold_left (step_disallowed query) l issues.
Proof.
  induction l as [|kw l IH]; intros Hin Hf issues; [now apply elem_of_nil in Hin|].
  simpl. apply elem_of_cons in Hin as [<- |Hin].
  - apply fold_disallowed_keeps. unfold step_disallowed. rewrite Hf.
    apply elem_of_app. right. apply list_elem_of_here.
  - now apply IH.
Qed.

Lemma before_semicolon_kept query x :
  x ∈ issues_before_semicolon query -> x ∈ inspect_issues query.
Proof.
  intros H. rewrite inspect_issues_unfold. apply elem_of_add_if, elem_of_add_if.
  destruct (rule_semicolon query); [now apply elem_of_add_if|exact H].
Qed.

(** X19: a disallowed keyword that stands in the query as a whole word, in
    any mix of cases, gets its issue; and when the query starts with SELECT
    or with a CTE header it is rejected with the report of the issues,
    whatever the parser and the schema are. *)
Theorem disallowed_keyword_reported (keyword pre w post : string) :
  keyword ∈ disallowed_keywords ->
  Py.lower w = Py.lower keyword ->
  word_before (last_char pre) = false ->
  word_after post = false ->
  ("Potential disallowed operation detected: '" +:+ keyword +:+ "'.")
  ∈ inspect_issues (pre +:+ w +:+ post)
  /\ (rule_select (pre +:+ w +:+ post) = false ->
      forall Parser schema,
        query_validator Parser (pre +:+ w +:+ post) schema
        = issues_str (inspect_issues (pre +:+ w +:+ post))
        /\ query_validator Parser (pre +:+ w +:+ post) schema <> pre +:+ w +:+ post).
Proof.
  intros Hk Hw Hpre Hpost.
  assert (Hprops : keyword <> "" /\ Py.all_chars Py.isword keyword = true).
  { assert (H : forallb (fun kw => negb (String.eqb kw "") && Py.all_chars Py.isword kw)
                  disallowed_keywords = true) by (vm_compute; reflexivity).
    rewrite forallb_forall in H. apply list_elem_of_In in Hk.
    apply H in Hk. apply andb_true_iff in Hk as [Hn Ha]. split; [|exact Ha].
    apply negb_true_iff in Hn. now apply String.eqb_neq. }
  destruct Hprops as [Hne Hword].
  pose proof (keyword_found keyword pre w post Hne Hword Hw Hpre Hpost) as Hf.
  assert (Hin : msg_disallowed keyword ∈ inspect_issues (pre +:+ w +:+ post)).
  { apply before_semicolon_kept. unfold issues_before_semicolon.
    apply elem_of_add_if, fold_unsafe_keeps. now apply fold_disallowed_reports. }
  split; [exact Hin|].
  intros Hsel Parser schema. apply issues_short_circuit; [exact Hsel|].
  intros E. rewrite E in Hin. now apply elem_of_nil in Hin.
Qed.

Lemma disallowed_keyword_reported_witness :
  ("Potential disallowed operation detected: '" +:+ "DROP" +:+ "'.")
  ∈ inspect_issues ("SELECT 1 FROM t;" +:+ "dRoP" +:+ " TABLE t")
  /\ (rule_select ("SELECT 1 FROM t;" +:+ "dRoP" +:+ " TABLE t") = false ->
      forall Parser schema,
        query_validator Parser ("SELECT 1 FROM t;" +:+ "dRoP" +:+ " TABLE t") schema
        = issues_str (inspect_issues ("SELECT 1 FROM t;" +:+ "dRoP" +:+ " TABLE t"))
        /\ query_validator Parser ("SELECT 1 FROM t;" +:+ "dRoP" +:+ " TABLE t") schema
           <> "SELECT 1 FROM t;" +:+ "dRoP" +:+ " TABLE t").
Proof.
  apply (disallowed_keyword_reported "DROP" "SELECT 1 FROM t;" "dRoP" " TABLE t").
  - apply (bool_decide_unpack _). vm_compute. exact I.
  - reflexivity.
  - reflexivity.
  - reflexivity.
Defined.

(** ** The matcher finds a match exactly when the pattern has one *)

Lemma last_or_cons prev c w : last_or prev (String c w) = last_or (Some c) w.
Proof. unfold last_or. simpl. now destruct (last_char w). Qed.

Lemma last_or_app prev w1 w2 : last_or prev (w1 +:+ w2) = last_or (last_or prev w1) w2.
Proof.
  revert prev. induction w1 as [|c w1 IH]; intros prev; [reflexivity|].
  rewrite append_cons, !last_or_cons. apply IH.
Qed.

Lemma is_Some_orelse {A : Type} (x y : option A) :
  is_Some (orelse x y) <-> is_Some x \/ is_Some y.
Proof.
  destruct x as [a|]; simpl; split.
  - intros _. left. now exists a.
  - intros _. now exists a.
  - intros H. now right.
  - intros [[a H]|H]; [discriminate|exact H].
Qed.

Lemma star_greedy_sem p k : forall s prev,
  is_Some (star_greedy p prev s k)
  <-> exists w s', s = w +:+ s' /\ Py.all_chars p w = true
                   /\ is_Some (k (last_or prev w) s').
Proof.
  induction s as [|c s IH]; intros prev.
  - simpl. split.
    + intros H. now exists "", "".
    + intros (w & s' & E & _ & H). destruct w as [|a w].
      * rewrite append_nil_l in E. now subst s'.
      * rewrite append_cons in E. discriminate.
  - simpl. destruct (p c) eqn:Hp.
    + rewrite is_Some_orelse, IH. split.
      * intros [(w & s' & -> & Hw & H)|H].
        -- exists (String c w), s'. rewrite append_cons, last_or_cons. simpl.
           now rewrite Hp, Hw.
        -- now exists "", (String c s).
      * intros (w & s' & E & Hw & H). destruct w as [|a w].
        -- right. rewrite append_nil_l in E. now subst s'.
        -- left. rewrite append_cons in E. injection E as -> ->.
           simpl in Hw. apply andb_true_iff in Hw as [_ Hw].
           rewrite last_or_cons in H. now exists w, s'.
    + split.
      * intros H. now exists "", (String c s).
      * intros (w & s' & E & Hw & H). destruct w as [|a w].
        -- rewrite append_nil_l in E. now subst s'.
        -- rewrite append_cons in E. injection E as -> ->.
           simpl in Hw. now rewrite Hp in Hw.
Qed.

Lemma star_lazy_sem p k : forall s prev,
  is_Some (star_lazy p prev s k)
  <-> exists w s', s = w +:+ s' /\ Py.all_chars p w = true
                   /\ is_Some (k (last_or prev w) s').
Proof.
  induction s as [|c s IH]; intros prev.
  - simpl. split.
    + intros H. exists "", "". change (last_or prev "") with prev.
      destruct (k prev ""); [|now destruct H].
      repeat split. now eexists.
    + intros (w & s' & E & _ & H). destruct w as [|a w].
      * rewrite append_nil_l in E. subst s'. change (last_or prev "") with prev in H.
        destruct (k prev ""); [now eexists|exact H].
      * rewrite append_cons in E. discriminate.
  - simpl. destruct (k prev (String c s)) as [r0|] eqn:Ek.
    + split; [|intros _; now eexists].
      intros _. exists "", (String c s). repeat split.
      change (last_or prev "") with prev. rewrite Ek. now eexists.
    + destruct (p c) eqn:Hp.
      * rewrite IH. split.
        -- intros (w & s' & -> & Hw & H).
           exists (String c w), s'. rewrite append_cons, last_or_cons. simpl.
           now rewrite Hp, Hw.
        -- intros (w & s' & E & Hw & H). destruct w as [|a w].
           ++ rewrite append_nil_l in E. subst s'.
              change (last_or prev "") with prev in H. rewrite Ek in H.
              now destruct H.
           ++ rewrite append_cons in E. injection E as -> ->.
              simpl in Hw. apply andb_true_iff in Hw as [_ Hw].
              rewrite last_or_cons in H. now exists w, s'.
      * split; [intros [? H]; discriminate|].
        intros (w & s' & E & Hw & H). destruct w as [|a w].
        -- rewrite append_nil_l in E. subst s'.
           change (last_or prev "") with prev in H. rewrite Ek in H.
           now destruct H.
        -- rewrite append_cons in E. injection E as -> ->.
           simpl in Hw. now rewrite Hp in Hw.
Qed.

(** The matcher is sound and complete for [matches]: it succeeds exactly
    when the pattern has a match after which the continuation succeeds. *)
Lemma m_sem (r : regex) : forall prev s cs k,
  (is_Some (m r prev s cs k) ->
   exists prev' s' cs', matches r prev s prev' s' /\ is_Some (k prev' s' cs'))
  /\ (forall prev' s', matches r prev s prev' s' ->
        (forall cs', is_Some (k prev' s' cs')) -> is_Some (m r prev s cs k)).
Proof.
  induction r as [|p|r1 IH1 r2 IH2|r1 IH1 r2 IH2|g p|n r1 IH1| | | |r1 IH1];
    intros prev s cs k; cbn [m matches].
  - split.
    + intros H. now exists prev, s, cs.
    + intros prev' s' [-> ->] H. apply H.
  - split.
    + intros H. destruct s as [|c s]; [now destruct H|].
      destruct (p c) eqn:Hp; [|now destruct H].
      exists (Some c), s, cs. split; [|exact H]. now exists c.
    + intros prev' s' (c & -> & Hp & ->) H. rewrite Hp. apply H.
  - split.
    + intros H. apply (proj1 (IH1 _ _ _ _)) in H as (p1 & s1 & cs1 & H1 & H).
      apply (proj1 (IH2 _ _ _ _)) in H as (p2 & s2 & cs2 & H2 & H).
      exists p2, s2, cs2. split; [|exact H]. now exists p1, s1.
    + intros prev' s' (p1 & s1 & H1 & H2) H.
      apply (proj2 (IH1 _ _ _ _) p1 s1 H1). intros cs1.
      apply (proj2 (IH2 _ _ _ _) prev' s' H2). exact H.
  - split.
    + intros [H|H]%is_Some_orelse.
      * apply (proj1 (IH1 _ _ _ _)) in H as (p1 & s1 & cs1 & H1 & H).
        exists p1, s1, cs1. split; [now left|exact H].
      * apply (proj1 (IH2 _ _ _ _)) in H as (p1 & s1 & cs1 & H1 & H).
        exists p1, s1, cs1. split; [now right|exact H].
    + intros prev' s' [H1|H2] H; apply is_Some_orelse.
      * left. now apply (proj2 (IH1 _ _ _ _) prev' s' H1).
      * right. now apply (proj2 (IH2 _ _ _ _) prev' s' H2).
  - assert (E : is_Some (if g then star_greedy p prev s (fun prev' s' => k prev' s' cs)
                         else star_lazy p prev s (fun prev' s' => k prev' s' cs))
                <-> exists w s', s = w +:+ s' /\ Py.all_chars p w = true
                                 /\ is_Some (k (last_or prev w) s' cs)).
    { destruct g; [apply star_greedy_sem|apply star_lazy_sem]. }
    destruct g; (split;
      [ intros H; apply E in H as (w & s' & -> & Hw & H);
        exists (last_or prev w), s', cs; split; [now exists w|exact H]
      | intros prev' s' (w & -> & Hw & ->) H; apply E; now exists w, s' ]).
  - split.
    + intros H. apply (proj1 (IH1 _ _ _ _)) in H as (p1 & s1 & cs1 & H1 & H).
      eexists p1, s1, _. split; [exact H1|exact H].
    + intros prev' s' H1 H. apply (proj2 (IH1 _ _ _ _) prev' s' H1).
      intros cs1. apply H.
  - split.
    + intros H. destruct (xorb _ _) eqn:E; [|now destruct H]. now exists prev, s, cs.
    + intros prev' s' (E & -> & ->) H. rewrite E. apply H.
  - split.
    + intros H. destruct prev; [now destruct H|]. now exists None, s, cs.
    + intros prev' s' (-> & -> & ->) H. apply H.
  - split.
    + intros H. destruct (at_end s) eqn:E; [|now destruct H]. now exists prev, s, cs.
    + intros prev' s' (E & -> & ->) H. rewrite E. apply H.
  - split.
    + intros H.
      destruct (m r1 prev s cs (fun prev' s' cs' => Some (prev', s', cs'))) eqn:E;
        [now destruct H|].
      exists prev, s, cs. split; [|exact H]. split; [|now split].
      intros (p1 & s1 & H1).
      destruct (proj2 (IH1 prev s cs (fun prev' s' cs' => Some (prev', s', cs'))) p1 s1 H1)
        as [x Hx]; [intros cs1; now eexists|congruence].
    + intros prev' s' (Hn & -> & ->) H.
      destruct (m r1 prev s cs (fun prev' s' cs' => Some (prev', s', cs'))) eqn:E;
        [|apply H].
      exfalso. apply Hn.
      destruct (proj1 (IH1 prev s cs (fun prev' s' cs' => Some (prev', s', cs'))))
        as (p1 & s1 & cs1 & H1 & _); [rewrite E; now eexists|].
      now exists p1, s1.
Qed.

(** [re.match(r, c)] finds a match exactly when [r] has one at the start of
    [c]. *)
Lemma re_match_sem r c :
  found (re_match r c) = true <-> exists prev' s', matches r None c prev' s'.
Proof.
  rewrite found_is_Some. unfold re_match, attempt. cbn [andb].
  split.
  - intros H.
    destruct (m r None c [] _) eqn:E; [|now destruct H].
    destruct (proj1 (m_sem r None c [] (fun prev' s' cs' => Some (prev', s', cs'))))
      as (p1 & s1 & cs1 & H1 & _); [rewrite E; now eexists|].
    now exists p1, s1.
  - intros (p1 & s1 & H1).
    destruct (proj2 (m_sem r None c [] (fun prev' s' cs' => Some (prev', s', cs'))) p1 s1 H1)
      as [x Hx]; [intros cs1; now eexists|].
    rewrite Hx. now eexists.
Qed.

(** ** The texts read by the patterns of the column tests *)

Lemma reads_ext r (L L' : string -> Prop) :
  (forall w, L w <-> L' w) -> reads r L -> reads r L'.
Proof.
  intros HL H prev s prev' s'. rewrite (H prev s prev' s').
  split; intros (w & Hw & E); exists w; (split; [now apply HL|exact E]).
Qed.

Lemma reads_chr p : reads (Chr p) (fun w => exists c, w = String c "" /\ p c = true).
Proof.
  intros prev s prev' s'. cbn [matches]. split.
  - intros (c & -> & Hp & ->). exists (String c ""). split; [now exists c|].
    split; reflexivity.
  - intros (w & (c & -> & Hp) & -> & ->). exists c. repeat split. exact Hp.
Qed.

Lemma reads_ch c : reads (ch c) (fun w => w = String c "").
Proof.
  refine (reads_ext _ _ _ _ (reads_chr (eqc c))). intros w. split.
  - intros (a & -> & H). apply Ascii.eqb_eq in H. now subst a.
  - intros ->. exists c. split; [reflexivity|apply Ascii.eqb_refl].
Qed.

Lemma reads_star g p : reads (Star g p) (fun w => Py.all_chars p w = true).
Proof.
  intros prev s prev' s'. cbn [matches].
  split; intros (w & H1 & H2 & H3); exists w; auto.
Qed.

Lemma reads_seq r1 r2 (L1 L2 : string -> Prop) :
  reads r1 L1 -> reads r2 L2 ->
  reads (Seq r1 r2) (fun w => exists w1 w2, w = w1 +:+ w2 /\ L1 w1 /\ L2 w2).
Proof.
  intros H1 H2 prev s prev' s'. cbn [matches]. split.
  - intros (p1 & s1 & M1 & M2).
    apply H1 in M1 as (w1 & Hw1 & -> & ->). apply H2 in M2 as (w2 & Hw2 & -> & ->).
    exists (w1 +:+ w2). split; [now exists w1, w2|].
    now rewrite append_assoc, last_or_app.
  - intros (w & (w1 & w2 & -> & Hw1 & Hw2) & -> & ->).
    exists (last_or prev w1), (w2 +:+ s'). split.
    + apply H1. exists w1. now rewrite append_assoc.
    + apply H2. exists w2. now rewrite last_or_app.
Qed.

Lemma reads_alt r1 r2 (L1 L2 : string -> Prop) :
  reads r1 L1 -> reads r2 L2 -> reads (Alt r1 r2) (fun w => L1 w \/ L2 w).
Proof.
  intros H1 H2 prev s prev' s'. cbn [matches]. rewrite (H1 _ _ _ _), (H2 _ _ _ _). split.
  - intros [(w & Hw & E)|(w & Hw & E)]; exists w; tauto.
  - intros (w & [Hw|Hw] & E); [left|right]; now exists w.
Qed.

Lemma reads_grp n r (L : string -> Prop) : reads r L -> reads (Grp n r) L.
Proof. intros H. exact H. Qed.

Lemma reads_plus p : reads (plus p) (fun w => w <> "" /\ Py.all_chars p w = true).
Proof.
  unfold plus.
  refine (reads_ext _ _ _ _
           (reads_seq _ _ _ _ (reads_chr p) (reads_star true p))).
  intros w. split.
  - intros (w1 & w2 & -> & (c & -> & Hp) & Hw2). rewrite append_cons, append_nil_l.
    split; [discriminate|]. simpl. now rewrite Hp.
  - intros (Hne & Hw). destruct w as [|c w]; [contradiction|].
    simpl in Hw. apply andb_true_iff in Hw as [Hp Hw].
    exists (String c ""), w. repeat split; [now exists c|exact Hw].
Qed.

Lemma spelt_cons c keyword w :
  spelt (String c keyword) w
  <-> exists a w', w = String a w' /\ is_ci c a = true /\ spelt keyword w'.
Proof.
  unfold spelt, is_ci. split.
  - intros H. destruct w as [|a w']; [discriminate|]. simpl in H. injection H as Ha Hw.
    exists a, w'. repeat split; [|exact Hw]. rewrite Ha. apply Ascii.eqb_refl.
  - intros (a & w' & -> & Ha & Hw). apply Ascii.eqb_eq in Ha. simpl. now rewrite Ha, Hw.
Qed.

(** A literal under IGNORECASE reads the keyword in any mix of cases. *)
Lemma reads_lit_ci keyword : keyword <> "" -> reads (lit_ci keyword) (spelt keyword).
Proof.
  induction keyword as [|c kw IH]; [contradiction|]. intros _.
  destruct kw as [|d kw].
  - refine (reads_ext _ _ _ _ (reads_chr (is_ci c))). intros w.
    rewrite spelt_cons. split.
    + intros (a & -> & Ha). now exists a, "".
    + intros (a & w' & -> & Ha & Hw). apply lower_nil in Hw as ->. now exists a.
  - change (lit_ci (String c (String d kw)))
      with (Seq (Chr (is_ci c)) (lit_ci (String d kw))).
    refine (reads_ext _ _ _ _
             (reads_seq _ _ _ _ (reads_chr (is_ci c)) (IH ltac:(discriminate)))).
    intros w. rewrite spelt_cons. split.
    + intros (w1 & w2 & -> & (a & -> & Ha) & Hw). now exists a, w2.
    + intros (a & w' & -> & Ha & Hw). exists (String a ""), w'.
      repeat split; [now exists a|exact Hw].
Qed.

Lemma reads_aggregate_names :
  reads (alt [lit_ci "COUNT"; lit_ci "SUM"; lit_ci "AVG"; lit_ci "MIN"; lit_ci "MAX"])
    aggregate_name.
Proof.
  cbn [alt].
  refine (reads_ext _ _ _ _
    (reads_alt _ _ _ _ (reads_lit_ci "COUNT" ltac:(discriminate))
    (reads_alt _ _ _ _ (reads_lit_ci "SUM" ltac:(discriminate))
    (reads_alt _ _ _ _ (reads_lit_ci "AVG" ltac:(discriminate))
    (reads_alt _ _ _ _ (reads_lit_ci "MIN" ltac:(discriminate))
                       (reads_lit_ci "MAX" ltac:(discriminate))))))).
  intros w. unfold aggregate_name. split.
  - intros [H|[H|[H|[H|H]]]];
      [exists "COUNT"|exists "SUM"|exists "AVG"|exists "MIN"|exists "MAX"];
      (split; [apply (bool_decide_unpack _); vm_compute; exact I|exact H]).
  - intros (kw & Hk & H).
    repeat (apply elem_of_cons in Hk as [-> |Hk]; [tauto|]).
    now apply elem_of_nil in Hk.
Qed.

Lemma space_not_word c : Py.isspace c = true -> Py.isword c = false.
Proof.
  intros H.
  pose proof (forall_ascii (fun c => implb (Py.isspace c) (negb (Py.isword c)))
                ltac:(vm_compute; reflexivity) c) as Hc.
  simpl in Hc. rewrite H in Hc. now destruct (Py.isword c).
Qed.

Lemma word_after_first p b w rest :
  (forall c, p c = true -> Py.isword c = b) ->
  w <> "" -> Py.all_chars p w = true -> word_after (w +:+ rest) = b.
Proof.
  intros Hp Hne Hw. destruct w as [|c w]; [contradiction|].
  simpl in Hw. apply andb_true_iff in Hw as [Hc _]. rewrite append_cons. simpl.
  now apply Hp.
Qed.

Lemma word_before_last p b w prev :
  (forall c, p c = true -> Py.isword c = b) ->
  w <> "" -> Py.all_chars p w = true -> word_before (last_or prev w) = b.
Proof.
  intros Hp. revert prev. induction w as [|c w IH]; intros prev Hne Hw; [contradiction|].
  simpl in Hw. apply andb_true_iff in Hw as [Hc Hw]. rewrite last_or_cons.
  destruct w as [|d w]; [simpl; now apply Hp|].
  apply IH; [discriminate|exact Hw].
Qed.

Lemma word_before_blanks b prev :
  blanks b -> word_before prev = false -> word_before (last_or prev b) = false.
Proof.
  intros Hb Hprev. destruct b as [|c b]; [exact Hprev|].
  apply (word_before_last Py.isspace); [apply space_not_word|discriminate|exact Hb].
Qed.

Lemma spelt_word keyword w :
  keyword <> "" -> Py.all_chars Py.isword keyword = true ->
  spelt keyword w -> w <> "" /\ Py.all_chars Py.isword w = true.
Proof.
  intros Hne Hk Hw. split; [|exact (lower_eq_isword _ _ Hw Hk)].
  intros ->. destruct keyword; [contradiction|discriminate].
Qed.

(** The argument of an aggregate call, read after a character that is not a
    word character: the two word boundaries around DISTINCT always hold. *)
Lemma matches_argument prev s prev' s' :
  word_before prev = false ->
  matches (alt [ ch "*"; plus Py.isword;
                 seq [WordB; lit_ci "DISTINCT"; WordB; sp_plus; plus Py.isword] ])
          prev s prev' s'
  <-> exists a, aggregate_argument a /\ s = a +:+ s' /\ prev' = last_or prev a.
Proof.
  intros Hprev. cbn [alt seq matches]. split.
  - intros [H|[H|H]].
    + apply reads_ch in H as (w & -> & -> & ->). exists "*". split; [now left|auto].
    + apply reads_plus in H as (w & Hw & -> & ->). exists w.
      split; [right; now left|auto].
    + destruct H as (p1 & s1 & (_ & -> & ->) & p2 & s2 & Hd
                     & p3 & s3 & (_ & -> & ->) & p4 & s4 & Hb & Hx).
      apply (reads_lit_ci "DISTINCT" ltac:(discriminate)) in Hd as (d & Hd & -> & ->).
      apply (reads_plus Py.isspace) in Hb as (b & [Hbne Hb] & -> & ->).
      apply reads_plus in Hx as (x & Hx & -> & ->).
      exists (d +:+ b +:+ x). split; [|split].
      * right; right. now exists d, b, x.
      * now rewrite !append_assoc.
      * now rewrite !last_or_app.
  - intros (a & [-> |[Ha|(d & b & x & -> & Hd & Hbne & Hb & Hx)]] & -> & ->).
    + left. apply reads_ch. now exists "*".
    + right; left. apply reads_plus. now exists a.
    + right; right.
      destruct (spelt_word "DISTINCT" d ltac:(discriminate) ltac:(reflexivity) Hd)
        as [Hdne Hdw].
      rewrite !append_assoc.
      exists prev, (d +:+ b +:+ x +:+ s'). split.
      { split; [|now split]. rewrite Hprev.
        now rewrite (word_after_first Py.isword true d _ (fun _ H => H) Hdne Hdw). }
      exists (last_or prev d), (b +:+ x +:+ s'). split.
      { apply (reads_lit_ci "DISTINCT" ltac:(discriminate)). now exists d. }
      exists (last_or prev d), (b +:+ x +:+ s'). split.
      { split; [|now split].
        rewrite (word_before_last Py.isword true d prev (fun _ H => H) Hdne Hdw).
        now rewrite (word_after_first Py.isspace false b _ space_not_word Hbne Hb). }
      exists (last_or (last_or prev d) b), (x +:+ s'). split.
      { apply (reads_plus Py.isspace). now exists b. }
      apply reads_plus. exists x. split; [exact Hx|]. split; [reflexivity|].
      now rewrite !last_or_app.
Qed.

(** Line 141: [agg_pattern] matches a column exactly when the column begins
    with an aggregate call. *)
Lemma agg_pattern_sem c :
  found (re_match agg_pattern c) = true <-> begins_with_aggregate_call c.
Proof.
  rewrite re_match_sem. split.
  - intros (p' & s' & H).
    destruct H as (p1 & s1 & (_ & -> & ->) & p2 & s2 & Hf & p3 & s3 & Hb1
                   & p4 & s4 & Hl & p5 & s5 & Hb2 & p6 & s6 & Ha
                   & p7 & s7 & Hb3 & Hr).
    apply (reads_grp _ _ _ reads_aggregate_names) in Hf as (f & Hf & -> & ->).
    apply (reads_star true Py.isspace) in Hb1 as (b1 & Hb1 & -> & ->).
    apply (reads_ch "(") in Hl as (l & -> & -> & ->).
    apply (reads_star true Py.isspace) in Hb2 as (b2 & Hb2 & -> & ->).
    apply matches_argument in Ha as (a & Ha & -> & ->);
      [|now apply word_before_blanks].
    apply (reads_star true Py.isspace) in Hb3 as (b3 & Hb3 & -> & ->).
    apply (reads_ch ")") in Hr as (r & -> & -> & ->).
    exists (f +:+ b1 +:+ "(" +:+ b2 +:+ a +:+ b3 +:+ ")"), s'.
    split; [now rewrite !append_assoc|]. now exists f, b1, b2, a, b3.
  - intros (t & rest & -> & f & b1 & b2 & a & b3 & -> & Hf & Hb1 & Hb2 & Ha & Hb3).
    rewrite !append_assoc.
    exists (Some ")"%char), rest.
    exists None, (f +:+ b1 +:+ "(" +:+ b2 +:+ a +:+ b3 +:+ ")" +:+ rest).
    split; [now repeat split|].
    exists (last_or None f), (b1 +:+ "(" +:+ b2 +:+ a +:+ b3 +:+ ")" +:+ rest). split.
    { apply (reads_grp _ _ _ reads_aggregate_names). now exists f. }
    exists (last_or (last_or None f) b1), ("(" +:+ b2 +:+ a +:+ b3 +:+ ")" +:+ rest). split.
    { apply (reads_star true Py.isspace). now exists b1. }
    exists (Some "("%char), (b2 +:+ a +:+ b3 +:+ ")" +:+ rest). split.
    { apply (reads_ch "("). now exists "(". }
    exists (last_or (Some "("%char) b2), (a +:+ b3 +:+ ")" +:+ rest). split.
    { apply (reads_star true Py.isspace). now exists b2. }
    exists (last_or (last_or (Some "("%char) b2) a), (b3 +:+ ")" +:+ rest). split.
    { apply matches_argument; [now apply word_before_blanks|]. now exists a. }
    exists (last_or (last_or (last_or (Some "("%char) b2) a) b3), (")" +:+ rest). split.
    { apply (reads_star true Py.isspace). now exists b3. }
    apply (reads_ch ")"). now exists ")".
Qed.

Lemma at_end_cases s : at_end s = true <-> s = "" \/ s = nl.
Proof.
  split.
  - destruct s as [|c [|d s]]; simpl; intros H; [now left| |discriminate].
    right. apply Ascii.eqb_eq in H. now subst c.
  - now intros [-> | ->].
Qed.

(** Line 214: the pattern matches a column exactly when the column is a
    call without argument, possibly followed by one newline. *)
Lemma re_call0_sem c : found (re_match re_call0 c) = true <-> bare_call c.
Proof.
  rewrite re_match_sem. split.
  - intros (p' & s' & H).
    destruct H as (p1 & s1 & (_ & -> & ->) & p2 & s2 & Hf & p3 & s3 & Hl
                   & p4 & s4 & Hb & p5 & s5 & Hr & He & -> & ->).
    apply (reads_plus Py.isword) in Hf as (f & Hf & -> & ->).
    apply (reads_ch "(") in Hl as (l & -> & -> & ->).
    apply (reads_star true Py.isspace) in Hb as (b & Hb & -> & ->).
    apply (reads_ch ")") in Hr as (r & -> & -> & ->).
    assert (Ht : bare_call_text (f +:+ "(" +:+ b +:+ ")")) by now exists f, b.
    apply at_end_cases in He as [-> | ->].
    + left. now rewrite append_nil_r.
    + right. exists (f +:+ "(" +:+ b +:+ ")"). split; [now rewrite !append_assoc|exact Ht].
  - intros H.
    assert (E : exists f b e, c = f +:+ "(" +:+ b +:+ ")" +:+ e
                              /\ identifier f /\ blanks b /\ at_end e = true).
    { destruct H as [(f & b & -> & Hf & Hb)|(t & -> & f & b & -> & Hf & Hb)].
      - exists f, b, "". now rewrite append_nil_r.
      - exists f, b, nl. now rewrite !append_assoc. }
    destruct E as (f & b & e & -> & Hf & Hb & He).
    exists (Some ")"%char), e.
    exists None, (f +:+ "(" +:+ b +:+ ")" +:+ e). split; [now repeat split|].
    exists (last_or None f), ("(" +:+ b +:+ ")" +:+ e). split.
    { apply (reads_plus Py.isword). now exists f. }
    exists (Some "("%char), (b +:+ ")" +:+ e). split.
    { apply (reads_ch "("). now exists "(". }
    exists (last_or (Some "("%char) b), (")" +:+ e). split.
    { apply (reads_star true Py.isspace). now exists b. }
    exists (Some ")"%char), e. split.
    { apply (reads_ch ")"). now exists ")". }
    now repeat split.
Qed.

Lemma isdigit_sem c : Py.isdigit c = true <-> digit_run c.
Proof.
  unfold digit_run. destruct c as [|a c]; simpl.
  - split; [discriminate|now intros [H _]].
  - split; [intros H; split; [discriminate|exact H]|now intros [_ H]].
Qed.

(** Lines 213-214: the test on one column, by the text of the column. *)
Lemma simple_column_ok_sem c : simple_column_ok c = true <-> let_through c.
Proof.
  unfold simple_column_ok, let_through.
  rewrite !orb_true_iff, String.eqb_eq, isdigit_sem, agg_pattern_sem, re_call0_sem.
  tauto.
Qed.

Lemma simple_column_sem c : simple_column c <-> let_through c.
Proof. now rewrite <- simple_column_ok_spec, simple_column_ok_sem. Qed.

Lemma forallb_let_through cs :
  forallb simple_column_ok cs = true <-> Forall let_through cs.
Proof.
  rewrite forallb_forall, Forall_forall. split; intros H c Hc.
  - apply simple_column_ok_sem, H. now apply list_elem_of_In.
  - apply simple_column_ok_sem, H. now apply list_elem_of_In.
Qed.

(** ** The no-table rule: claim C7 *)

(** C7 (amended): for a query that passed the inspection and whose parse
    reports no table, no CTE name and columns of ASCII text,
    [query_validator] returns the query unchanged if and only if every
    projected column is a non-empty run of digits, the star, a text that
    begins with an aggregate call (COUNT, SUM, AVG, MIN or MAX in any mix of
    cases, over the star, an identifier or DISTINCT identifier, with
    anything after the closing parenthesis) or a call without argument,
    possibly followed by one newline; otherwise it returns the message
    "Validation Error: Columns specified without a valid table or CTE
    reference.". *)
Theorem C7_no_table_query (Parser : string -> parser) (query : string)
    (schema : gmap string (list string)) (cs : list string) :
  inspect_query query = query ->
  tables (Parser query) = Returns [] ->
  columns (Parser query) = Returns cs ->
  with_names (Parser query) = Returns [] ->
  Forall (fun c => isascii c = true) cs ->
  (query_validator Parser query schema = query <-> Forall let_through cs)
  /\ (~ Forall let_through cs ->
      query_validator Parser query schema
      = "Validation Error: Columns specified without a valid table or CTE reference.").
Proof.
  intros Hpass Ht Hc Hw _.
  rewrite (query_validator_passed _ _ _ Hpass).
  unfold validate_body. rewrite Ht, Hc, Hw.
  cbn [mbind outcome_bind map]. rewrite !bool_decide_eq_true_2 by reflexivity.
  cbn [negb andb].
  destruct (forallb simple_column_ok cs) eqn:E; cbn [handler].
  - apply forallb_let_through in E. split; [tauto|contradiction].
  - assert (Hn : ~ Forall let_through cs).
    { intros H%forallb_let_through. congruence. }
    split; [|reflexivity]. split; [|contradiction].
    intros H. exfalso. now apply (passed_not_msg_no_table query).
Qed.

Lemma C7_no_table_query_witness :
  (query_validator (fun _ => parsed [] ["now()"; "42"; "*"; "COUNT(*)"] [] [])
     "SELECT now(), 42, *, COUNT(*)" ∅ = "SELECT now(), 42, *, COUNT(*)"
   <-> Forall let_through ["now()"; "42"; "*"; "COUNT(*)"])
  /\ (~ Forall let_through ["now()"; "42"; "*"; "COUNT(*)"] ->
      query_validator (fun _ => parsed [] ["now()"; "42"; "*"; "COUNT(*)"] [] [])
        "SELECT now(), 42, *, COUNT(*)" ∅
      = "Validation Error: Columns specified without a valid table or CTE reference.").
Proof.
  apply (C7_no_table_query (fun _ => parsed [] ["now()"; "42"; "*"; "COUNT(*)"] [] [])
           "SELECT now(), 42, *, COUNT(*)" ∅ ["now()"; "42"; "*"; "COUNT(*)"]).
  - vm_compute. reflexivity.
  - reflexivity.
  - reflexivity.
  - reflexivity.
  - forall_by_computation.
Defined.

Lemma last_or_none w : last_or None w = last_char w.
Proof. unfold last_or. now destruct (last_char w). Qed.

(** Every aggregate call and every call without argument ends with the
    closing parenthesis. *)
Lemma aggregate_call_text_end t : aggregate_call_text t -> last_char t = Some ")"%char.
Proof.
  intros (f & b1 & b2 & a & b3 & -> & _).
  rewrite <- last_or_none, !last_or_app. reflexivity.
Qed.

Lemma bare_call_text_end t : bare_call_text t -> last_char t = Some ")"%char.
Proof.
  intros (f & b & -> & _). rewrite <- last_or_none, !last_or_app. reflexivity.
Qed.

(** A numeric literal starts with a sign or a digit. *)
Lemma numeric_literal_text_start c :
  numeric_literal_text c ->
  exists a rest, c = String a rest
    /\ (a = "-"%char \/ a = "+"%char \/ Py.isdigit_char a = true).
Proof.
  intros (sign & whole & fraction & -> & Hs & [Hne Hw] & _).
  destruct whole as [|a w]; [contradiction|].
  simpl in Hw. apply andb_true_iff in Hw as [Ha _].
  destruct Hs as [-> |[-> | ->]].
  - exists a, (w +:+ fraction). auto.
  - exists "-"%char, (String a w +:+ fraction). auto.
  - exists "+"%char, (String a w +:+ fraction). auto.
Qed.

(** C7 as stated fails in both directions. The column [1.5] is a numeric
    literal; the test of lines 213-214 fails on it and the query that
    projects it is rejected, since line 213 lets only runs of digits through.
    The column [SUM(a) + b] is none of the listed kinds; the test passes on
    it and the query that projects it is accepted, since [agg_pattern] is
    not anchored at the end of the column. *)
Lemma C7_counterexample :
  (specified_simple_column "1.5"
   /\ simple_column_ok "1.5" = false
   /\ query_validator (fun _ => parsed [] ["1.5"] [] []) "SELECT 1.5" ∅
      = "Validation Error: Columns specified without a valid table or CTE reference.")
  /\ (~ specified_simple_column "SUM(a) + b"
      /\ simple_column_ok "SUM(a) + b" = true
      /\ query_validator (fun _ => parsed [] ["SUM(a) + b"] [] []) "SELECT SUM(a) + b" ∅
         = "SELECT SUM(a) + b").
Proof.
  split; [split; [|split]|split; [|split]].
  - left. exists "", "1", ".5". split; [reflexivity|]. split; [now left|].
    split; [split; [discriminate|reflexivity]|].
    right. exists "5". split; [reflexivity|]. split; [discriminate|reflexivity].
  - vm_compute. reflexivity.
  - vm_compute. reflexivity.
  - intros [H|[H|[H|H]]].
    + apply numeric_literal_text_start in H as (a & rest & E & Ha).
      injection E as <- _. destruct Ha as [Ha|[Ha|Ha]]; discriminate.
    + discriminate.
    + apply aggregate_call_text_end in H. discriminate.
    + apply bare_call_text_end in H. discriminate.
  - vm_compute. reflexivity.
  - vm_compute. reflexivity.
Qed.

(** ** Columns that the column check does not see *)

(** X4: raw columns that are the star or begin with an aggregate call are
    invisible to [check_and_clean_columns], with and without CTEs: taking
    them out of the list, wherever they stand, leaves its result unchanged. *)
Theorem star_and_aggregates_ignored (before extra after : list string)
    (ctes_present : bool) (aliases names : gset string) :
  Forall (fun c => c = "*" \/ begins_with_aggregate_call c) extra ->
  check_and_clean_columns (before ++ extra ++ after) ctes_present aliases names
  = check_and_clean_columns (before ++ after) ctes_present aliases names.
Proof.
  intros H. unfold check_and_clean_columns. rewrite !fold_left_app.
  rewrite (clean_fold_star_agg ctes_present _ extra); [reflexivity|].
  eapply Forall_impl; [exact H|]. intros c [-> |Hc]; [now left|right].
  now apply found_is_Some, agg_pattern_sem.
Qed.

Lemma star_and_aggregates_ignored_witness :
  check_and_clean_columns
    (["first_name"] ++ ["*"; "count( DISTINCT  id ) AS n"] ++ ["c.email"])
    false ∅ {["customers"]}
  = check_and_clean_columns (["first_name"] ++ ["c.email"]) false ∅ {["customers"]}.
Proof.
  apply (star_and_aggregates_ignored ["first_name"] ["*"; "count( DISTINCT  id ) AS n"]
           ["c.email"] false ∅ {["customers"]}).
  apply List.Forall_cons; [now left|].
  apply List.Forall_cons; [right|apply List.Forall_nil].
  apply agg_pattern_sem. vm_compute. reflexivity.
Defined.
